(** * answer-private: response filtering for the Answer API

    A shallow embedding of [answer_private.go] (package [answer_private]):
    the ownership extractors, the two per-endpoint filters, the response
    recorder, the middleware and the configuration receiver, together with
    a model of the parts of Go's [encoding/json] that the plugin calls. *)

From Stdlib Require Import ZArith Ascii String Decimal DecimalString DecimalFacts DecimalPos DecimalZ.
From stdpp Require Import gmap strings list fin_maps sorting.

Set Warnings "-register-all".

Local Open Scope string_scope.
Local Open Scope Z_scope.

(** Go's [[]byte] and [string] are both byte sequences; both are modelled
    by [string] (a list of 8-bit characters). *)
Abbreviation bytes := string.

(** ** Characters and text helpers *)

Definition dquote : ascii := "034"%char.
Definition squote : ascii := "039"%char.
Definition backslash : ascii := "\"%char.

Definition code (c : ascii) : N := N_of_ascii c.
Definition chr (n : N) : ascii := ascii_of_N n.

Definition in_range (lo hi : ascii) (c : ascii) : bool :=
  (code lo <=? code c)%N && (code c <=? code hi)%N.

(** [js] writes a JSON text with single quotes standing for double quotes. *)
Fixpoint js (s : string) : string :=
  match s with
  | EmptyString => EmptyString
  | String c r => String (if Ascii.eqb c squote then dquote else c) (js r)
  end.

Fixpoint strip_prefix (p s : string) : option string :=
  match p, s with
  | EmptyString, _ => Some s
  | String a p', String b s' => if Ascii.eqb a b then strip_prefix p' s' else None
  | String _ _, EmptyString => None
  end.

Fixpoint span (p : ascii -> bool) (s : string) : string * string :=
  match s with
  | EmptyString => (EmptyString, EmptyString)
  | String c r =>
      if p c then let '(tok, rest) := span p r in (String c tok, rest)
      else (EmptyString, s)
  end.

Fixpoint take_text (n : nat) (s : string) : string :=
  match n, s with
  | S n', String c r => String c (take_text n' r)
  | _, _ => EmptyString
  end.

Definition join (sep : string) (l : list string) : string := String.concat sep l.

(** ** encoding/json: lexical level

    The plugin calls [json.Unmarshal] and [json.Marshal] of Go's standard
    library. The module below is a model of what those two calls do for
    the types the plugin passes: [responseEnvelope], [Config] and
    [map[string]any].

    Numbers and nesting are simplified. A float64 is kept as the number
    literal it was decoded from and is encoded as that literal, where Go
    rounds the literal to a float64 and writes its shortest form; the
    plugin never computes with a float64, so equality of literals is finer
    than equality of the numbers. A literal beyond the range of float64,
    for which [Unmarshal] into an interface value reports an error, is
    decoded like any other. And the decoder's limit on the nesting depth
    of a text (10000 levels) is absent. *)

Module Json.

(** Insignificant whitespace: space, tab, line feed, carriage return. *)
Definition is_space (c : ascii) : bool :=
  Ascii.eqb c " " || Ascii.eqb c "009" || Ascii.eqb c "010" || Ascii.eqb c "013".

Fixpoint skip_space (s : string) : string :=
  match s with
  | String c r => if is_space c then skip_space r else s
  | EmptyString => EmptyString
  end.

(** *** Number literals: an optional minus sign; then a single 0, or a
    digit 1-9 followed by digits; then optionally a point and one or more
    digits; then optionally e or E, an optional sign and one or more
    digits. *)

Definition is_digit (c : ascii) : bool := in_range "0" "9" c.

Definition is_num_char (c : ascii) : bool :=
  is_digit c || Ascii.eqb c "-" || Ascii.eqb c "+" || Ascii.eqb c "."
  || Ascii.eqb c "e" || Ascii.eqb c "E".

(** One or more digits; the text after them. *)
Definition digits1 (s : string) : option string :=
  match s with
  | String c r => if is_digit c then Some (snd (span is_digit r)) else None
  | EmptyString => None
  end.

Definition num_sign (s : string) : string :=
  match s with
  | String c r => if Ascii.eqb c "-" then r else s
  | EmptyString => s
  end.

Definition num_int (s : string) : option string :=
  match s with
  | String c r => if Ascii.eqb c "0" then Some r else digits1 s
  | EmptyString => None
  end.

Definition num_frac (s : string) : option string :=
  match s with
  | String c r => if Ascii.eqb c "." then digits1 r else Some s
  | EmptyString => Some s
  end.

Definition num_exp (s : string) : option string :=
  match s with
  | String c r =>
      if Ascii.eqb c "e" || Ascii.eqb c "E" then
        match r with
        | String g r' =>
            if Ascii.eqb g "+" || Ascii.eqb g "-" then digits1 r' else digits1 r
        | EmptyString => None
        end
      else Some s
  | EmptyString => Some s
  end.

Definition is_number (s : string) : bool :=
  match r1 ← num_int (num_sign s); r2 ← num_frac r1; num_exp r2 with
  | Some EmptyString => true
  | _ => false
  end.

(** *** String literals *)

Definition is_hex (c : ascii) : bool :=
  is_digit c || in_range "a" "f" c || in_range "A" "F" c.

Definition hex_val (c : ascii) : N :=
  if is_digit c then code c - 48
  else if in_range "a" "f" c then code c - 87
  else code c - 55.

Definition hex4 (a b c d : ascii) : N :=
  ((hex_val a * 16 + hex_val b) * 16 + hex_val c) * 16 + hex_val d.

Definition is_simple_escape (e : ascii) : bool :=
  Ascii.eqb e dquote || Ascii.eqb e backslash || Ascii.eqb e "/"
  || Ascii.eqb e "b" || Ascii.eqb e "f" || Ascii.eqb e "n"
  || Ascii.eqb e "r" || Ascii.eqb e "t".

(** [string_token s] scans a string literal whose opening quote has been
    consumed: it returns the raw text up to the closing quote and the text
    after it. Control characters and unknown escapes are errors. *)
Fixpoint string_token (s : string) : option (string * string) :=
  match s with
  | EmptyString => None
  | String c r =>
      if Ascii.eqb c dquote then Some (EmptyString, r)
      else if Ascii.eqb c backslash then
        match r with
        | String e r1 =>
            if Ascii.eqb e "u" then
              match r1 with
              | String h1 (String h2 (String h3 (String h4 r2))) =>
                  if is_hex h1 && is_hex h2 && is_hex h3 && is_hex h4 then
                    '(t, rest) ← string_token r2;
                    Some (String c (String e (String h1 (String h2
                           (String h3 (String h4 t))))), rest)
                  else None
              | _ => None
              end
            else if is_simple_escape e then
              '(t, rest) ← string_token r1; Some (String c (String e t), rest)
            else None
        | EmptyString => None
        end
      else if (code c <? 32)%N then None
      else '(t, rest) ← string_token r; Some (String c t, rest)
  end.

(** *** UTF-8 *)

Definition is_ascii (c : ascii) : bool := (code c <? 128)%N.
Definition is_cont (c : ascii) : bool := in_range "128" "191" c.

(** Number of bytes announced by a lead byte (0: not a lead byte). *)
Definition lead_width (c : ascii) : nat :=
  if in_range "194" "223" c then 2
  else if in_range "224" "239" c then 3
  else if in_range "240" "244" c then 4
  else 0.

(** Range of the second byte, which excludes overlong forms, surrogates
    and code points above U+10FFFF. *)
Definition second_ok (c1 c2 : ascii) : bool :=
  if Ascii.eqb c1 "224" then in_range "160" "191" c2
  else if Ascii.eqb c1 "237" then in_range "128" "159" c2
  else if Ascii.eqb c1 "240" then in_range "144" "191" c2
  else if Ascii.eqb c1 "244" then in_range "128" "143" c2
  else is_cont c2.

(** Width of the well-formed sequence that starts with [c1] followed by
    [r]; 0 when there is none ([utf8.DecodeRune] then yields RuneError
    with size 1). *)
Definition seq_len (c1 : ascii) (r : string) : nat :=
  match lead_width c1, r with
  | 2%nat, String c2 _ => if second_ok c1 c2 then 2 else 0
  | 3%nat, String c2 (String c3 _) =>
      if second_ok c1 c2 && is_cont c3 then 3 else 0
  | 4%nat, String c2 (String c3 (String c4 _)) =>
      if second_ok c1 c2 && is_cont c3 && is_cont c4 then 4 else 0
  | _, _ => 0
  end%nat.

(** A well-formed multi-byte sequence, and nothing more. *)
Definition is_seq (q : string) : bool :=
  match q with
  | String c1 r => negb (is_ascii c1) && (seq_len c1 r =? String.length q)%nat
  | EmptyString => false
  end.

(** One pass over the runes of [s]: [fa] rewrites an ASCII byte, [fv] a
    well-formed multi-byte sequence, and [bad] stands for each byte that
    starts no well-formed sequence. *)
Fixpoint map_runes (fa : ascii -> string) (fv : string -> string)
    (bad : string) (s : string) : string :=
  match s with
  | EmptyString => EmptyString
  | String c1 r1 =>
      if is_ascii c1 then fa c1 +:+ map_runes fa fv bad r1
      else
        match seq_len c1 r1, r1 with
        | 2%nat, String c2 r2 =>
            fv (String c1 (String c2 EmptyString)) +:+ map_runes fa fv bad r2
        | 3%nat, String c2 (String c3 r3) =>
            fv (String c1 (String c2 (String c3 EmptyString)))
            +:+ map_runes fa fv bad r3
        | 4%nat, String c2 (String c3 (String c4 r4)) =>
            fv (String c1 (String c2 (String c3 (String c4 EmptyString))))
            +:+ map_runes fa fv bad r4
        | _, _ => bad +:+ map_runes fa fv bad r1
        end
  end.

(** [utf8.AppendRune] for a code point that is not a surrogate; [r / 64]
    is [r >> 6] and [r mod 64] is [r & 0x3F]. *)
Definition utf8_encode (r : N) : string :=
  (let b0 := 128 + r mod 64 in
   let b1 := 128 + (r / 64) mod 64 in
   let b2 := 128 + (r / 64 / 64) mod 64 in
   if r <? 128 then String (chr r) EmptyString
   else if r <? 2048 then
     String (chr (192 + r / 64)) (String (chr b0) EmptyString)
   else if r <? 65536 then
     String (chr (224 + r / 64 / 64)) (String (chr b1) (String (chr b0) EmptyString))
   else
     String (chr (240 + r / 64 / 64 / 64))
       (String (chr b2) (String (chr b1) (String (chr b0) EmptyString))))%N.

(** U+FFFD, the replacement character. *)
Definition replacement : string := utf8_encode 65533.

(** Bytes outside escapes are coerced to well-formed UTF-8. *)
Definition coerce_utf8 (s : string) : string :=
  map_runes (fun c => String c EmptyString) (fun q => q) replacement s.

Definition is_surrogate (u : N) : bool := (55296 <=? u)%N && (u <? 57344)%N.

(** [utf16.DecodeRune]: a high surrogate followed by a low one. *)
Definition surrogate_pair (hi lo : N) : option N :=
  (if (55296 <=? hi) && (hi <? 56320) && (56320 <=? lo) && (lo <? 57344)
   then Some ((hi - 55296) * 1024 + (lo - 56320) + 65536)
   else None)%N.

Definition simple_escape (e : ascii) : ascii :=
  if Ascii.eqb e "b" then "008"
  else if Ascii.eqb e "f" then "012"
  else if Ascii.eqb e "n" then "010"
  else if Ascii.eqb e "r" then "013"
  else if Ascii.eqb e "t" then "009"
  else e.

(** Escape sequences of a scanned literal are replaced by the bytes they
    denote; an unpaired surrogate becomes U+FFFD. Text that is not a
    scanned literal is cut at its first malformed escape. *)
Fixpoint unescape (s : string) : string :=
  match s with
  | EmptyString => EmptyString
  | String c r =>
      if negb (Ascii.eqb c backslash) then String c (unescape r)
      else
        match r with
        | EmptyString => EmptyString
        | String e r1 =>
            if Ascii.eqb e "u" then
              match r1 with
              | String h1 (String h2 (String h3 (String h4 r2))) =>
                  if is_hex h1 && is_hex h2 && is_hex h3 && is_hex h4 then
                    let u := hex4 h1 h2 h3 h4 in
                    if negb (is_surrogate u) then utf8_encode u +:+ unescape r2
                    else
                      match r2 with
                      | String b (String v (String g1 (String g2
                          (String g3 (String g4 r3))))) =>
                          if Ascii.eqb b backslash && Ascii.eqb v "u"
                             && is_hex g1 && is_hex g2 && is_hex g3 && is_hex g4
                          then
                            match surrogate_pair u (hex4 g1 g2 g3 g4) with
                            | Some p => utf8_encode p +:+ unescape r3
                            | None => replacement +:+ unescape r2
                            end
                          else replacement +:+ unescape r2
                      | _ => replacement +:+ unescape r2
                      end
                  else EmptyString
              | _ => EmptyString
              end
            else if is_simple_escape e then String (simple_escape e) (unescape r1)
            else EmptyString
        end
  end.

(** The Go string denoted by the raw text of a literal ([unquote]). *)
Definition unquote (raw : string) : string := unescape (coerce_utf8 raw).

(** *** Syntax trees

    A parsed JSON text. Object members are kept in source order, with
    duplicates, and each carries the source text of its value: that text
    is what a field of type [json.RawMessage] receives. A number keeps its
    literal. *)

Inductive tree : Type :=
| TNull
| TBool (b : bool)
| TNum (lit : string)
| TStr (s : string)
| TArr (items : list tree)
| TObj (members : list (string * string * tree)).

Definition parser (A : Type) : Type := string -> option (A * string).

(** The elements of an array after the first one has been found to exist:
    [value (, value)* ]]. The fuel [k] bounds the number of elements. *)
Fixpoint parse_items (pv : parser tree) (k : nat) (s : string)
    : option (list tree * string) :=
  match k with
  | O => None
  | S k' =>
      '(v, r) ← pv s;
      match skip_space r with
      | String c r1 =>
          if Ascii.eqb c "," then
            '(l, r2) ← parse_items pv k' r1; Some (v :: l, r2)
          else if Ascii.eqb c "]" then Some ([v], r1)
          else None
      | EmptyString => None
      end
  end.

(** The members of a non-empty object: [string : value (, string : value)* }]. *)
Fixpoint parse_members (pv : parser tree) (k : nat) (s : string)
    : option (list (string * string * tree) * string) :=
  match k with
  | O => None
  | S k' =>
      match skip_space s with
      | String q r =>
          if Ascii.eqb q dquote then
            '(key, r1) ← string_token r;
            match skip_space r1 with
            | String c r2 =>
                if Ascii.eqb c ":" then
                  let s0 := skip_space r2 in
                  '(v, r3) ← pv s0;
                  let raw := take_text (String.length s0 - String.length r3) s0 in
                  match skip_space r3 with
                  | String d r4 =>
                      if Ascii.eqb d "," then
                        '(ms, r5) ← parse_members pv k' r4;
                        Some ((unquote key, raw, v) :: ms, r5)
                      else if Ascii.eqb d "}" then
                        Some ([(unquote key, raw, v)], r4)
                      else None
                  | EmptyString => None
                  end
                else None
            | EmptyString => None
            end
          else None
      | EmptyString => None
      end
  end.

Definition starts_with (c : ascii) (s : string) : option string :=
  match s with
  | String d r => if Ascii.eqb c d then Some r else None
  | EmptyString => None
  end.

(** One value, after optional whitespace. The fuel bounds the nesting
    depth and the number of elements of each array and object. *)
Fixpoint parse_value (n : nat) (s : string) : option (tree * string) :=
  match n with
  | O => None
  | S n' =>
      match skip_space s with
      | EmptyString => None
      | String c r =>
          if Ascii.eqb c "{" then
            match starts_with "}" (skip_space r) with
            | Some r1 => Some (TObj [], r1)
            | None => '(ms, r1) ← parse_members (parse_value n') n' r; Some (TObj ms, r1)
            end
          else if Ascii.eqb c "[" then
            match starts_with "]" (skip_space r) with
            | Some r1 => Some (TArr [], r1)
            | None => '(l, r1) ← parse_items (parse_value n') n' r; Some (TArr l, r1)
            end
          else if Ascii.eqb c dquote then
            '(raw, r1) ← string_token r; Some (TStr (unquote raw), r1)
          else if Ascii.eqb c "t" then r1 ← strip_prefix "rue" r; Some (TBool true, r1)
          else if Ascii.eqb c "f" then r1 ← strip_prefix "alse" r; Some (TBool false, r1)
          else if Ascii.eqb c "n" then r1 ← strip_prefix "ull" r; Some (TNull, r1)
          else if Ascii.eqb c "-" || is_digit c then
            let '(tok, r1) := span is_num_char (String c r) in
            if is_number tok then Some (TNum tok, r1) else None
          else None
      end
  end.

(** A whole JSON text: one value, then nothing but whitespace
    ([checkValid] followed by decoding). *)
Definition parse (s : bytes) : option tree :=
  '(t, r) ← parse_value (S (String.length s)) s;
  match skip_space r with
  | EmptyString => Some t
  | String _ _ => None
  end.

Definition valid (s : bytes) : bool :=
  match parse s with Some _ => true | None => false end.

(** *** Decoding into [any]

    The dynamic types that [Unmarshal] stores in an interface value are
    nil, bool, float64, string, [[]any] and [map[string]any]; [AInt] is
    the Go [int] that the plugin stores itself. No function of the plugin
    computes with a float64, which is represented here by its literal. *)

Inductive any : Type :=
| ANil
| ABool (b : bool)
| AFloat64 (lit : string)
| AInt (n : Z)
| AString (s : string)
| ASlice (l : list any)
| AMap (m : gmap string any).

(** A map keeps the last of several members with the same key. *)
Fixpoint to_any (t : tree) : any :=
  match t with
  | TNull => ANil
  | TBool b => ABool b
  | TNum lit => AFloat64 lit
  | TStr s => AString s
  | TArr l => ASlice (to_any <$> l)
  | TObj ms => AMap (list_to_map (reverse ((fun m => (m.1.1, to_any m.2)) <$> ms)))
  end.

(** [json.Unmarshal(data, &payload)] for [var payload map[string]any]:
    [None] is a non-nil error. A top-level null leaves the map nil, which
    reads like the empty map. *)
Definition unmarshal_map (data : bytes) : option (gmap string any) :=
  match parse data with
  | Some TNull => Some ∅
  | Some (TObj ms) =>
      match to_any (TObj ms) with AMap m => Some m | _ => None end
  | _ => None
  end.

(** Type assertions [v.(map[string]any)], [v.([]any)] and [v.(string)] on
    the result of a map lookup; a missing key gives the nil interface, on
    which every assertion fails. *)
Definition as_map (v : option any) : option (gmap string any) :=
  match v with Some (AMap m) => Some m | _ => None end.

Definition as_slice (v : option any) : option (list any) :=
  match v with Some (ASlice l) => Some l | _ => None end.

Definition as_string (v : option any) : option string :=
  match v with Some (AString s) => Some s | _ => None end.

(** *** Encoding *)

Definition hex_digit (n : N) : ascii :=
  (if n <? 10 then chr (48 + n) else chr (87 + n))%N.

Definition u00 (c : ascii) : string :=
  String backslash (String "u" (String "0" (String "0"
    (String (hex_digit (code c / 16)) (String (hex_digit (code c mod 16)) EmptyString))))).

(** Strings are written with HTML escaping, as [json.Marshal] does. *)
Definition escape_ascii (c : ascii) : string :=
  if Ascii.eqb c dquote || Ascii.eqb c backslash then String backslash (String c EmptyString)
  else if Ascii.eqb c "008" then String backslash "b"
  else if Ascii.eqb c "012" then String backslash "f"
  else if Ascii.eqb c "010" then String backslash "n"
  else if Ascii.eqb c "013" then String backslash "r"
  else if Ascii.eqb c "009" then String backslash "t"
  else if (code c <? 32)%N || Ascii.eqb c "<" || Ascii.eqb c ">" || Ascii.eqb c "&"
  then u00 c
  else String c EmptyString.

Definition line_sep : string := utf8_encode 8232.
Definition para_sep : string := utf8_encode 8233.

Definition escape_rune (q : string) : string :=
  if String.eqb q line_sep then String backslash "u2028"
  else if String.eqb q para_sep then String backslash "u2029"
  else q.

(** The contents of a string literal: what stands between the quotes. *)
Definition escaped (s : string) : string :=
  map_runes escape_ascii escape_rune (String backslash "ufffd") s.

Definition quote (s : string) : string :=
  String dquote (escaped s +:+ String dquote EmptyString).

(** [strconv.Itoa] *)
Definition itoa (n : Z) : string := NilZero.string_of_int (Z.to_int n).

Definition key_le (a b : string * string) : Prop := String.leb a.1 b.1 = true.

#[global] Instance key_le_dec a b : Decision (key_le a b).
Proof. unfold key_le. apply _. Defined.

Definition member_text (kv : string * string) : string :=
  quote kv.1 +:+ ":" +:+ kv.2.

(** Map keys are written in sorted order. *)
Fixpoint marshal_any (v : any) : string :=
  match v with
  | ANil => "null"
  | ABool b => if b then "true" else "false"
  | AFloat64 lit => lit
  | AInt n => itoa n
  | AString s => quote s
  | ASlice l => "[" +:+ join "," (marshal_any <$> l) +:+ "]"
  | AMap m =>
      "{" +:+ join "," (member_text <$> merge_sort key_le (map_to_list (marshal_any <$> m)))
      +:+ "}"
  end.

(** [json.Marshal(v)] for a value of the dynamic types above; [None] is a
    non-nil error, which these types never cause. *)
Definition Marshal (v : any) : option bytes := Some (marshal_any v).

(** *** json.RawMessage

    Marshalling a RawMessage checks that it is a JSON text and writes it
    compacted: without insignificant whitespace and with HTML escaping
    inside its strings. *)
Fixpoint squeeze (in_str esc : bool) (s : string) : string :=
  match s with
  | EmptyString => EmptyString
  | String c r =>
      if in_str then
        if esc then String c (squeeze true false r)
        else if Ascii.eqb c backslash then String c (squeeze true true r)
        else if Ascii.eqb c dquote then String c (squeeze false false r)
        else if Ascii.eqb c "<" || Ascii.eqb c ">" || Ascii.eqb c "&" then
          u00 c +:+ squeeze true false r
        else
          match r with
          | String c2 (String c3 r') =>
              if Ascii.eqb c "226" && Ascii.eqb c2 "128"
                 && (Ascii.eqb c3 "168" || Ascii.eqb c3 "169")
              then String backslash (String "u" (String "2" (String "0" (String "2"
                     (String (hex_digit (code c3 mod 16)) (squeeze true false r'))))))
              else String c (squeeze true false r)
          | _ => String c (squeeze true false r)
          end
      else if is_space c then squeeze false false r
      else if Ascii.eqb c dquote then String c (squeeze true false r)
      else String c (squeeze false false r)
  end.

Definition compact (raw : bytes) : option bytes :=
  if valid raw then Some (squeeze false false raw) else None.

(** A nil RawMessage is written as null. *)
Definition marshal_raw (raw : bytes) : option bytes :=
  match raw with
  | EmptyString => Some "null"
  | _ => compact raw
  end.

(** *** Struct fields

    A member's key selects the field with that name in its json tag, or
    else the field whose name is equal under case folding. Folding maps
    a-z to A-Z and the runes U+017F and U+212A to S and K; every other
    rune folds to a rune outside ASCII, so leaving it in place does not
    change which keys select a field with an ASCII name. *)

Definition upper (c : ascii) : ascii :=
  if in_range "a" "z" c then chr (code c - 32) else c.

Definition fold_rune (q : string) : string :=
  if String.eqb q (utf8_encode 383) then "S"
  else if String.eqb q (utf8_encode 8490) then "K"
  else q.

Definition fold_name (s : string) : string :=
  map_runes (fun c => String (upper c) EmptyString) fold_rune replacement s.

Definition field_of (fields : list string) (key : string) : option string :=
  if decide (key ∈ fields) then Some key
  else head (filter (fun f => fold_name f = fold_name key) fields).

Fixpoint all_chars (p : ascii -> bool) (s : string) : bool :=
  match s with
  | EmptyString => true
  | String c r => p c && all_chars p r
  end.

(** [strconv.ParseInt(lit, 10, 64)] on a number literal: the literal has
    to be an integer in the range of int64. *)
Definition parse_int64 (lit : string) : option Z :=
  d ← NilZero.int_of_string lit;
  let v := Z.of_int d in
  if (- 2 ^ 63 <=? v) && (v <? 2 ^ 63) then Some v else None.

(** Storing a value into a field of type int, string or bool: null leaves
    the field as it is, a value of another kind is an UnmarshalTypeError
    ([None]). *)
Definition int_field (x : tree) (old : Z) : option Z :=
  match x with
  | TNull => Some old
  | TNum lit => parse_int64 lit
  | _ => None
  end.

Definition string_field (x : tree) (old : string) : option string :=
  match x with
  | TNull => Some old
  | TStr s => Some s
  | _ => None
  end.

Definition bool_field (x : tree) (old : bool) : option bool :=
  match x with
  | TNull => Some old
  | TBool b => Some b
  | _ => None
  end.

(** Decoding a parsed text into a struct [v]: [store key raw x v] stores
    member [key] into its field, or is [None] on a type error, which is
    recorded while decoding goes on with the next member. The result is
    the struct and whether [Unmarshal] returns a nil error. *)
Definition decode_struct {T : Type}
    (store : string -> bytes -> tree -> T -> option T) (t : tree) (v : T)
    : T * bool :=
  match t with
  | TNull => (v, true)
  | TObj ms =>
      foldl (fun acc m =>
               match store m.1.1 m.1.2 m.2 acc.1 with
               | Some v' => (v', acc.2)
               | None => (acc.1, false)
               end) (v, true) ms
  | _ => (v, false)
  end.

(** [json.Unmarshal(data, &v)] for a struct: a text that is not valid
    JSON is rejected before anything is stored. *)
Definition unmarshal_struct {T : Type}
    (store : string -> bytes -> tree -> T -> option T) (data : bytes) (v : T)
    : T * bool :=
  match parse data with
  | Some t => decode_struct store t v
  | None => (v, false)
  end.

End Json.

Import Json.

(** ** The plugin: configuration *)

Definition pathAnswerInfo : string := "/answer/api/v1/answer/info".
Definition pathAnswerList : string := "/answer/api/v1/answer/page".

Definition StatusOK : Z := 200.
Definition StatusForbidden : Z := 403.

Record Config : Type := { Enabled : bool }.

(** [type AnswerPrivate struct { Config *Config }]; [None] is the nil
    pointer. *)
Record AnswerPrivate : Type := { AnswerPrivate_Config : option Config }.

(** The value registered by [init]. *)
Definition registered : AnswerPrivate :=
  {| AnswerPrivate_Config := Some {| Enabled := true |} |}.

(** The json tags of [Config]. *)
Definition store_Config (key : string) (raw : bytes) (x : tree) (c : Config)
    : option Config :=
  match field_of ["enabled"] key with
  | Some _ => b ← bool_field x (Enabled c); Some {| Enabled := b |}
  | None => Some c
  end.

(** [json.Unmarshal(config, c)] for [c *Config]; the boolean tells whether
    the error is nil. A nil [c] is an InvalidUnmarshalError. *)
Definition unmarshal_Config (config : bytes) (c : option Config)
    : option Config * bool :=
  match c with
  | Some v => let r := unmarshal_struct store_Config config v in (Some r.1, r.2)
  | None => (None, false)
  end.

(** [ConfigReceiver] returns the receiver with its new [Config] and the
    error, which is always nil ([None]). *)
Definition ConfigReceiver (a : AnswerPrivate) (config : bytes)
    : AnswerPrivate * option string :=
  let c := Some {| Enabled := true |} in
  let c := (unmarshal_Config config c).1 in
  let c := match c with None => Some {| Enabled := true |} | Some _ => c end in
  ({| AnswerPrivate_Config := c |}, None).

(** ** The response envelope *)

Record responseEnvelope : Type := {
  Code : Z;
  Reason : string;
  Message : string;
  Data : bytes
}.

(** The zero value of [var envelope responseEnvelope]; a nil RawMessage is
    the empty byte sequence. *)
Definition zero_envelope : responseEnvelope :=
  {| Code := 0; Reason := ""; Message := ""; Data := "" |}.

(** The json tags of [responseEnvelope]. *)
Definition store_responseEnvelope (key : string) (raw : bytes) (x : tree)
    (e : responseEnvelope) : option responseEnvelope :=
  match field_of ["code"; "reason"; "msg"; "data"] key with
  | Some f =>
      if String.eqb f "code" then
        n ← int_field x (Code e);
        Some {| Code := n; Reason := Reason e; Message := Message e; Data := Data e |}
      else if String.eqb f "reason" then
        r ← string_field x (Reason e);
        Some {| Code := Code e; Reason := r; Message := Message e; Data := Data e |}
      else if String.eqb f "msg" then
        m ← string_field x (Message e);
        Some {| Code := Code e; Reason := Reason e; Message := m; Data := Data e |}
      else
        Some {| Code := Code e; Reason := Reason e; Message := Message e; Data := raw |}
  | None => Some e
  end.

(** [json.Unmarshal(body, &envelope)]; [None] is a non-nil error. *)
Definition unmarshal_responseEnvelope (body : bytes) : option responseEnvelope :=
  let r := unmarshal_struct store_responseEnvelope body zero_envelope in
  if r.2 then Some r.1 else None.

(** [json.Marshal(envelope)]: the fields in declaration order; [None] is a
    non-nil error, raised when [Data] is not a JSON text. *)
Definition marshal_responseEnvelope (e : responseEnvelope) : option bytes :=
  d ← marshal_raw (Data e);
  Some ("{" +:+ quote "code" +:+ ":" +:+ itoa (Code e)
        +:+ "," +:+ quote "reason" +:+ ":" +:+ quote (Reason e)
        +:+ "," +:+ quote "msg" +:+ ":" +:+ quote (Message e)
        +:+ "," +:+ quote "data" +:+ ":" +:+ d +:+ "}").

(** ** Ownership extractors *)

Definition extractUserIDFromInfo (info : gmap string any) : string :=
  match as_map (info !! "user_info") with
  | None => ""
  | Some userInfo => default "" (as_string (userInfo !! "id"))
  end.

Definition extractAnswerOwnerID (payload : gmap string any) : string :=
  match as_map (payload !! "info") with
  | Some info => extractUserIDFromInfo info
  | None => extractUserIDFromInfo payload
  end.

Definition extractQuestionOwnerID (payload : gmap string any) : string :=
  match as_map (payload !! "question") with
  | Some question => extractUserIDFromInfo question
  | None =>
      match as_map (payload !! "question_info") with
      | Some questionInfo => extractUserIDFromInfo questionInfo
      | None => ""
      end
  end.

(** ** The filters

    A filter returns [([]byte, int, bool)]: the new body, the new status
    (0: none) and whether the response was changed. *)

Definition outcome : Type := bytes * Z * bool.

(** [return nil, 0, false] *)
Definition unchanged : outcome := ("", 0, false).

Definition forbidden : responseEnvelope :=
  {| Code := StatusForbidden;
     Reason := "answer_private_forbidden";
     Message := "answer is private";
     Data := "null" |}.

Definition filterAnswerInfo (envelope : responseEnvelope) (userID : string)
    : outcome :=
  match unmarshal_map (Data envelope) with
  | None => unchanged
  | Some payload =>
      let answerOwnerID := extractAnswerOwnerID payload in
      let questionOwnerID := extractQuestionOwnerID payload in
      if String.eqb answerOwnerID "" && String.eqb questionOwnerID "" then unchanged
      else if String.eqb answerOwnerID userID || String.eqb questionOwnerID userID
      then unchanged
      else
        match marshal_responseEnvelope forbidden with
        | None => unchanged
        | Some payloadBytes => (payloadBytes, StatusForbidden, true)
        end
  end.

(** One iteration of the loop over [list]: the new value of [filtered]. *)
Definition list_step (userID : string) (filtered : list any) (item : any)
    : list any :=
  match as_map (Some item) with
  | None => filtered
  | Some entry =>
      let answerOwnerID := extractAnswerOwnerID entry in
      let questionOwnerID := extractQuestionOwnerID entry in
      if String.eqb answerOwnerID "" && String.eqb questionOwnerID "" then filtered
      else if String.eqb answerOwnerID userID || String.eqb questionOwnerID userID
      then filtered ++ [AMap entry]
      else filtered
  end.

Definition filterAnswerList (envelope : responseEnvelope) (userID : string)
    : outcome :=
  match unmarshal_map (Data envelope) with
  | None => unchanged
  | Some payload =>
      match as_slice (payload !! "list") with
      | None => unchanged
      | Some list =>
          let filtered := foldl (list_step userID) [] list in
          let payload := <["list" := ASlice filtered]> payload in
          let payload := <["count" := AInt (Z.of_nat (length filtered))]> payload in
          match Marshal (AMap payload) with
          | None => unchanged
          | Some payloadBytes =>
              let envelope :=
                {| Code := Code envelope; Reason := Reason envelope;
                   Message := Message envelope; Data := payloadBytes |} in
              match marshal_responseEnvelope envelope with
              | None => unchanged
              | Some body => (body, 0, true)
              end
          end
      end
  end.

Definition filterAnswerResponse (path userID : string) (body : bytes) : outcome :=
  if (String.length body =? 0)%nat then unchanged
  else
    match unmarshal_responseEnvelope body with
    | None => unchanged
    | Some envelope =>
        if (String.length (Data envelope) =? 0)%nat || String.eqb (Data envelope) "null"
        then unchanged
        else if String.eqb path pathAnswerInfo then filterAnswerInfo envelope userID
        else if String.eqb path pathAnswerList then filterAnswerList envelope userID
        else unchanged
    end.

(** ** The response recorder

    A handler acts on a [gin.ResponseWriter] through the three methods
    that [responseRecorder] overrides. The real writer is modelled by the
    sequence of calls it has received. *)

Inductive call : Type :=
| WriteHeader (statusCode : Z)
| WriteHeaderNow
| Write (data : bytes).

Record responseRecorder : Type := {
  ResponseWriter : list call;
  status : Z;
  body : bytes
}.

Definition newResponseRecorder (writer : list call) : responseRecorder :=
  {| ResponseWriter := writer; status := 0; body := "" |}.

Definition recorder_WriteHeader (r : responseRecorder) (statusCode : Z)
    : responseRecorder :=
  {| ResponseWriter := ResponseWriter r; status := statusCode; body := body r |}.

Definition recorder_WriteHeaderNow (r : responseRecorder) : responseRecorder :=
  if status r =? 0
  then {| ResponseWriter := ResponseWriter r; status := StatusOK; body := body r |}
  else r.

Definition recorder_Write (r : responseRecorder) (data : bytes) : responseRecorder :=
  {| ResponseWriter := ResponseWriter r; status := status r; body := body r +:+ data |}.

Definition statusCode (r : responseRecorder) : Z :=
  if negb (status r =? 0) then status r else StatusOK.

(** The method of the recorder that a call on [ctx.Writer] reaches while
    the recorder is installed. *)
Definition recorder_call (r : responseRecorder) (c : call) : responseRecorder :=
  match c with
  | WriteHeader statusCode => recorder_WriteHeader r statusCode
  | WriteHeaderNow => recorder_WriteHeaderNow r
  | Write data => recorder_Write r data
  end.

(** ** The request context *)

(** Values that the surrounding middleware may have stored in the context:
    the nil interface, a struct, a pointer (nil or not), or a value of
    another kind. *)
Inductive goValue : Type :=
| GoNil
| GoString (s : string)
| GoInt (n : Z)
| GoStruct (fields : list (string * goValue))
| GoPtr (target : option goValue).

(** [Writer] is the real writer: the calls it has received so far. *)
Record Context : Type := {
  Path : string;
  Keys : gmap string goValue;
  Writer : list call
}.

Definition set_Writer (ctx : Context) (w : list call) : Context :=
  {| Path := Path ctx; Keys := Keys ctx; Writer := w |}.

(** [ctx.Next()] while [ctx.Writer] is the real writer: the rest of the
    chain makes the calls [next] on it. *)
Definition Next (next : list call) (ctx : Context) : Context :=
  set_Writer ctx (Writer ctx ++ next).

(** [ctx.Next()] while [ctx.Writer] is the recorder [r]. *)
Definition Next_recorded (next : list call) (r : responseRecorder)
    : responseRecorder :=
  foldl recorder_call r next.

Definition writeResponse (ctx : Context) (status : Z) (body : bytes) : Context :=
  set_Writer ctx (Writer ctx ++ [WriteHeader status; Write body]).

(** A [reflect.Value]: [None] is the zero Value, for which [IsValid] is
    false. *)
Definition reflectValue (value : goValue) : option goValue :=
  match value with
  | GoNil => None
  | GoPtr target => target
  | v => Some v
  end.

(** [v.FieldByName(name)]; the outer [None] is the panic raised when [v]
    is not a struct. *)
Definition FieldByName (v : goValue) (name : string) : option (option goValue) :=
  match v with
  | GoStruct fields => Some (snd <$> head (filter (fun f => f.1 = name) fields))
  | _ => None
  end.

(** [None] is a panic. *)
Definition userIDFromContext (ctx : Context) : option string :=
  match Keys ctx !! "ctxUuidKey" with
  | None => Some ""
  | Some GoNil => Some ""
  | Some userInfo =>
      match reflectValue userInfo with
      | None => Some ""
      | Some userInfoValue =>
          field ← FieldByName userInfoValue "UserID";
          match field with
          | Some (GoString s) => Some s
          | _ => Some ""
          end
      end
  end.

(** ** The middleware

    [answerVisibilityMiddleware a next ctx] is the context after the
    handler returned by [a.answerVisibilityMiddleware()] has run on [ctx]
    with [next] as the rest of the chain; [None] is a panic. *)
Definition answerVisibilityMiddleware (a : AnswerPrivate) (next : list call)
    (ctx : Context) : option Context :=
  if match AnswerPrivate_Config a with None => true | Some c => negb (Enabled c) end
  then Some (Next next ctx)
  else
    let path := Path ctx in
    if negb (String.eqb path pathAnswerInfo) && negb (String.eqb path pathAnswerList)
    then Some (Next next ctx)
    else
      userID ← userIDFromContext ctx;
      if String.eqb userID "" then Some (Next next ctx)
      else
        let recorder := newResponseRecorder (Writer ctx) in
        let recorder := Next_recorded next recorder in
        let status := statusCode recorder in
        let body := body recorder in
        let '(filtered, newStatus, changed) := filterAnswerResponse path userID body in
        let ctx := set_Writer ctx (ResponseWriter recorder) in
        if negb changed then Some (writeResponse ctx status body)
        else
          let status := if negb (newStatus =? 0) then newStatus else status in
          Some (writeResponse ctx status filtered).

(** * Specification vocabulary

    The notions in which the properties of the plugin are stated. *)

(** ** Responses *)

Definition forbidden_body : bytes :=
  js "{'code':403,'reason':'answer_private_forbidden','msg':'answer is private','data':null}".

(** The recorder after the rest of the chain has run against it. *)
Definition captured (next : list call) (ctx : Context) : responseRecorder :=
  Next_recorded next (newResponseRecorder (Writer ctx)).

(** The middleware engages for caller [userID]: the feature is enabled, the
    path is one of the two endpoints and the context carries the non-empty
    identity [userID]. *)
Definition engaged (a : AnswerPrivate) (ctx : Context) (userID : string) : Prop :=
  AnswerPrivate_Config a = Some {| Enabled := true |}
  /\ (Path ctx = pathAnswerInfo \/ Path ctx = pathAnswerList)
  /\ userIDFromContext ctx = Some userID
  /\ userID <> "".

(** The body is not filterable: it is not an envelope, or its data is
    empty or null, or (answer detail) its data is not an object. *)
Definition not_filterable (path : string) (b : bytes) : Prop :=
  unmarshal_responseEnvelope b = None
  \/ exists e, unmarshal_responseEnvelope b = Some e
       /\ (Data e = "" \/ Data e = "null"
           \/ (path = pathAnswerInfo /\ unmarshal_map (Data e) = None)).

(** ** What the rest of the chain wrote *)

(** The bytes of the [Write] calls, in order. *)
Definition written (next : list call) : bytes :=
  foldr (fun c acc => match c with Write data => data +:+ acc | _ => acc end) "" next.

(** The argument of the last [WriteHeader] call. *)
Definition last_header (next : list call) : option Z :=
  foldl (fun acc c => match c with WriteHeader s => Some s | _ => acc end) None next.

(** The status that goes with these calls: that of the last [WriteHeader]
    call, or 200 when there is none or it is 0. *)
Definition replied (next : list call) : Z :=
  match last_header next with
  | Some s => if s =? 0 then StatusOK else s
  | None => StatusOK
  end.

(** The field [status] of a recorder agrees with the last [WriteHeader]
    call [acc] that it received. *)
Definition tracks (acc : option Z) (st : Z) : Prop :=
  match acc with
  | None => st = 0 \/ st = StatusOK
  | Some s => st = s \/ (s = 0 /\ st = StatusOK)
  end.

(** ** Owners and entries *)

(** [owner_inside X id]: [id] is the owner found inside [X] by the
    [user_info.id] rule: the string under [id] in the object under
    [user_info], and the empty string when there is no such string. *)
Inductive owner_inside (X : gmap string any) : string -> Prop :=
| owner_found (u : gmap string any) (id : string) :
    X !! "user_info" = Some (AMap u) -> u !! "id" = Some (AString id) ->
    owner_inside X id
| owner_no_user_info :
    (forall u, X !! "user_info" <> Some (AMap u)) -> owner_inside X ""
| owner_no_id (u : gmap string any) :
    X !! "user_info" = Some (AMap u) ->
    (forall id, u !! "id" <> Some (AString id)) -> owner_inside X "".

(** An entry of the list is shown to the caller: it is an object, some
    owner is extracted from it, and the caller equals its answer owner or
    its question owner. *)
Definition shown (userID : string) (item : any) : Prop :=
  exists entry, item = AMap entry
    /\ ~ (extractAnswerOwnerID entry = "" /\ extractQuestionOwnerID entry = "")
    /\ (extractAnswerOwnerID entry = userID \/ extractQuestionOwnerID entry = userID).

#[global] Instance shown_dec userID item : Decision (shown userID item).
Proof.
  destruct item as [| | | | | |entry];
    try (right; intros (? & ? & _); discriminate).
  destruct (decide (~ (extractAnswerOwnerID entry = "" /\ extractQuestionOwnerID entry = "")
                    /\ (extractAnswerOwnerID entry = userID
                        \/ extractQuestionOwnerID entry = userID))) as [H | H].
  - left. exists entry. tauto.
  - right. intros (entry' & E & H'). injection E as ->. tauto.
Defined.

(** The payload that [filterAnswerList] encodes. *)
Definition narrowed (userID : string) (payload : gmap string any) (l : list any)
    : gmap string any :=
  let kept := filter (shown userID) l in
  <["count" := AInt (Z.of_nat (length kept))]> (<["list" := ASlice kept]> payload).

(** The payload of a page narrowed to the entries [kept]. *)
Definition with_list (payload : gmap string any) (kept : list any)
    : gmap string any :=
  <["count" := AInt (Z.of_nat (length kept))]> (<["list" := ASlice kept]> payload).

(** The body that [filterAnswerList] writes for that payload. *)
Definition page_body (e : responseEnvelope) (payload : gmap string any)
    (kept : list any) : option bytes :=
  marshal_responseEnvelope
    {| Code := Code e; Reason := Reason e; Message := Message e;
       Data := marshal_any (AMap (with_list payload kept)) |}.

(** The keys that the extractors look under in an entry. *)
Definition owner_keys : list string :=
  ["info"; "user_info"; "question"; "question_info"].

(** ** Configuration texts *)

(** The top-level value of a valid text has no member that selects the
    [Enabled] field. *)
Definition omits_enabled (config : bytes) : Prop :=
  exists t, parse config = Some t
    /\ forall ms, t = TObj ms ->
         Forall (fun m => field_of ["enabled"] m.1.1 = None) ms.

(** ** JSON texts *)

(** Well-formed UTF-8: ASCII bytes and well-formed sequences. *)
Inductive utf8 : string -> Prop :=
| utf8_nil : utf8 ""
| utf8_ascii c s : is_ascii c = true -> utf8 s -> utf8 (String c s)
| utf8_seq q s : is_seq q = true -> utf8 s -> utf8 (q +:+ s).

(** A piece that can stand in front of any well-formed text. *)
Definition utf8_prefix (p : string) : Prop := forall s, utf8 s -> utf8 (p +:+ s).

(** A value that [Marshal] and [Unmarshal] agree on: its float64 literals
    are number literals and its strings and keys are well-formed UTF-8.
    Every decoded value is one. *)
Inductive wf : any -> Prop :=
| wf_nil : wf ANil
| wf_bool b : wf (ABool b)
| wf_float lit : is_number lit = true -> wf (AFloat64 lit)
| wf_int n : wf (AInt n)
| wf_string s : utf8 s -> wf (AString s)
| wf_slice l : Forall wf l -> wf (ASlice l)
| wf_map m : map_Forall (fun k v => utf8 k /\ wf v) m -> wf (AMap m).

(** What decoding makes of an encoded value: a Go [int] comes back as the
    float64 with the same digits. *)
Fixpoint floatify (v : any) : any :=
  match v with
  | AInt n => AFloat64 (itoa n)
  | ASlice l => ASlice (floatify <$> l)
  | AMap m => AMap (floatify <$> m)
  | _ => v
  end.

(** A value as [Unmarshal] builds it: well formed and without Go ints. *)
Definition decoded (v : any) : Prop := wf v /\ floatify v = v.

(** A tree that denotes a decoded value, and so do its members when it is
    an object. *)
Definition tree_good (t : tree) : Prop :=
  decoded (to_any t)
  /\ match t with
     | TObj ms => Forall (fun m => decoded (to_any m.2)) ms
     | _ => True
     end.

(** The range of a Go [int] (64 bits). *)
Definition int64 (z : Z) : Prop := - 2 ^ 63 <= z < 2 ^ 63.

(** An envelope as [Unmarshal] builds it. *)
Definition envelope_ok (e : responseEnvelope) : Prop :=
  int64 (Code e) /\ utf8 (Reason e) /\ utf8 (Message e).

(** A member of an envelope text that selects the field [code] without
    being null or an integer in the range of [int], or selects [reason] or
    [msg] without being null or a string: [Unmarshal] reports an error for
    it. *)
Definition mistyped (mm : string * string * tree) : Prop :=
  match field_of ["code"; "reason"; "msg"; "data"] mm.1.1 with
  | Some f =>
      (f = "code" /\ int_field mm.2 0 = None)
      \/ ((f = "reason" \/ f = "msg") /\ string_field mm.2 "" = None)
  | None => False
  end.

(** The text after a number does not go on like a number. *)
Definition delimited (rest : string) : Prop :=
  match rest with
  | EmptyString => True
  | String c _ => is_num_char c = false
  end.

(** A piece of text that [string_token] scans through. *)
Definition passes (p : string) : Prop :=
  forall t, string_token (p +:+ t)
            = '(t', rest) ← string_token t; Some (p +:+ t', rest).

(** Each part of the number grammar eats number characters only. *)
Definition eats (f : string -> option string) : Prop :=
  forall s r, f s = Some r ->
    exists p, s = p +:+ r /\ all_chars is_num_char p = true.

(** A piece of text that [squeeze] copies as it is, outside ([in_str] is
    false) or inside a string. *)
Definition copied (in_str : bool) (p : string) : Prop :=
  forall t, squeeze in_str false (p +:+ t) = p +:+ squeeze in_str false t.

(** [x] is the text of the value [a] for the parser [pv]: it starts with a
    character that is neither whitespace nor a closing bracket, and [pv]
    reads it off the front of any delimited text as a tree that denotes
    [a]. *)
Definition value_text (pv : parser tree) (x : string) (a : any) : Prop :=
  (exists c r, x = String c r /\ is_space c = false
               /\ Ascii.eqb "]" c = false /\ Ascii.eqb "}" c = false)
  /\ forall rest, delimited rest ->
       exists t, pv (x +:+ rest) = Some (t, rest) /\ to_any t = a.

(** A parser that reads back every well-formed value whose text is at
    most [n] characters long. *)
Definition reads (pv : parser tree) (n : nat) : Prop :=
  forall v rest, wf v -> (String.length (marshal_any v) <= n)%nat -> delimited rest ->
    exists t, pv (marshal_any v +:+ rest) = Some (t, rest) /\ to_any t = floatify v.

(** [pv'] reads what [pv] reads from texts of at most [n] characters, and
    what is read is not empty. *)
Definition stable (pv pv' : parser tree) (n : nat) : Prop :=
  forall s t r, (String.length s <= n)%nat -> pv s = Some (t, r) ->
    pv' s = Some (t, r) /\ (String.length r < String.length s)%nat.

(** ** Scenarios

    Concrete requests and responses on which the properties are run. *)

(** The payload of an answer written by [id]. *)
Definition entry_of (id : string) : gmap string any :=
  {[ "info" := AMap {[ "user_info" := AMap {[ "id" := AString id ]} ]} ]}.

(** An answer detail response for an answer written by u1. *)
Definition detail_u1 : bytes :=
  js "{'code':200,'reason':'base.success','msg':'Success.','data':{'info':{'user_info':{'id':'u1'}}}}".

Definition detail_u1_envelope : responseEnvelope :=
  {| Code := 200; Reason := "base.success"; Message := "Success.";
     Data := js "{'info':{'user_info':{'id':'u1'}}}" |}.

(** An answer page with an answer of u1, an answer of u2, an entry
    without owner and an entry that is not an object. *)
Definition page_mixed : bytes :=
  js "{'code':200,'reason':'base.success','msg':'Success.','data':{'list':[{'info':{'user_info':{'id':'u1'}}},{'info':{'user_info':{'id':'u2'}}},{'title':'t'},7],'count':4,'page':1}}".




(** What u1 gets of that page. *)
Definition page_mixed_u1 : bytes :=
  js "{'code':200,'reason':'base.success','msg':'Success.','data':{'count':1,'list':[{'info':{'user_info':{'id':'u1'}}}],'page':1}}".

(** A request on [path] by the authenticated user [userID]. *)
Definition request (path userID : string) : Context :=
  {| Path := path;
     Keys := {[ "ctxUuidKey" := GoPtr (Some (GoStruct [("UserID", GoString userID)])) ]};
     Writer := [] |}.

(** A handler that answers 200 with body [b]. *)
Definition handler (b : bytes) : list call := [WriteHeader 200; Write b].

(** * Facts about the JSON model

    The encoding of a well-formed value is a JSON text, and every decoded
    value is well formed: [json.Marshal] of an envelope whose [Data] is an
    encoded value therefore succeeds. *)

(** ** Appending texts *)

Lemma sapp_cons (c : ascii) (s t : string) : String c s +:+ t = String c (s +:+ t).
Proof. reflexivity. Qed.

Lemma sapp_nil_l (s : string) : "" +:+ s = s.
Proof. reflexivity. Qed.

Lemma sapp_nil_r (s : string) : s +:+ "" = s.
Proof. induction s as [|c s IH]; [reflexivity|]. rewrite sapp_cons, IH. reflexivity. Qed.

Lemma sapp_assoc (s t u : string) : (s +:+ t) +:+ u = s +:+ t +:+ u.
Proof. induction s as [|c s IH]; [reflexivity|]. rewrite !sapp_cons, IH. reflexivity. Qed.

Lemma length_sapp (s t : string) :
  String.length (s +:+ t) = (String.length s + String.length t)%nat.
Proof.
  induction s as [|c s IH]; [reflexivity|]. rewrite sapp_cons. simpl. rewrite IH.
  reflexivity.
Qed.

(** Appending to a text whose first characters are known. *)
Ltac lit_app := rewrite ?sapp_cons, ?sapp_nil_l.

(** ** String literals *)

Lemma passes_nil : passes "".
Proof. intros t. rewrite sapp_nil_l. destruct (string_token t) as [[t' r]|]; reflexivity. Qed.

Lemma passes_app p q : passes p -> passes q -> passes (p +:+ q).
Proof.
  intros Hp Hq t. rewrite sapp_assoc, Hp, Hq.
  destruct (string_token t) as [[t' r]|]; [|reflexivity]. simpl.
  rewrite sapp_assoc. reflexivity.
Qed.

(** Scanning through a piece whose characters are known. *)
Ltac scan_piece t :=
  rewrite ?sapp_cons, ?sapp_nil_l; cbn;
  destruct (string_token t) as [[? ?]|]; reflexivity.

Lemma passes_escape_ascii (c : ascii) : passes (escape_ascii c).
Proof.
  destruct c as [[] [] [] [] [] [] [] []]; intros t;
    match goal with
    | |- context [escape_ascii ?c] =>
        let v := eval vm_compute in (escape_ascii c) in
        change (escape_ascii c) with v
    end; scan_piece t.
Qed.

Lemma passes_high (c : ascii) : is_ascii c = false -> passes (String c "").
Proof.
  destruct c as [[] [] [] [] [] [] [] []]; intros H; try discriminate H;
    intros t; scan_piece t.
Qed.

Lemma in_range_high (lo hi c : ascii) :
  (128 <= code lo)%N -> in_range lo hi c = true -> is_ascii c = false.
Proof.
  unfold in_range, is_ascii. intros Hlo H.
  apply andb_true_iff in H as [H _]. apply N.leb_le in H.
  apply N.ltb_ge. lia.
Qed.

Lemma is_cont_high (c : ascii) : is_cont c = true -> is_ascii c = false.
Proof. apply in_range_high. vm_compute. discriminate. Qed.

Lemma second_ok_high (c1 c2 : ascii) : second_ok c1 c2 = true -> is_ascii c2 = false.
Proof.
  unfold second_ok.
  repeat match goal with
         | |- context [if ?b then _ else _] => destruct b
         end;
    try apply is_cont_high; apply in_range_high; vm_compute; discriminate.
Qed.

Lemma seq_len_2 c1 c2 r :
  seq_len c1 (String c2 r) = 2%nat -> lead_width c1 = 2%nat /\ second_ok c1 c2 = true.
Proof.
  unfold seq_len.
  destruct (lead_width c1) as [|[|[|[|[|k]]]]]; try discriminate;
    destruct r as [|c3 [|c4 r]]; try discriminate;
    repeat match goal with
           | |- context [if ?b then _ else _] => destruct b eqn:?
           end; try discriminate; auto.
Qed.

Lemma seq_len_3 c1 c2 c3 r :
  seq_len c1 (String c2 (String c3 r)) = 3%nat ->
  lead_width c1 = 3%nat /\ second_ok c1 c2 = true /\ is_cont c3 = true.
Proof.
  unfold seq_len.
  destruct (lead_width c1) as [|[|[|[|[|k]]]]]; try discriminate;
    destruct r as [|c4 r]; try discriminate;
    repeat match goal with
           | |- context [if ?b then _ else _] => destruct b eqn:E
           end; try discriminate; intros _; apply andb_true_iff in E; tauto.
Qed.

Lemma seq_len_4 c1 c2 c3 c4 r :
  seq_len c1 (String c2 (String c3 (String c4 r))) = 4%nat ->
  lead_width c1 = 4%nat /\ second_ok c1 c2 = true /\ is_cont c3 = true
  /\ is_cont c4 = true.
Proof.
  unfold seq_len.
  destruct (lead_width c1) as [|[|[|[|[|k]]]]]; try discriminate;
    repeat match goal with
           | |- context [if ?b then _ else _] => destruct b eqn:E
           end; try discriminate; intros _.
  apply andb_true_iff in E as [E E4]. apply andb_true_iff in E as [E2 E3]. auto.
Qed.

Lemma seq_len_2_intro c1 c2 r :
  lead_width c1 = 2%nat -> second_ok c1 c2 = true -> seq_len c1 (String c2 r) = 2%nat.
Proof. unfold seq_len. intros -> ->. reflexivity. Qed.

Lemma seq_len_3_intro c1 c2 c3 r :
  lead_width c1 = 3%nat -> second_ok c1 c2 = true -> is_cont c3 = true ->
  seq_len c1 (String c2 (String c3 r)) = 3%nat.
Proof. unfold seq_len. intros -> -> ->. reflexivity. Qed.

Lemma seq_len_4_intro c1 c2 c3 c4 r :
  lead_width c1 = 4%nat -> second_ok c1 c2 = true -> is_cont c3 = true ->
  is_cont c4 = true ->
  seq_len c1 (String c2 (String c3 (String c4 r))) = 4%nat.
Proof. unfold seq_len. intros -> -> -> ->. reflexivity. Qed.

(** The shapes of a well-formed sequence. *)
Lemma is_seq_cases (q : string) :
  is_seq q = true ->
  exists c1 r, q = String c1 r /\ is_ascii c1 = false
    /\ ((exists c2, r = String c2 ""
           /\ lead_width c1 = 2%nat /\ second_ok c1 c2 = true)
        \/ (exists c2 c3, r = String c2 (String c3 "")
              /\ lead_width c1 = 3%nat /\ second_ok c1 c2 = true /\ is_cont c3 = true)
        \/ (exists c2 c3 c4, r = String c2 (String c3 (String c4 ""))
              /\ lead_width c1 = 4%nat /\ second_ok c1 c2 = true
              /\ is_cont c3 = true /\ is_cont c4 = true)).
Proof.
  destruct q as [|c1 r]; [discriminate|]. cbn [is_seq].
  intros H. apply andb_true_iff in H as [Ha Hl].
  apply negb_true_iff in Ha. apply Nat.eqb_eq in Hl.
  exists c1, r. split; [reflexivity|]. split; [exact Ha|].
  destruct r as [|c2 [|c3 [|c4 [|c5 r]]]]; simpl String.length in Hl.
  - unfold seq_len in Hl. destruct (lead_width c1) as [|[|[|[|[|k]]]]]; discriminate.
  - left. exists c2. split; [reflexivity|]. apply (seq_len_2 _ _ EmptyString), Hl.
  - right. left. exists c2, c3. split; [reflexivity|]. apply (seq_len_3 _ _ _ EmptyString), Hl.
  - right. right. exists c2, c3, c4. split; [reflexivity|].
    apply (seq_len_4 _ _ _ _ EmptyString), Hl.
  - exfalso. unfold seq_len in Hl.
    destruct (lead_width c1) as [|[|[|[|[|k]]]]];
      repeat match type of Hl with
             | context [if ?b then _ else _] => destruct b
             end; discriminate.
Qed.

Lemma is_seq_high (q : string) :
  is_seq q = true -> all_chars (fun c => negb (is_ascii c)) q = true.
Proof.
  intros H. destruct (is_seq_cases q H) as (c1 & r & -> & Ha & Hr).
  destruct Hr as [(c2 & -> & _ & H2) | [(c2 & c3 & -> & _ & H2 & H3)
                                      | (c2 & c3 & c4 & -> & _ & H2 & H3 & H4)]];
    apply second_ok_high in H2; cbn; rewrite Ha, H2; cbn;
    rewrite ?(is_cont_high _ H3), ?(is_cont_high _ H4); reflexivity.
Qed.

(** How [map_runes] goes through ASCII bytes and well-formed sequences. *)
Lemma map_runes_ascii fa fv bad (c : ascii) (s : string) :
  is_ascii c = true ->
  map_runes fa fv bad (String c s) = fa c +:+ map_runes fa fv bad s.
Proof. intros H. cbn [map_runes]. rewrite H. reflexivity. Qed.

Lemma map_runes_seq fa fv bad (q s : string) :
  is_seq q = true ->
  map_runes fa fv bad (q +:+ s) = fv q +:+ map_runes fa fv bad s.
Proof.
  intros H. destruct (is_seq_cases q H) as (c1 & r & -> & Ha & Hr).
  destruct Hr as [(c2 & -> & Hw & H2) | [(c2 & c3 & -> & Hw & H2 & H3)
                                      | (c2 & c3 & c4 & -> & Hw & H2 & H3 & H4)]];
    lit_app; cbn [map_runes]; rewrite Ha.
  - rewrite (seq_len_2_intro _ _ _ Hw H2). reflexivity.
  - rewrite (seq_len_3_intro _ _ _ _ Hw H2 H3). reflexivity.
  - rewrite (seq_len_4_intro _ _ _ _ _ Hw H2 H3 H4). reflexivity.
Qed.

(** A property of pieces that is kept by appending holds of the result of
    [map_runes]. *)
Lemma map_runes_pieces (Pc : string -> Prop) fa fv bad :
  Pc "" -> (forall p q, Pc p -> Pc q -> Pc (p +:+ q)) ->
  (forall c, is_ascii c = true -> Pc (fa c)) ->
  (forall q, is_seq q = true -> Pc (fv q)) ->
  Pc bad ->
  forall s, Pc (map_runes fa fv bad s).
Proof.
  intros Hnil Happ Hfa Hfv Hbad s.
  remember (String.length s) as n eqn:En. revert s En.
  induction n as [n IH] using lt_wf_ind. intros s ->.
  assert (IH' : forall r, (String.length r < String.length s)%nat ->
                          Pc (map_runes fa fv bad r)).
  { intros r Hr. apply (IH _ Hr r eq_refl). }
  clear IH.
  destruct s as [|c1 r1]; [exact Hnil|].
  cbn [map_runes]. destruct (is_ascii c1) eqn:E1.
  { apply Happ; [apply Hfa, E1 | apply IH'; simpl; lia]. }
  assert (Hb : Pc (bad +:+ map_runes fa fv bad r1)).
  { apply Happ; [exact Hbad | apply IH'; simpl; lia]. }
  destruct (seq_len c1 r1) as [|[|[|[|[|k]]]]] eqn:Es; try exact Hb;
    destruct r1 as [|c2 [|c3 [|c4 r4]]]; try exact Hb.
  all: try (apply seq_len_2 in Es as [Ew Es];
            apply Happ; [apply Hfv; cbn [is_seq]; rewrite E1,
                           (seq_len_2_intro _ _ _ Ew Es); reflexivity
                        | apply IH'; simpl; lia]).
  all: try (apply seq_len_3 in Es as (Ew & Es2 & Es3);
            apply Happ; [apply Hfv; cbn [is_seq]; rewrite E1,
                           (seq_len_3_intro _ _ _ _ Ew Es2 Es3); reflexivity
                        | apply IH'; simpl; lia]).
  apply seq_len_4 in Es as (Ew & Es2 & Es3 & Es4).
  apply Happ; [apply Hfv; cbn [is_seq]; rewrite E1,
                 (seq_len_4_intro _ _ _ _ _ Ew Es2 Es3 Es4); reflexivity
              | apply IH'; simpl; lia].
Qed.

Lemma map_runes_passes (fa : ascii -> string) (fv : string -> string) (bad : string) :
  (forall c, passes (fa c)) ->
  (forall q, all_chars (fun c => negb (is_ascii c)) q = true -> passes (fv q)) ->
  passes bad ->
  forall s, passes (map_runes fa fv bad s).
Proof.
  intros Hfa Hfv Hbad. apply map_runes_pieces.
  - apply passes_nil.
  - apply passes_app.
  - intros c _. apply Hfa.
  - intros q Hq. apply Hfv, is_seq_high, Hq.
  - exact Hbad.
Qed.

Lemma passes_plain (q : string) :
  all_chars (fun c => negb (is_ascii c)) q = true -> passes q.
Proof.
  induction q as [|c q IH]; intros H; [apply passes_nil|].
  cbn in H. apply andb_true_iff in H as [Hc Hq].
  change (String c q) with (String c "" +:+ q).
  apply passes_app; [apply passes_high, negb_true_iff, Hc | apply IH, Hq].
Qed.

Lemma passes_escape_rune (q : string) :
  all_chars (fun c => negb (is_ascii c)) q = true -> passes (escape_rune q).
Proof.
  intros H. unfold escape_rune.
  destruct (String.eqb q line_sep); [intros t; scan_piece t|].
  destruct (String.eqb q para_sep); [intros t; scan_piece t|].
  apply passes_plain, H.
Qed.

Lemma passes_escaped (s : string) : passes (escaped s).
Proof.
  apply map_runes_passes.
  - apply passes_escape_ascii.
  - apply passes_escape_rune.
  - intros t. scan_piece t.
Qed.

(** The text of a quoted string is scanned up to its closing quote. *)
Lemma string_token_quote (s rest : string) :
  quote s +:+ rest = String dquote (escaped s +:+ String dquote rest)
  /\ string_token (escaped s +:+ String dquote rest) = Some (escaped s, rest).
Proof.
  unfold quote. split.
  - rewrite sapp_cons, sapp_assoc. reflexivity.
  - rewrite (passes_escaped s). cbn. rewrite sapp_nil_r. reflexivity.
Qed.

(** ** Well-formed UTF-8 *)

Lemma utf8_prefix_nil : utf8_prefix "".
Proof. intros s Hs. exact Hs. Qed.

Lemma utf8_prefix_app (p q : string) :
  utf8_prefix p -> utf8_prefix q -> utf8_prefix (p +:+ q).
Proof. intros Hp Hq s Hs. rewrite sapp_assoc. apply Hp, Hq, Hs. Qed.

Lemma utf8_prefix_ascii (c : ascii) : is_ascii c = true -> utf8_prefix (String c "").
Proof. intros Hc s Hs. lit_app. apply utf8_ascii; assumption. Qed.

Lemma utf8_prefix_seq (q : string) : is_seq q = true -> utf8_prefix q.
Proof. intros Hq s Hs. apply utf8_seq; assumption. Qed.

Lemma utf8_prefix_all_ascii (p : string) :
  all_chars is_ascii p = true -> utf8_prefix p.
Proof.
  induction p as [|c p IH]; intros H; [apply utf8_prefix_nil|].
  cbn in H. apply andb_true_iff in H as [Hc Hp].
  change (String c p) with (String c "" +:+ p).
  apply utf8_prefix_app; [apply utf8_prefix_ascii, Hc | apply IH, Hp].
Qed.

Lemma utf8_of_prefix (p : string) : utf8_prefix p -> utf8 p.
Proof. intros H. rewrite <- (sapp_nil_r p). apply H. constructor. Qed.

Lemma utf8_coerce (raw : string) : utf8 (coerce_utf8 raw).
Proof.
  apply utf8_of_prefix. unfold coerce_utf8. apply map_runes_pieces.
  - apply utf8_prefix_nil.
  - apply utf8_prefix_app.
  - apply utf8_prefix_ascii.
  - apply utf8_prefix_seq.
  - apply utf8_prefix_seq. reflexivity.
Qed.

Lemma coerce_utf8_id (s : string) : utf8 s -> coerce_utf8 s = s.
Proof.
  unfold coerce_utf8. induction 1 as [|c s Hc _ IH|q s Hq _ IH].
  - reflexivity.
  - rewrite (map_runes_ascii _ _ _ _ _ Hc), IH. reflexivity.
  - rewrite (map_runes_seq _ _ _ _ _ Hq), IH. reflexivity.
Qed.

Lemma escape_ascii_ascii (c : ascii) :
  is_ascii c = true -> all_chars is_ascii (escape_ascii c) = true.
Proof.
  destruct c as [[] [] [] [] [] [] [] []]; intros H; try discriminate H; reflexivity.
Qed.

Lemma utf8_prefix_escape_rune (q : string) :
  is_seq q = true -> utf8_prefix (escape_rune q).
Proof.
  intros H. unfold escape_rune.
  destruct (String.eqb q line_sep); [apply utf8_prefix_all_ascii; reflexivity|].
  destruct (String.eqb q para_sep); [apply utf8_prefix_all_ascii; reflexivity|].
  apply utf8_prefix_seq, H.
Qed.

Lemma utf8_escaped (s : string) : utf8 (escaped s).
Proof.
  apply utf8_of_prefix. unfold escaped. apply map_runes_pieces.
  - apply utf8_prefix_nil.
  - apply utf8_prefix_app.
  - intros c Hc. apply utf8_prefix_all_ascii, escape_ascii_ascii, Hc.
  - apply utf8_prefix_escape_rune.
  - apply utf8_prefix_all_ascii. reflexivity.
Qed.

(** *** Encoded code points *)

Lemma code_chr (n : N) : (n < 256)%N -> code (chr n) = n.
Proof. apply N_ascii_embedding. Qed.

Lemma ascii_eqb_code (c d : ascii) : Ascii.eqb c d = (code c =? code d)%N.
Proof.
  destruct (Ascii.eqb_spec c d) as [-> | Hne].
  - symmetry. apply N.eqb_refl.
  - symmetry. apply N.eqb_neq. intros E. apply Hne.
    rewrite <- (ascii_N_embedding c), <- (ascii_N_embedding d).
    unfold code in E. rewrite E. reflexivity.
Qed.

(** Deciding the byte classes of a character whose code is known. *)
Ltac byte_class :=
  unfold lead_width, second_ok, is_cont, is_ascii, in_range;
  rewrite ?ascii_eqb_code, ?code_chr by lia;
  repeat match goal with
         | |- context [code ?c] =>
             lazymatch c with
             | chr _ => fail
             | _ => let v := eval vm_compute in (code c) in change (code c) with v
             end
         end;
  repeat match goal with
         | |- context [(?a <=? ?b)%N] => destruct (N.leb_spec a b); try lia
         | |- context [(?a <? ?b)%N] => destruct (N.ltb_spec a b); try lia
         | |- context [(?a =? ?b)%N] => destruct (N.eqb_spec a b); try lia
         end;
  try reflexivity.

Lemma utf8_encode_prefix (u : N) :
  (u < 1114112)%N -> is_surrogate u = false -> utf8_prefix (utf8_encode u).
Proof.
  intros Hu Hs. unfold utf8_encode.
  pose proof (N.div_mod u 64 ltac:(lia)) as E0.
  pose proof (N.mod_lt u 64 ltac:(lia)) as L0.
  pose proof (N.div_mod (u / 64) 64 ltac:(lia)) as E1.
  pose proof (N.mod_lt (u / 64) 64 ltac:(lia)) as L1.
  pose proof (N.div_mod (u / 64 / 64) 64 ltac:(lia)) as E2.
  pose proof (N.mod_lt (u / 64 / 64) 64 ltac:(lia)) as L2.
  set (b0 := (u mod 64)%N) in *. set (a1 := (u / 64)%N) in *.
  set (b1 := (a1 mod 64)%N) in *. set (a2 := (a1 / 64)%N) in *.
  set (b2 := (a2 mod 64)%N) in *. set (a3 := (a2 / 64)%N) in *.
  assert (Hsur : (u < 55296 \/ 57344 <= u)%N).
  { unfold is_surrogate in Hs. apply andb_false_iff in Hs as [Hs | Hs].
    - apply N.leb_gt in Hs. lia.
    - apply N.ltb_ge in Hs. lia. }
  clearbody b0 a1 b1 a2 b2 a3.
  destruct (N.ltb_spec u 128).
  { apply utf8_prefix_ascii. byte_class. }
  destruct (N.ltb_spec u 2048).
  { apply utf8_prefix_seq. cbn [is_seq String.length].
    assert (Hw : lead_width (chr (192 + a1)) = 2%nat) by byte_class.
    assert (H2 : second_ok (chr (192 + a1)) (chr (128 + b0)) = true) by byte_class.
    rewrite (seq_len_2_intro _ _ _ Hw H2). byte_class. }
  destruct (N.ltb_spec u 65536).
  { apply utf8_prefix_seq. cbn [is_seq String.length].
    assert (Hw : lead_width (chr (224 + a2)) = 3%nat) by byte_class.
    assert (H2 : second_ok (chr (224 + a2)) (chr (128 + b1)) = true) by byte_class.
    assert (H3 : is_cont (chr (128 + b0)) = true) by byte_class.
    rewrite (seq_len_3_intro _ _ _ _ Hw H2 H3). byte_class. }
  apply utf8_prefix_seq. cbn [is_seq String.length].
  assert (Hw : lead_width (chr (240 + a3)) = 4%nat) by byte_class.
  assert (H2 : second_ok (chr (240 + a3)) (chr (128 + b2)) = true) by byte_class.
  assert (H3 : is_cont (chr (128 + b1)) = true) by byte_class.
  assert (H4 : is_cont (chr (128 + b0)) = true) by byte_class.
  rewrite (seq_len_4_intro _ _ _ _ _ Hw H2 H3 H4). byte_class.
Qed.

(** *** Decoded strings are well formed *)

Lemma utf8_inv_ascii (c : ascii) (s : string) :
  utf8 (String c s) -> is_ascii c = true -> utf8 s.
Proof.
  intros H Hc. inversion H as [|c' s' _ Hs|q s' Hq Hs E]; [exact Hs|].
  destruct (is_seq_cases q Hq) as (c1 & r & -> & Ha & _).
  rewrite sapp_cons in E. injection E as -> _. congruence.
Qed.

Lemma utf8_inv_high (c : ascii) (s : string) :
  utf8 (String c s) -> is_ascii c = false ->
  exists q s', is_seq q = true /\ String c s = q +:+ s' /\ utf8 s'.
Proof.
  intros H Hc. inversion H as [|c' s' Hc' Hs|q s' Hq Hs E]; [congruence|].
  exists q, s'. auto.
Qed.

Lemma high_not_backslash (c : ascii) :
  is_ascii c = false -> Ascii.eqb c backslash = false.
Proof.
  destruct c as [[] [] [] [] [] [] [] []]; intros H; try discriminate H; reflexivity.
Qed.

Lemma unescape_high (q X : string) :
  all_chars (fun c => negb (is_ascii c)) q = true ->
  unescape (q +:+ X) = q +:+ unescape X.
Proof.
  induction q as [|c q IH]; intros H; [reflexivity|].
  cbn in H. apply andb_true_iff in H as [Hc Hq]. apply negb_true_iff in Hc.
  rewrite !sapp_cons. cbn [unescape].
  rewrite (high_not_backslash _ Hc). simpl. rewrite (IH Hq). reflexivity.
Qed.

Lemma is_hex_ascii (h : ascii) : is_hex h = true -> is_ascii h = true.
Proof.
  destruct h as [[] [] [] [] [] [] [] []]; intros H; try discriminate H; reflexivity.
Qed.

Lemma hex_val_bound (h : ascii) : is_hex h = true -> (hex_val h < 16)%N.
Proof.
  destruct h as [[] [] [] [] [] [] [] []]; intros H; try discriminate H;
    vm_compute; reflexivity.
Qed.

Lemma is_simple_escape_ascii (e : ascii) :
  is_simple_escape e = true -> is_ascii e = true /\ is_ascii (simple_escape e) = true.
Proof.
  destruct e as [[] [] [] [] [] [] [] []]; intros H; try discriminate H;
    split; reflexivity.
Qed.

Lemma hex4_bound (a b c d : ascii) :
  is_hex a = true -> is_hex b = true -> is_hex c = true -> is_hex d = true ->
  (hex4 a b c d < 65536)%N.
Proof.
  intros Ha Hb Hc Hd. unfold hex4.
  pose proof (hex_val_bound _ Ha). pose proof (hex_val_bound _ Hb).
  pose proof (hex_val_bound _ Hc). pose proof (hex_val_bound _ Hd). lia.
Qed.

Lemma surrogate_pair_bound (hi lo p : N) :
  surrogate_pair hi lo = Some p -> (p < 1114112)%N /\ is_surrogate p = false.
Proof.
  unfold surrogate_pair, is_surrogate.
  destruct (N.leb_spec 55296 hi); [|discriminate].
  destruct (N.ltb_spec hi 56320); [|discriminate].
  destruct (N.leb_spec 56320 lo); [|discriminate].
  destruct (N.ltb_spec lo 57344); [|discriminate].
  simpl. intros [= <-]. split; [lia|].
  apply andb_false_iff. right. apply N.ltb_ge. lia.
Qed.

Lemma utf8_prefix_replacement : utf8_prefix replacement.
Proof. apply utf8_prefix_seq. reflexivity. Qed.

(** Dropping a leading ASCII character from a well-formed text. *)
Ltac strip_ascii H :=
  apply utf8_inv_ascii in H;
  [|first [reflexivity | apply is_hex_ascii; assumption]].

Lemma unescape_utf8 (w : string) : utf8 w -> utf8 (unescape w).
Proof.
  remember (String.length w) as n eqn:En. revert w En.
  induction n as [n IH] using lt_wf_ind. intros w -> Hw.
  assert (IH' : forall r, (String.length r < String.length w)%nat -> utf8 r ->
                          utf8 (unescape r)).
  { intros r Hr. apply (IH _ Hr r eq_refl). }
  clear IH.
  destruct w as [|c r]; [constructor|].
  destruct (is_ascii c) eqn:Hc.
  2:{ destruct (utf8_inv_high _ _ Hw Hc) as (q & s' & Hq & E & Hs').
      rewrite E, (unescape_high _ _ (is_seq_high _ Hq)).
      apply utf8_seq; [exact Hq|]. apply IH'; [|exact Hs'].
      rewrite E, length_sapp. destruct q; [discriminate Hq|]. simpl. lia. }
  pose proof (utf8_inv_ascii _ _ Hw Hc) as Hr.
  cbn [unescape]. destruct (Ascii.eqb c backslash); simpl.
  2:{ apply utf8_ascii; [exact Hc|]. apply IH'; [simpl; lia | exact Hr]. }
  destruct r as [|e r1]; [constructor|].
  destruct (Ascii.eqb e "u") eqn:Eu.
  - apply Ascii.eqb_eq in Eu as ->.
    pose proof (utf8_inv_ascii _ _ Hr eq_refl) as Hr1.
    destruct r1 as [|h1 [|h2 [|h3 [|h4 r2]]]]; try constructor.
    destruct (is_hex h1) eqn:H1; [|constructor].
    destruct (is_hex h2) eqn:H2; [|constructor].
    destruct (is_hex h3) eqn:H3; [|constructor].
    destruct (is_hex h4) eqn:H4; [|constructor].
    cbn [andb].
    pose proof Hr1 as Ha. do 4 strip_ascii Ha.
    assert (Hr2 : utf8 (unescape r2)) by (apply IH'; [simpl; lia | exact Ha]).
    pose proof (hex4_bound _ _ _ _ H1 H2 H3 H4) as Hb.
    destruct (is_surrogate (hex4 h1 h2 h3 h4)) eqn:Es; simpl.
    2:{ apply utf8_encode_prefix; [lia | exact Es | exact Hr2]. }
    assert (Hfb : utf8 (replacement +:+ unescape r2)).
    { apply utf8_prefix_replacement, Hr2. }
    destruct r2 as [|b [|v [|g1 [|g2 [|g3 [|g4 r3]]]]]]; try exact Hfb.
    destruct (Ascii.eqb b backslash) eqn:Eb; [|exact Hfb].
    destruct (Ascii.eqb v "u") eqn:Ev; [|exact Hfb].
    destruct (is_hex g1) eqn:G1; [|exact Hfb].
    destruct (is_hex g2) eqn:G2; [|exact Hfb].
    destruct (is_hex g3) eqn:G3; [|exact Hfb].
    destruct (is_hex g4) eqn:G4; [|exact Hfb].
    cbn [andb].
    destruct (surrogate_pair _ _) as [p|] eqn:Ep; [|exact Hfb].
    destruct (surrogate_pair_bound _ _ _ Ep) as [Hp1 Hp2].
    apply utf8_encode_prefix; [exact Hp1 | exact Hp2 |].
    apply Ascii.eqb_eq in Eb as ->. apply Ascii.eqb_eq in Ev as ->.
    do 6 strip_ascii Ha.
    apply IH'; [simpl; lia | exact Ha].
  - destruct (is_simple_escape e) eqn:Ee; [|constructor].
    destruct (is_simple_escape_ascii _ Ee) as [He1 He2].
    apply utf8_ascii; [exact He2|].
    apply IH'; [simpl; lia|]. apply (utf8_inv_ascii _ _ Hr He1).
Qed.

(** Every decoded string is well-formed UTF-8. *)
Lemma unquote_utf8 (raw : string) : utf8 (unquote raw).
Proof. unfold unquote. apply unescape_utf8, utf8_coerce. Qed.

(** *** Decoding a quoted string *)

Lemma unescape_escape_ascii (c : ascii) (X : string) :
  is_ascii c = true -> unescape (escape_ascii c +:+ X) = String c (unescape X).
Proof.
  destruct c as [[] [] [] [] [] [] [] []]; intros H; try discriminate H;
    match goal with
    | |- context [escape_ascii ?c] =>
        let v := eval vm_compute in (escape_ascii c) in
        change (escape_ascii c) with v
    end; lit_app; reflexivity.
Qed.

Lemma unescape_escape_rune (q X : string) :
  is_seq q = true -> unescape (escape_rune q +:+ X) = q +:+ unescape X.
Proof.
  intros Hq. unfold escape_rune.
  destruct (String.eqb_spec q line_sep) as [-> | _]; [lit_app; reflexivity|].
  destruct (String.eqb_spec q para_sep) as [-> | _]; [lit_app; reflexivity|].
  apply unescape_high, is_seq_high, Hq.
Qed.

Lemma unescape_escaped (s : string) : utf8 s -> unescape (escaped s) = s.
Proof.
  unfold escaped. induction 1 as [|c s Hc _ IH|q s Hq _ IH].
  - reflexivity.
  - rewrite (map_runes_ascii _ _ _ _ _ Hc), (unescape_escape_ascii _ _ Hc), IH.
    reflexivity.
  - rewrite (map_runes_seq _ _ _ _ _ Hq), (unescape_escape_rune _ _ Hq), IH.
    reflexivity.
Qed.

(** Decoding the literal of a well-formed string gives the string back. *)
Lemma unquote_escaped (s : string) : utf8 s -> unquote (escaped s) = s.
Proof.
  intros Hs. unfold unquote.
  rewrite (coerce_utf8_id _ (utf8_escaped s)). apply unescape_escaped, Hs.
Qed.

(** ** Number literals *)

Lemma all_chars_app p (s t : string) :
  all_chars p (s +:+ t) = all_chars p s && all_chars p t.
Proof.
  induction s as [|c s IH]; [reflexivity|].
  rewrite sapp_cons. cbn. rewrite IH, andb_assoc. reflexivity.
Qed.

Lemma all_chars_impl (p q : ascii -> bool) (s : string) :
  (forall c, p c = true -> q c = true) -> all_chars p s = true -> all_chars q s = true.
Proof.
  intros Hpq. induction s as [|c s IH]; [reflexivity|]. cbn.
  intros H. apply andb_true_iff in H as [Hc Hs]. rewrite (Hpq _ Hc), (IH Hs).
  reflexivity.
Qed.

Lemma span_split p (s : string) :
  s = (span p s).1 +:+ (span p s).2 /\ all_chars p (span p s).1 = true.
Proof.
  induction s as [|c s [IH1 IH2]]; [split; reflexivity|].
  cbn. destruct (p c) eqn:E; [|split; reflexivity].
  destruct (span p s) as [tok rest]. cbn in *. rewrite sapp_cons, <- IH1, E, IH2.
  split; reflexivity.
Qed.

Lemma span_all p (s : string) : all_chars p s = true -> span p s = (s, "").
Proof.
  induction s as [|c s IH]; [reflexivity|]. cbn.
  intros H. apply andb_true_iff in H as [Hc Hs]. rewrite Hc, (IH Hs). reflexivity.
Qed.

Lemma span_app (tok rest : string) :
  all_chars is_num_char tok = true -> delimited rest ->
  span is_num_char (tok +:+ rest) = (tok, rest).
Proof.
  intros Ht Hr. induction tok as [|c tok IH].
  - rewrite sapp_nil_l. destruct rest as [|d rest]; [reflexivity|].
    cbn in *. rewrite Hr. reflexivity.
  - cbn in Ht. apply andb_true_iff in Ht as [Hc Ht].
    rewrite sapp_cons. cbn. rewrite Hc, (IH Ht). reflexivity.
Qed.

Lemma is_digit_num_char (c : ascii) : is_digit c = true -> is_num_char c = true.
Proof. unfold is_num_char. intros ->. reflexivity. Qed.

Lemma eats_digits1 : eats digits1.
Proof.
  intros [|c s] r; [discriminate|]. cbn.
  destruct (is_digit c) eqn:E; [|discriminate]. intros [= <-].
  destruct (span_split is_digit s) as [H1 H2].
  exists (String c (span is_digit s).1). split.
  - rewrite sapp_cons, <- H1. reflexivity.
  - cbn. rewrite (is_digit_num_char _ E). simpl.
    apply (all_chars_impl is_digit); [apply is_digit_num_char | exact H2].
Qed.

Lemma eats_nothing (s : string) :
  exists p, s = p +:+ s /\ all_chars is_num_char p = true.
Proof. exists "". split; reflexivity. Qed.

Lemma eats_one (c : ascii) (s : string) (f : string -> option string) (r : string) :
  is_num_char c = true -> eats f -> f s = Some r ->
  exists p, String c s = p +:+ r /\ all_chars is_num_char p = true.
Proof.
  intros Hc Hf H. destruct (Hf _ _ H) as (p & -> & Hp).
  exists (String c p). split; [reflexivity|]. cbn. rewrite Hc, Hp. reflexivity.
Qed.

Lemma eats_num_int : eats num_int.
Proof.
  intros [|c s] r; [discriminate|]. unfold num_int.
  destruct (Ascii.eqb c "0") eqn:E.
  - intros [= <-]. apply Ascii.eqb_eq in E as ->.
    exists "0". split; reflexivity.
  - apply eats_digits1.
Qed.

Lemma eats_num_frac : eats num_frac.
Proof.
  intros [|c s] r; unfold num_frac.
  - intros [= <-]. apply eats_nothing.
  - destruct (Ascii.eqb c ".") eqn:E.
    + apply Ascii.eqb_eq in E as ->. apply eats_one; [reflexivity | apply eats_digits1].
    + intros [= <-]. apply eats_nothing.
Qed.

Lemma eats_num_exp : eats num_exp.
Proof.
  intros [|c s] r; unfold num_exp.
  - intros [= <-]. apply eats_nothing.
  - destruct (Ascii.eqb c "e" || Ascii.eqb c "E") eqn:E.
    2:{ intros [= <-]. apply eats_nothing. }
    assert (Hc : is_num_char c = true).
    { unfold is_num_char. apply orb_true_iff in E as [-> | ->];
        rewrite ?orb_true_r; reflexivity. }
    destruct s as [|g s']; [discriminate|].
    destruct (Ascii.eqb g "+" || Ascii.eqb g "-") eqn:Eg.
    + intros H.
      assert (Hg : is_num_char g = true).
      { unfold is_num_char. apply orb_true_iff in Eg as [-> | ->];
          rewrite ?orb_true_r; reflexivity. }
      destruct (eats_digits1 _ _ H) as (p & -> & Hp).
      exists (String c (String g p)). split; [reflexivity|].
      cbn. rewrite Hc, Hg, Hp. reflexivity.
    + apply eats_one; [exact Hc | apply eats_digits1].
Qed.

Lemma num_sign_split (s : string) :
  exists p, s = p +:+ num_sign s /\ all_chars is_num_char p = true.
Proof.
  destruct s as [|c s]; [apply eats_nothing|]. unfold num_sign.
  destruct (Ascii.eqb c "-") eqn:E; [|apply eats_nothing].
  apply Ascii.eqb_eq in E as ->. exists "-". split; reflexivity.
Qed.

Lemma is_number_chars (lit : string) :
  is_number lit = true -> all_chars is_num_char lit = true.
Proof.
  unfold is_number. intros H.
  destruct (num_sign_split lit) as (p0 & E0 & H0).
  destruct (num_int (num_sign lit)) as [r1|] eqn:E1; [|discriminate H].
  destruct (eats_num_int _ _ E1) as (p1 & Ep1 & H1). simpl in H.
  destruct (num_frac r1) as [r2|] eqn:E2; [|discriminate H].
  destruct (eats_num_frac _ _ E2) as (p2 & -> & H2). simpl in H.
  destruct (num_exp r2) as [r3|] eqn:E3; [|discriminate H].
  destruct (eats_num_exp _ _ E3) as (p3 & -> & H3).
  destruct r3; [|discriminate H].
  rewrite E0, Ep1, !all_chars_app, H0, H1, H2, H3. reflexivity.
Qed.

Lemma is_number_head (lit : string) :
  is_number lit = true ->
  exists c r, lit = String c r /\ (Ascii.eqb c "-" || is_digit c) = true.
Proof.
  destruct lit as [|c r]; [discriminate|]. intros H. exists c, r.
  split; [reflexivity|].
  destruct (Ascii.eqb c "-") eqn:E; [reflexivity|]. simpl.
  unfold is_number, num_sign in H. rewrite E in H.
  unfold num_int in H. destruct (Ascii.eqb c "0") eqn:E0.
  - apply Ascii.eqb_eq in E0 as ->. reflexivity.
  - unfold digits1 in H. destruct (is_digit c); [reflexivity|discriminate H].
Qed.

(** Decimal integers are number literals. *)
Lemma uint_digits (d : uint) : all_chars is_digit (NilEmpty.string_of_uint d) = true.
Proof. induction d; cbn; auto. Qed.

Lemma is_number_digits (c : ascii) (s : string) :
  is_digit c = true -> Ascii.eqb c "0" = false -> all_chars is_digit s = true ->
  is_number (String c s) = true /\ is_number (String "-" (String c s)) = true.
Proof.
  intros Hc H0 Hs.
  assert (Hm : Ascii.eqb c "-" = false).
  { destruct (Ascii.eqb c "-") eqn:E; [|reflexivity].
    apply Ascii.eqb_eq in E as ->. discriminate Hc. }
  unfold is_number, num_sign. rewrite Hm. cbn -[num_int].
  unfold num_int, digits1. rewrite H0, Hc, (span_all _ _ Hs). split; reflexivity.
Qed.

Lemma to_uint_normal (p : positive) : unorm (Pos.to_uint p) = Pos.to_uint p.
Proof.
  rewrite <- Unsigned.to_of, Unsigned.of_to. reflexivity.
Qed.

Lemma is_number_uint (p : positive) :
  is_number (NilEmpty.string_of_uint (Pos.to_uint p)) = true
  /\ is_number (String "-" (NilEmpty.string_of_uint (Pos.to_uint p))) = true.
Proof.
  pose proof (to_uint_normal p) as Hn.
  pose proof (Unsigned.to_uint_nonzero p) as Hz.
  pose proof (uint_digits (Pos.to_uint p)) as Hd.
  destruct (Pos.to_uint p) as [|d|d|d|d|d|d|d|d|d|d].
  - discriminate Hn.
  - exfalso. rewrite unorm_D0 in Hn. unfold unorm in Hn.
    pose proof (nzhead_nonzero d d) as Hnz.
    destruct (nzhead d) eqn:E; try (apply Hnz; exact Hn).
    apply Hz. injection Hn as <-. reflexivity.
  - apply is_number_digits; [reflexivity | reflexivity | exact Hd].
  - apply is_number_digits; [reflexivity | reflexivity | exact Hd].
  - apply is_number_digits; [reflexivity | reflexivity | exact Hd].
  - apply is_number_digits; [reflexivity | reflexivity | exact Hd].
  - apply is_number_digits; [reflexivity | reflexivity | exact Hd].
  - apply is_number_digits; [reflexivity | reflexivity | exact Hd].
  - apply is_number_digits; [reflexivity | reflexivity | exact Hd].
  - apply is_number_digits; [reflexivity | reflexivity | exact Hd].
  - apply is_number_digits; [reflexivity | reflexivity | exact Hd].
Qed.

Lemma string_of_uint_nonnil (d : uint) :
  d <> Nil -> NilZero.string_of_uint d = NilEmpty.string_of_uint d.
Proof. destruct d; [congruence | reflexivity..]. Qed.

Lemma is_number_itoa (n : Z) : is_number (itoa n) = true.
Proof.
  unfold itoa. destruct n as [|p|p]; [reflexivity| |]; cbn;
    rewrite (string_of_uint_nonnil _ (Unsigned.to_uint_nonnil p));
    apply is_number_uint.
Qed.

(** ** Encoded values parse *)

Lemma skip_space_head (c : ascii) (r : string) :
  is_space c = false -> skip_space (String c r) = String c r.
Proof. intros H. cbn. rewrite H. reflexivity. Qed.

Lemma value_text_skip pv x a X :
  value_text pv x a -> skip_space (x +:+ X) = x +:+ X.
Proof.
  intros [(c & r & -> & Hs & _) _]. rewrite sapp_cons. apply skip_space_head, Hs.
Qed.

Lemma length_join_elem (sep x : string) (l : list string) :
  x ∈ l -> (String.length x <= String.length (join sep l))%nat.
Proof.
  unfold join. induction l as [|y l IH]; intros H; [inversion H|].
  apply elem_of_cons in H. destruct l as [|z l].
  - destruct H as [-> | H]; [simpl; lia | inversion H].
  - change (String.concat sep (y :: z :: l))
      with (y +:+ sep +:+ String.concat sep (z :: l)).
    rewrite !length_sapp. destruct H as [-> | H]; [lia|].
    specialize (IH H). lia.
Qed.

Lemma length_join_count (sep : string) (l : list string) :
  Forall (fun x => x <> "") l -> (length l <= S (String.length (join sep l)))%nat.
Proof.
  unfold join. induction 1 as [|y l Hy Hl IH]; [simpl; lia|].
  destruct l as [|z l]; [simpl; lia|].
  change (String.concat sep (y :: z :: l))
    with (y +:+ sep +:+ String.concat sep (z :: l)).
  rewrite !length_sapp. destruct y as [|c y]; [congruence|]. simpl in *. lia.
Qed.

Lemma parse_items_ok (pv : parser tree) (items : list (string * any)) :
  Forall (fun x => value_text pv x.1 x.2) items -> items <> [] ->
  forall k rest, (length items <= k)%nat ->
    exists l,
      parse_items pv k (join "," (fst <$> items) +:+ String "]" rest) = Some (l, rest)
      /\ to_any <$> l = snd <$> items.
Proof.
  unfold join. induction 1 as [|[x a] items Hx Hitems IH]; [congruence|].
  intros _ k rest Hk. destruct k as [|k]; [simpl in Hk; lia|].
  destruct Hx as [_ Hx]. cbn [fst snd] in Hx. destruct items as [|y items].
  - cbn [fmap list_fmap String.concat parse_items fst].
    destruct (Hx (String "]" rest)) as (t & -> & Ht); [reflexivity|].
    exists [t]. split; [reflexivity|]. cbn. rewrite Ht. reflexivity.
  - destruct (IH ltac:(congruence) k rest) as (l & Hl & Hla); [simpl in *; lia|].
    change (String.concat "," (fst <$> (x, a) :: y :: items))
      with (x +:+ "," +:+ String.concat "," (fst <$> y :: items)).
    set (J := String.concat "," (fst <$> y :: items)) in *.
    rewrite !sapp_assoc. lit_app. cbn [parse_items].
    destruct (Hx (String "," (J +:+ String "]" rest))) as (t & -> & Ht); [reflexivity|].
    exists (t :: l). simpl. rewrite Hl. split; [reflexivity|].
    f_equal; [exact Ht | exact Hla].
Qed.

Lemma take_text_app (e X : string) :
  take_text (String.length (e +:+ X) - String.length X) (e +:+ X) = e.
Proof.
  rewrite length_sapp.
  replace (String.length e + String.length X - String.length X)%nat
    with (String.length e) by lia.
  induction e as [|c e IH]; [reflexivity|].
  rewrite sapp_cons. cbn [String.length take_text]. rewrite IH. reflexivity.
Qed.

Lemma parse_member_one (pv : parser tree) (key e X : string) (a : any) :
  value_text pv e a -> delimited X ->
  exists t,
    skip_space (member_text (key, e) +:+ X)
    = String dquote (escaped key +:+ String dquote (String ":" (e +:+ X)))
    /\ string_token (escaped key +:+ String dquote (String ":" (e +:+ X)))
       = Some (escaped key, String ":" (e +:+ X))
    /\ skip_space (e +:+ X) = e +:+ X
    /\ pv (e +:+ X) = Some (t, X)
    /\ to_any t = a.
Proof.
  intros He HX. unfold member_text. cbn [fst snd].
  destruct (string_token_quote key (String ":" (e +:+ X))) as (E1 & E2).
  destruct (proj2 He X HX) as (t & Ht & Ha).
  exists t. rewrite !sapp_assoc. lit_app. rewrite E1.
  split; [reflexivity|]. split; [exact E2|].
  split; [apply (value_text_skip _ _ _ _ He)|]. split; [exact Ht | exact Ha].
Qed.

(** The members of an object text are read with their keys, the texts of
    their values and the values themselves. *)
Lemma parse_members_raw (pv : parser tree) (val : string * string -> any)
    (kvs : list (string * string)) :
  Forall (fun kv => utf8 kv.1 /\ value_text pv kv.2 (val kv)) kvs -> kvs <> [] ->
  forall k rest, (length kvs <= k)%nat ->
    exists ms,
      parse_members pv k (join "," (member_text <$> kvs) +:+ String "}" rest)
      = Some (ms, rest)
      /\ (fun m => (m.1, to_any m.2)) <$> ms = (fun kv => (kv.1, kv.2, val kv)) <$> kvs.
Proof.
  unfold join. induction 1 as [|[key e] kvs [Hu Hx] Hkvs IH]; [congruence|].
  intros _ k rest Hk. destruct k as [|k]; [simpl in Hk; lia|].
  cbn [fst snd] in Hu, Hx. destruct kvs as [|kv kvs].
  - cbn [fmap list_fmap String.concat].
    destruct (parse_member_one pv key e (String "}" rest) _ Hx)
      as (t & E1 & E2 & E3 & E4 & Ha); [reflexivity|].
    cbn [parse_members]. rewrite E1. simpl. rewrite E2. simpl. rewrite E3, E4. simpl.
    eexists. split; [reflexivity|]. simpl.
    rewrite (unquote_escaped _ Hu), Ha, take_text_app. reflexivity.
  - destruct (IH ltac:(congruence) k rest) as (ms & Hms & Hmsa); [simpl in *; lia|].
    change (String.concat "," (member_text <$> (key, e) :: kv :: kvs))
      with (member_text (key, e) +:+ "," +:+ String.concat "," (member_text <$> kv :: kvs)).
    set (J := String.concat "," (member_text <$> kv :: kvs)) in *.
    rewrite !sapp_assoc. lit_app.
    destruct (parse_member_one pv key e (String "," (J +:+ String "}" rest)) _ Hx)
      as (t & E1 & E2 & E3 & E4 & Ha); [reflexivity|].
    cbn [parse_members]. rewrite E1. simpl. rewrite E2. simpl. rewrite E3, E4. simpl.
    rewrite Hms. eexists. split; [reflexivity|]. simpl.
    rewrite (unquote_escaped _ Hu), Ha, take_text_app. f_equal. exact Hmsa.
Qed.

Lemma parse_members_ok (pv : parser tree) (val : string * string -> any)
    (kvs : list (string * string)) :
  Forall (fun kv => utf8 kv.1 /\ value_text pv kv.2 (val kv)) kvs -> kvs <> [] ->
  forall k rest, (length kvs <= k)%nat ->
    exists ms,
      parse_members pv k (join "," (member_text <$> kvs) +:+ String "}" rest)
      = Some (ms, rest)
      /\ (fun m => (m.1.1, to_any m.2)) <$> ms = (fun kv => (kv.1, val kv)) <$> kvs.
Proof.
  intros Hv Hne k rest Hk.
  destruct (parse_members_raw pv val kvs Hv Hne k rest Hk) as (ms & Hms & Hraw).
  exists ms. split; [exact Hms|].
  apply (f_equal (fmap (fun x : string * string * any => (x.1.1, x.2)))) in Hraw.
  rewrite <- !list_fmap_compose in Hraw. exact Hraw.
Qed.

Lemma number_head_chars (c : ascii) :
  (Ascii.eqb c "-" || is_digit c) = true ->
  is_space c = false /\ Ascii.eqb "]" c = false /\ Ascii.eqb "}" c = false
  /\ Ascii.eqb c "{" = false /\ Ascii.eqb c "[" = false
  /\ Ascii.eqb c dquote = false /\ Ascii.eqb c "t" = false
  /\ Ascii.eqb c "f" = false /\ Ascii.eqb c "n" = false.
Proof.
  destruct c as [[] [] [] [] [] [] [] []]; intros H; try discriminate H;
    repeat split; reflexivity.
Qed.

Lemma parse_value_number (n : nat) (lit rest : string) :
  is_number lit = true -> delimited rest ->
  parse_value (S n) (lit +:+ rest) = Some (TNum lit, rest).
Proof.
  intros Hn Hr. pose proof (is_number_chars _ Hn) as Hc.
  destruct (is_number_head _ Hn) as (c & r & -> & Hh).
  destruct (number_head_chars c Hh) as (H1 & _ & _ & H2 & H3 & H4 & H5 & H6 & H7).
  rewrite sapp_cons. cbn [parse_value]. rewrite (skip_space_head _ _ H1).
  rewrite H2, H3, H4, H5, H6, H7, Hh.
  change (String c (r +:+ rest)) with (String c r +:+ rest).
  rewrite (span_app _ _ Hc Hr), Hn. reflexivity.
Qed.

Lemma parse_value_string (n : nat) (R : string) :
  parse_value (S n) (String dquote R)
  = '(raw, r1) ← string_token R; Some (TStr (unquote raw), r1).
Proof. reflexivity. Qed.

Lemma parse_value_array (n : nat) (R : string) :
  parse_value (S n) (String "[" R)
  = match starts_with "]" (skip_space R) with
    | Some r1 => Some (TArr [], r1)
    | None => '(l, r1) ← parse_items (parse_value n) n R; Some (TArr l, r1)
    end.
Proof. reflexivity. Qed.

Lemma parse_value_object (n : nat) (R : string) :
  parse_value (S n) (String "{" R)
  = match starts_with "}" (skip_space R) with
    | Some r1 => Some (TObj [], r1)
    | None => '(ms, r1) ← parse_members (parse_value n) n R; Some (TObj ms, r1)
    end.
Proof. reflexivity. Qed.

Lemma starts_with_head (d c : ascii) (r : string) :
  is_space c = false -> Ascii.eqb d c = false ->
  starts_with d (skip_space (String c r)) = None.
Proof. intros Hs Hd. rewrite (skip_space_head _ _ Hs). cbn. rewrite Hd. reflexivity. Qed.

Lemma join_head (sep x Y : string) (l : list string) (c : ascii) (r : string) :
  x = String c r -> exists Z, join sep (x :: l) +:+ Y = String c Z.
Proof.
  intros ->. unfold join. destruct l as [|y l].
  - eexists. reflexivity.
  - change (String.concat sep (String c r :: y :: l))
      with (String c r +:+ sep +:+ String.concat sep (y :: l)).
    rewrite sapp_assoc, sapp_cons. eexists. reflexivity.
Qed.

Lemma marshal_head (v : any) :
  wf v ->
  exists c r, marshal_any v = String c r /\ is_space c = false
              /\ Ascii.eqb "]" c = false /\ Ascii.eqb "}" c = false.
Proof.
  assert (Hnum : forall lit, is_number lit = true ->
            exists c r, lit = String c r /\ is_space c = false
                        /\ Ascii.eqb "]" c = false /\ Ascii.eqb "}" c = false).
  { intros lit Hn. destruct (is_number_head _ Hn) as (c & r & -> & Hh).
    destruct (number_head_chars c Hh) as (H1 & H2 & H3 & _). exists c, r. auto. }
  intros [ | b | lit Hlit | z | s Hs | l Hl | m Hm ].
  - exists "n"%char, "ull". auto.
  - destruct b; [exists "t"%char, "rue" | exists "f"%char, "alse"]; auto.
  - apply Hnum, Hlit.
  - apply Hnum, is_number_itoa.
  - eexists dquote, _. split; [reflexivity|]. auto.
  - eexists "["%char, _. split; [reflexivity|]. auto.
  - eexists "{"%char, _. split; [reflexivity|]. auto.
Qed.

Lemma marshal_nonempty (v : any) : wf v -> marshal_any v <> "".
Proof. intros H. destruct (marshal_head v H) as (c & r & -> & _). discriminate. Qed.

Lemma reads_value_text pv n v :
  reads pv n -> wf v -> (String.length (marshal_any v) <= n)%nat ->
  value_text pv (marshal_any v) (floatify v).
Proof.
  intros Hpv Hwf Hlen. split; [apply marshal_head, Hwf|].
  intros rest Hr. apply Hpv; assumption.
Qed.

(** The members of an encoded map, read back in sorted order, make up the
    map again. *)
Lemma sorted_members_map (m : gmap string any) :
  list_to_map
    (reverse ((fun kv => (kv.1, default ANil (floatify <$> m !! kv.1)))
                <$> merge_sort key_le (map_to_list (marshal_any <$> m))))
  = floatify <$> m.
Proof.
  set (kvs := merge_sort key_le (map_to_list (marshal_any <$> m))).
  assert (Hin : forall k e, (k, e) ∈ kvs <-> (marshal_any <$> m) !! k = Some e).
  { intros k e. unfold kvs. rewrite merge_sort_Permutation.
    apply elem_of_map_to_list. }
  assert (Hnd : NoDup (fst <$> kvs)).
  { unfold kvs. rewrite merge_sort_Permutation. apply NoDup_fst_map_to_list. }
  set (L := (fun kv : string * string => (kv.1, default ANil (floatify <$> m !! kv.1)))
              <$> kvs).
  assert (Hfst : fst <$> L = fst <$> kvs).
  { unfold L. rewrite <- list_fmap_compose. reflexivity. }
  apply map_eq. intros k. rewrite lookup_fmap.
  destruct (m !! k) as [x|] eqn:Hx; simpl.
  - apply elem_of_list_to_map_1.
    + rewrite fmap_reverse, Hfst, reverse_Permutation. exact Hnd.
    + apply elem_of_reverse. unfold L. apply list_elem_of_fmap.
      exists (k, marshal_any x). split.
      * cbn [fst]. rewrite Hx. reflexivity.
      * apply Hin. rewrite lookup_fmap, Hx. reflexivity.
  - apply not_elem_of_list_to_map_1. rewrite fmap_reverse, Hfst.
    intros Hk. apply elem_of_reverse, list_elem_of_fmap in Hk as ([k' e] & -> & Hk).
    apply Hin in Hk. rewrite lookup_fmap in Hk. cbn [fst] in Hx.
    rewrite Hx in Hk. discriminate Hk.
Qed.

(** The text of an encoded map is read as an object whose members are
    those of the map, in the order of their keys. *)
Lemma parse_object_text (n : nat) (m : gmap string any) (rest : string) :
  reads (parse_value n) n -> map_Forall (fun k v => utf8 k /\ wf v) m ->
  (String.length (marshal_any (AMap m)) <= S n)%nat ->
  exists ms,
    parse_value (S n) (marshal_any (AMap m) +:+ rest) = Some (TObj ms, rest)
    /\ (fun mm => (mm.1.1, to_any mm.2)) <$> ms
       = (fun kv => (kv.1, default ANil (floatify <$> m !! kv.1)))
           <$> merge_sort key_le (map_to_list (marshal_any <$> m)).
Proof.
  intros IH Hm Hlen.
  cbn [marshal_any] in *. rewrite !sapp_assoc. lit_app.
  rewrite !length_sapp in Hlen. simpl in Hlen.
  rewrite parse_value_object.
  set (val := fun kv : string * string => default ANil (floatify <$> m !! kv.1)) in *.
  set (kvs := merge_sort key_le (map_to_list (marshal_any <$> m))) in *.
  assert (Hkv : forall kv, kv ∈ kvs ->
            exists x, utf8 kv.1 /\ wf x /\ kv.2 = marshal_any x /\ val kv = floatify x).
  { intros [k e] Hin. unfold kvs in Hin. rewrite merge_sort_Permutation in Hin.
    apply elem_of_map_to_list in Hin. apply lookup_fmap_Some in Hin as (x & <- & Hx).
    exists x. destruct (Hm k x Hx) as [Hu Hw].
    split; [exact Hu|]. split; [exact Hw|]. split; [reflexivity|].
    unfold val. cbn [fst]. rewrite Hx. reflexivity. }
  destruct kvs as [|kv kvs'] eqn:Ekvs.
  { eexists. split; reflexivity. }
  rewrite <- Ekvs in *.
  assert (Hv : Forall (fun kv => utf8 kv.1 /\ value_text (parse_value n) kv.2 (val kv))
                 kvs).
  { apply Forall_forall. intros [k e] Hin.
    destruct (Hkv _ Hin) as (x & Hu & Hx & E & Ev). cbn [fst snd] in *. subst e.
    split; [exact Hu|]. rewrite Ev.
    apply (reads_value_text _ n); [exact IH | exact Hx |].
    pose proof (length_join_elem "," (member_text (k, marshal_any x))
                  (member_text <$> kvs)) as Hle.
    rewrite list_elem_of_fmap in Hle. specialize (Hle ltac:(eauto)).
    unfold member_text in Hle at 1. cbn [fst snd] in Hle.
    rewrite !length_sapp in Hle. lia. }
  assert (Hcount : (length kvs <= n)%nat).
  { pose proof (length_join_count "," (member_text <$> kvs)) as Hc.
    rewrite length_fmap in Hc.
    enough (Forall (fun x => x <> "") (member_text <$> kvs))
      by (specialize (Hc ltac:(assumption)); lia).
    apply Forall_fmap, Forall_forall. intros [k e] _. discriminate. }
  destruct (parse_members_ok _ val kvs Hv ltac:(rewrite Ekvs; discriminate) n rest Hcount)
    as (ms & Hms & Hmsa).
  rewrite Hms.
  assert (EZ : exists Z, join "," (member_text <$> kvs) +:+ String "}" rest
                         = String dquote Z).
  { rewrite Ekvs. cbn [fmap list_fmap]. apply (join_head _ _ _ _ dquote _ eq_refl). }
  destruct EZ as (Z & ->). exists ms. split; [reflexivity | exact Hmsa].
Qed.

Lemma parse_marshal (n : nat) : reads (parse_value n) n.
Proof.
  induction n as [|n IH]; intros v rest Hwf Hlen Hrest.
  { destruct (marshal_head v Hwf) as (c & r & E & _). rewrite E in Hlen.
    simpl in Hlen. lia. }
  destruct Hwf as [ | b | lit Hlit | z | s Hs | l Hl | m Hm ].
  - exists TNull. split; reflexivity.
  - destruct b; eexists; split; reflexivity.
  - eexists. split; [apply parse_value_number; assumption | reflexivity].
  - exists (TNum (itoa z)). split; [|reflexivity].
    apply parse_value_number; [apply is_number_itoa | assumption].
  - cbn [marshal_any]. destruct (string_token_quote s rest) as (-> & E).
    rewrite parse_value_string, E. eexists. split; [reflexivity|].
    cbn. rewrite (unquote_escaped _ Hs). reflexivity.
  - cbn [marshal_any] in *. rewrite !sapp_assoc. lit_app.
    rewrite !length_sapp in Hlen. simpl in Hlen.
    rewrite parse_value_array.
    destruct l as [|x l]; [eexists; split; reflexivity|].
    set (items := (fun y => (marshal_any y, floatify y)) <$> x :: l).
    assert (Efst : fst <$> items = marshal_any <$> x :: l).
    { unfold items. rewrite <- list_fmap_compose. reflexivity. }
    assert (Esnd : snd <$> items = floatify <$> x :: l).
    { unfold items. rewrite <- list_fmap_compose. reflexivity. }
    set (texts := marshal_any <$> x :: l) in *.
    assert (Hv : Forall (fun i => value_text (parse_value n) i.1 i.2) items).
    { apply Forall_fmap, Forall_forall. intros y Hy. cbn [fst snd compose].
      rewrite Forall_forall in Hl.
      apply (reads_value_text _ n); [exact IH | apply Hl, Hy |].
      pose proof (length_join_elem "," (marshal_any y) texts) as Hle.
      unfold texts in Hle at 1. rewrite list_elem_of_fmap in Hle.
      specialize (Hle ltac:(eauto)). lia. }
    assert (Hcount : (length items <= n)%nat).
    { pose proof (length_join_count "," texts) as Hc.
      replace (length items) with (length texts)
        by (rewrite <- Efst; rewrite !length_fmap; reflexivity).
      enough (Forall (fun x => x <> "") texts) by (specialize (Hc ltac:(assumption)); lia).
      apply Forall_fmap, Forall_forall. intros y Hy. rewrite Forall_forall in Hl.
      apply marshal_nonempty, Hl, Hy. }
    destruct (parse_items_ok _ items Hv ltac:(discriminate) n rest Hcount)
      as (l0 & Hl0 & Hla).
    rewrite Efst in Hl0.
    apply Forall_inv in Hv. destruct Hv as [(c & r & Ec & Hs & Hb & _) _].
    cbn [fst] in Ec.
    destruct (join_head "," _ (String "]" rest) (marshal_any <$> l) c r Ec) as (Z & EZ).
    change (join "," texts +:+ String "]" rest = String c Z) in EZ.
    rewrite Hl0. rewrite EZ, (starts_with_head _ _ _ Hs Hb).
    eexists. split; [reflexivity|]. cbn [to_any floatify]. rewrite Hla, Esnd.
    reflexivity.
  - destruct (parse_object_text n m rest IH Hm Hlen) as (ms & -> & Hmsa).
    eexists. split; [reflexivity|]. cbn [to_any floatify]. rewrite Hmsa.
    f_equal. apply sorted_members_map.
Qed.

(** Decoding an encoded value gives the value back, with its Go ints as
    float64s. *)
Lemma parse_marshal_any (v : any) :
  wf v -> exists t, parse (marshal_any v) = Some t /\ to_any t = floatify v.
Proof.
  intros Hwf. unfold parse.
  destruct (parse_marshal (S (String.length (marshal_any v))) v "" Hwf)
    as (t & Ht & Ha); [lia | exact I |].
  rewrite sapp_nil_r in Ht. rewrite Ht. exists t. split; [reflexivity | exact Ha].
Qed.


Lemma marshal_valid (v : any) : wf v -> valid (marshal_any v) = true.
Proof.
  intros Hwf. unfold valid.
  destruct (parse_marshal_any v Hwf) as (t & -> & _). reflexivity.
Qed.

Lemma unmarshal_marshal_map (m : gmap string any) :
  wf (AMap m) -> unmarshal_map (marshal_any (AMap m)) = Some (floatify <$> m).
Proof.
  intros Hwf. unfold unmarshal_map.
  destruct (parse_marshal_any _ Hwf) as (t & -> & Ha).
  destruct t as [| | | | |ms]; try discriminate Ha.
  rewrite Ha. reflexivity.
Qed.

(** ** Encoded values as raw messages

    An encoded value has no insignificant whitespace and its strings are
    HTML-escaped already: as a [json.RawMessage] it is written as it is. *)

Lemma copied_nil (b : bool) : copied b "".
Proof. intros t. reflexivity. Qed.

Lemma copied_app (b : bool) (p q : string) :
  copied b p -> copied b q -> copied b (p +:+ q).
Proof. intros Hp Hq t. rewrite !sapp_assoc, Hp, Hq. reflexivity. Qed.

(** Copying a piece whose characters are known: inside a string [squeeze]
    looks two characters ahead. *)
Ltac copy_piece t :=
  rewrite ?sapp_cons, ?sapp_nil_l; try reflexivity;
  destruct t as [|? [|? ?]]; reflexivity.

Lemma copied_escape_ascii (c : ascii) : is_ascii c = true -> copied true (escape_ascii c).
Proof.
  destruct c as [[] [] [] [] [] [] [] []]; intros H; try discriminate H; intros t;
    match goal with
    | |- context [escape_ascii ?c] =>
        let v := eval vm_compute in (escape_ascii c) in
        change (escape_ascii c) with v
    end; copy_piece t.
Qed.

Lemma squeeze_high (c : ascii) (t : string) :
  is_ascii c = false -> Ascii.eqb c "226" = false ->
  squeeze true false (String c t) = String c (squeeze true false t).
Proof.
  destruct c as [[] [] [] [] [] [] [] []]; intros H1 H2;
    try discriminate H1; try discriminate H2;
    destruct t as [|? [|? ?]]; reflexivity.
Qed.

Lemma squeeze_second (c1 c2 : ascii) (t : string) :
  second_ok c1 c2 = true ->
  squeeze true false (String c2 t) = String c2 (squeeze true false t).
Proof.
  intros H. apply squeeze_high; [apply (second_ok_high _ _ H)|].
  destruct (Ascii.eqb c2 "226") eqn:E; [|reflexivity].
  apply Ascii.eqb_eq in E. subst c2. unfold second_ok in H.
  repeat match type of H with
         | context [if ?b then _ else _] => destruct b
         end; discriminate H.
Qed.

Lemma squeeze_cont (c : ascii) (t : string) :
  is_cont c = true ->
  squeeze true false (String c t) = String c (squeeze true false t).
Proof.
  intros H. apply squeeze_high; [apply (is_cont_high _ H)|].
  destruct (Ascii.eqb c "226") eqn:E; [|reflexivity].
  apply Ascii.eqb_eq in E. subst c. discriminate H.
Qed.

Lemma lead_not_226 (c : ascii) (w : nat) :
  lead_width c = w -> w <> 3%nat -> Ascii.eqb c "226" = false.
Proof.
  intros Hw Hn. destruct (Ascii.eqb c "226") eqn:E; [|reflexivity].
  apply Ascii.eqb_eq in E. subst c. contradiction Hn. rewrite <- Hw. reflexivity.
Qed.

Lemma squeeze_lead_226 (c2 c3 : ascii) (t : string) :
  (Ascii.eqb c2 "128" && (Ascii.eqb c3 "168" || Ascii.eqb c3 "169")) = false ->
  squeeze true false (String "226" (String c2 (String c3 t)))
  = String "226" (squeeze true false (String c2 (String c3 t))).
Proof.
  intros E.
  change (squeeze true false (String "226" (String c2 (String c3 t))))
    with (if Ascii.eqb c2 "128" && (Ascii.eqb c3 "168" || Ascii.eqb c3 "169")
          then String backslash (String "u" (String "2" (String "0" (String "2"
                 (String (hex_digit (code c3 mod 16)) (squeeze true false t))))))
          else String "226" (squeeze true false (String c2 (String c3 t)))).
  rewrite E. reflexivity.
Qed.

(** A well-formed sequence other than U+2028 and U+2029 is copied. *)
Lemma copied_seq (q : string) :
  is_seq q = true -> String.eqb q line_sep = false -> String.eqb q para_sep = false ->
  copied true q.
Proof.
  intros H Hl Hp t. destruct (is_seq_cases q H) as (c1 & r & -> & Ha & Hr).
  destruct Hr as [(c2 & -> & Hw & H2) | [(c2 & c3 & -> & Hw & H2 & H3)
                                      | (c2 & c3 & c4 & -> & Hw & H2 & H3 & H4)]];
    lit_app.
  - rewrite (squeeze_high c1), (squeeze_second c1 c2); auto.
    apply (lead_not_226 _ _ Hw). discriminate.
  - destruct (Ascii.eqb c1 "226") eqn:E1.
    + apply Ascii.eqb_eq in E1. subst c1.
      assert (E : (Ascii.eqb c2 "128" && (Ascii.eqb c3 "168" || Ascii.eqb c3 "169"))
                  = false).
      { destruct (Ascii.eqb c2 "128") eqn:E2; [|reflexivity].
        apply Ascii.eqb_eq in E2. subst c2.
        destruct (Ascii.eqb c3 "168") eqn:E3.
        { apply Ascii.eqb_eq in E3. subst c3. discriminate Hl. }
        destruct (Ascii.eqb c3 "169") eqn:E4; [|reflexivity].
        apply Ascii.eqb_eq in E4. subst c3. discriminate Hp. }
      rewrite (squeeze_lead_226 _ _ _ E).
      rewrite (squeeze_second "226" c2), (squeeze_cont c3); auto.
    + rewrite (squeeze_high c1), (squeeze_second c1 c2), (squeeze_cont c3); auto.
  - rewrite (squeeze_high c1), (squeeze_second c1 c2), (squeeze_cont c3),
      (squeeze_cont c4); auto.
    apply (lead_not_226 _ _ Hw). discriminate.
Qed.

Lemma copied_escape_rune (q : string) : is_seq q = true -> copied true (escape_rune q).
Proof.
  intros H. unfold escape_rune.
  destruct (String.eqb q line_sep) eqn:El; [intros t; copy_piece t|].
  destruct (String.eqb q para_sep) eqn:Ep; [intros t; copy_piece t|].
  apply copied_seq; assumption.
Qed.

Lemma copied_escaped (s : string) : copied true (escaped s).
Proof.
  apply (map_runes_pieces (copied true)).
  - apply copied_nil.
  - apply copied_app.
  - apply copied_escape_ascii.
  - apply copied_escape_rune.
  - intros t. copy_piece t.
Qed.

Lemma copied_quote (s : string) : copied false (quote s).
Proof.
  intros t. unfold quote. rewrite !sapp_cons, !sapp_assoc.
  change (squeeze false false (String dquote ?X))
    with (String dquote (squeeze true false X)).
  rewrite copied_escaped. reflexivity.
Qed.

Lemma copied_plain (p : string) :
  all_chars (fun c => negb (is_space c || Ascii.eqb c dquote)) p = true ->
  copied false p.
Proof.
  induction p as [|c p IH]; intros H t; [reflexivity|].
  cbn [all_chars] in H. apply andb_true_iff in H as [Hc Hp].
  apply negb_true_iff, orb_false_iff in Hc as [Hs Hq].
  rewrite sapp_cons. cbn [squeeze]. rewrite Hs, Hq, (IH Hp). reflexivity.
Qed.

Lemma copied_number (lit : string) : is_number lit = true -> copied false lit.
Proof.
  intros H. apply copied_plain. apply (all_chars_impl is_num_char).
  - intros c. destruct c as [[] [] [] [] [] [] [] []]; intros Hc;
      try discriminate Hc; reflexivity.
  - apply is_number_chars, H.
Qed.

Lemma copied_join (b : bool) (sep : string) (l : list string) :
  copied b sep -> Forall (copied b) l -> copied b (join sep l).
Proof.
  intros Hsep. unfold join. induction 1 as [|y l Hy Hl IH]; [apply copied_nil|].
  destruct l as [|z l]; [exact Hy|].
  change (String.concat sep (y :: z :: l))
    with (y +:+ sep +:+ String.concat sep (z :: l)).
  apply copied_app; [exact Hy|]. apply copied_app; [exact Hsep | exact IH].
Qed.

Lemma copied_marshal (n : nat) (v : any) :
  wf v -> (String.length (marshal_any v) <= n)%nat -> copied false (marshal_any v).
Proof.
  revert v. induction n as [|n IH]; intros v Hwf Hlen.
  { destruct (marshal_head v Hwf) as (c & r & E & _). rewrite E in Hlen.
    simpl in Hlen. lia. }
  destruct Hwf as [ | b | lit Hlit | z | s Hs | l Hl | m Hm ].
  - intros t. reflexivity.
  - destruct b; intros t; reflexivity.
  - apply copied_number, Hlit.
  - apply copied_number, is_number_itoa.
  - apply copied_quote.
  - cbn [marshal_any] in *. rewrite !length_sapp in Hlen. simpl in Hlen.
    apply (copied_app _ "["); [intros t; reflexivity|].
    apply copied_app; [|intros t; reflexivity].
    apply copied_join; [intros t; reflexivity|].
    apply Forall_fmap, Forall_forall. intros y Hy. cbn [compose].
    rewrite Forall_forall in Hl. apply IH; [apply Hl, Hy|].
    pose proof (length_join_elem "," (marshal_any y) (marshal_any <$> l)) as Hle.
    rewrite list_elem_of_fmap in Hle. specialize (Hle ltac:(eauto)). lia.
  - cbn [marshal_any] in *. rewrite !length_sapp in Hlen. simpl in Hlen.
    apply (copied_app _ "{"); [intros t; reflexivity|].
    apply copied_app; [|intros t; reflexivity].
    apply copied_join; [intros t; reflexivity|].
    apply Forall_fmap, Forall_forall. intros [k e] Hin.
    pose proof (length_join_elem "," (member_text (k, e))
                  (member_text <$> merge_sort key_le (map_to_list (marshal_any <$> m))))
      as Hle.
    rewrite list_elem_of_fmap in Hle. specialize (Hle ltac:(eauto)).
    rewrite merge_sort_Permutation in Hin.
    apply elem_of_map_to_list in Hin. apply lookup_fmap_Some in Hin as (x & <- & Hx).
    cbn [compose]. unfold member_text in *. cbn [fst snd] in *.
    rewrite !length_sapp in Hle.
    apply copied_app; [apply copied_quote|].
    apply (copied_app _ ":"); [intros t; reflexivity|].
    apply IH; [apply (Hm k x Hx) | lia].
Qed.

Lemma squeeze_marshal (v : any) :
  wf v -> squeeze false false (marshal_any v) = marshal_any v.
Proof.
  intros H. pose proof (copied_marshal _ v H (le_n _) "") as E.
  rewrite sapp_nil_r in E. rewrite E. apply sapp_nil_r.
Qed.

(** An encoded value is a raw message that marshals to itself. *)
Lemma marshal_raw_marshal (v : any) :
  wf v -> marshal_raw (marshal_any v) = Some (marshal_any v).
Proof.
  intros H. unfold marshal_raw, compact.
  rewrite (marshal_valid v H), (squeeze_marshal v H).
  destruct (marshal_any v) eqn:E; [|reflexivity].
  contradiction (marshal_nonempty v H).
Qed.

(** ** The fuel of the parser

    [parse] gives [parse_value] one unit of fuel more than the text has
    characters. That is enough: a value that some amount of fuel reads is
    read with that much fuel. *)

Lemma skip_space_length (s : string) :
  (String.length (skip_space s) <= String.length s)%nat.
Proof.
  induction s as [|c s IH]; [reflexivity|]. cbn [skip_space].
  destruct (is_space c); simpl in *; lia.
Qed.

Lemma skip_space_cons_length (s : string) (c : ascii) (r : string) :
  skip_space s = String c r -> (String.length r < String.length s)%nat.
Proof.
  intros E. pose proof (skip_space_length s) as H. rewrite E in H. simpl in H. lia.
Qed.

Lemma string_token_length (s t r : string) :
  string_token s = Some (t, r) -> (String.length r < String.length s)%nat.
Proof.
  remember (String.length s) as n eqn:En. revert s t r En.
  induction n as [n IH] using lt_wf_ind. intros s t r ->.
  destruct s as [|c s]; [discriminate|]. cbn [string_token].
  destruct (Ascii.eqb c dquote); [intros [= <- <-]; simpl; lia|].
  destruct (Ascii.eqb c backslash).
  - destruct s as [|e s1]; [discriminate|].
    destruct (Ascii.eqb e "u").
    + destruct s1 as [|h1 [|h2 [|h3 [|h4 s2]]]]; try discriminate.
      destruct (is_hex h1 && is_hex h2 && is_hex h3 && is_hex h4); [|discriminate].
      destruct (string_token s2) as [[t' r']|] eqn:E; [|discriminate].
      simpl. intros [= <- <-].
      specialize (IH (String.length s2) ltac:(simpl; lia) s2 t' r' eq_refl E).
      simpl. lia.
    + destruct (is_simple_escape e); [|discriminate].
      destruct (string_token s1) as [[t' r']|] eqn:E; [|discriminate].
      simpl. intros [= <- <-].
      specialize (IH (String.length s1) ltac:(simpl; lia) s1 t' r' eq_refl E).
      simpl. lia.
  - destruct (code c <? 32)%N; [discriminate|].
    destruct (string_token s) as [[t' r']|] eqn:E; [|discriminate].
    simpl. intros [= <- <-].
    specialize (IH (String.length s) ltac:(simpl; lia) s t' r' eq_refl E).
    simpl. lia.
Qed.

Lemma strip_prefix_length (p s r : string) :
  strip_prefix p s = Some r -> (String.length r <= String.length s)%nat.
Proof.
  revert s. induction p as [|a p IH]; intros s; cbn [strip_prefix].
  - intros [= <-]. lia.
  - destruct s as [|b s]; [discriminate|].
    destruct (Ascii.eqb a b); [|discriminate].
    intros H. specialize (IH _ H). simpl. lia.
Qed.

Lemma starts_with_length (c : ascii) (s r : string) :
  starts_with c s = Some r -> (String.length r < String.length s)%nat.
Proof.
  destruct s as [|d s]; [discriminate|]. cbn.
  destruct (Ascii.eqb c d); [|discriminate]. intros [= <-]. lia.
Qed.

Lemma number_token_length (s tok r : string) :
  span is_num_char s = (tok, r) -> is_number tok = true ->
  (String.length r < String.length s)%nat.
Proof.
  intros E Hn. destruct (span_split is_num_char s) as [H _].
  rewrite E in H. cbn [fst snd] in H. rewrite H, length_sapp.
  destruct tok; [discriminate Hn|]. simpl. lia.
Qed.

Lemma parse_items_stable (pv pv' : parser tree) (k : nat) :
  forall s l r,
    stable pv pv' (String.length s) ->
    parse_items pv k s = Some (l, r) ->
    forall k', (String.length s <= k')%nat ->
      parse_items pv' k' s = Some (l, r) /\ (String.length r < String.length s)%nat.
Proof.
  induction k as [|k IH]; intros s l r Hpv; [discriminate|].
  cbn [parse_items]. destruct (pv s) as [[v r0]|] eqn:Ev; [|discriminate]. simpl.
  destruct (Hpv s v r0 ltac:(lia) Ev) as [Ev' Hr0].
  destruct (skip_space r0) as [|c r1] eqn:Es; [discriminate|].
  pose proof (skip_space_cons_length _ _ _ Es) as Hr1.
  intros H k' Hk'. destruct k' as [|k']; [lia|].
  cbn [parse_items]. rewrite Ev'. simpl. rewrite Es.
  destruct (Ascii.eqb c ",").
  - destruct (parse_items pv k r1) as [[l' r2]|] eqn:El; [|discriminate].
    simpl in H. injection H as <- <-.
    destruct (IH r1 l' r2) with (k' := k') as [El' Hr2]; [|exact El|lia|].
    { intros s' t' r' Hs'. apply Hpv. lia. }
    rewrite El'. simpl. split; [reflexivity|lia].
  - destruct (Ascii.eqb c "]"); [|discriminate].
    injection H as <- <-. split; [reflexivity|lia].
Qed.

Lemma parse_members_stable (pv pv' : parser tree) (k : nat) :
  forall s ms r,
    stable pv pv' (String.length s) ->
    parse_members pv k s = Some (ms, r) ->
    forall k', (String.length s <= k')%nat ->
      parse_members pv' k' s = Some (ms, r) /\ (String.length r < String.length s)%nat.
Proof.
  induction k as [|k IH]; intros s ms r Hpv; [discriminate|].
  cbn [parse_members].
  destruct (skip_space s) as [|q r0] eqn:Es0; [discriminate|].
  pose proof (skip_space_cons_length _ _ _ Es0) as Hr0.
  destruct (Ascii.eqb q dquote) eqn:Eq; [|discriminate].
  destruct (string_token r0) as [[key r1]|] eqn:Ek; [|discriminate]. simpl.
  pose proof (string_token_length _ _ _ Ek) as Hr1.
  destruct (skip_space r1) as [|c r2] eqn:Es1; [discriminate|].
  pose proof (skip_space_cons_length _ _ _ Es1) as Hr2.
  destruct (Ascii.eqb c ":") eqn:Ec; [|discriminate].
  pose proof (skip_space_length r2) as Hs0.
  destruct (pv (skip_space r2)) as [[v r3]|] eqn:Ev; [|discriminate]. simpl.
  destruct (Hpv (skip_space r2) v r3 ltac:(lia) Ev) as [Ev' Hr3].
  destruct (skip_space r3) as [|d r4] eqn:Es3; [discriminate|].
  pose proof (skip_space_cons_length _ _ _ Es3) as Hr4.
  intros H k' Hk'. destruct k' as [|k']; [lia|].
  cbn [parse_members]. rewrite Es0, Eq, Ek. simpl. rewrite Es1, Ec, Ev'. simpl.
  rewrite Es3.
  destruct (Ascii.eqb d ",").
  - destruct (parse_members pv k r4) as [[ms' r5]|] eqn:Em; [|discriminate].
    simpl in H. injection H as <- <-.
    destruct (IH r4 ms' r5) with (k' := k') as [Em' Hr5]; [|exact Em|lia|].
    { intros s' t' r' Hs'. apply Hpv. lia. }
    rewrite Em'. simpl. split; [reflexivity|lia].
  - destruct (Ascii.eqb d "}"); [|discriminate].
    injection H as <- <-. split; [reflexivity|lia].
Qed.

Lemma parse_value_stable (n : nat) :
  forall s t r,
    parse_value n s = Some (t, r) ->
    forall m, (String.length s < m)%nat ->
      parse_value m s = Some (t, r) /\ (String.length r < String.length s)%nat.
Proof.
  induction n as [|n IH]; intros s t r; [discriminate|].
  cbn [parse_value].
  destruct (skip_space s) as [|c r0] eqn:Es; [discriminate|].
  pose proof (skip_space_cons_length _ _ _ Es) as Hr0.
  intros H m Hm. destruct m as [|m]; [lia|].
  cbn [parse_value]. rewrite Es.
  assert (Hst : stable (parse_value n) (parse_value m) (String.length r0)).
  { intros s' t' r' Hs' E. apply (IH _ _ _ E). lia. }
  destruct (Ascii.eqb c "{").
  { destruct (starts_with "}" (skip_space r0)) as [r1|] eqn:E1.
    - injection H as <- <-. split; [reflexivity|].
      apply starts_with_length in E1. pose proof (skip_space_length r0). lia.
    - destruct (parse_members (parse_value n) n r0) as [[ms r1]|] eqn:Em; [|discriminate].
      simpl in H. injection H as <- <-.
      destruct (parse_members_stable _ _ _ _ _ _ Hst Em m) as [Em' Hr1]; [lia|].
      rewrite Em'. simpl. split; [reflexivity|lia]. }
  destruct (Ascii.eqb c "[").
  { destruct (starts_with "]" (skip_space r0)) as [r1|] eqn:E1.
    - injection H as <- <-. split; [reflexivity|].
      apply starts_with_length in E1. pose proof (skip_space_length r0). lia.
    - destruct (parse_items (parse_value n) n r0) as [[l r1]|] eqn:El; [|discriminate].
      simpl in H. injection H as <- <-.
      destruct (parse_items_stable _ _ _ _ _ _ Hst El m) as [El' Hr1]; [lia|].
      rewrite El'. simpl. split; [reflexivity|lia]. }
  destruct (Ascii.eqb c dquote).
  { destruct (string_token r0) as [[raw r1]|] eqn:E1; [|discriminate].
    simpl in H. injection H as <- <-. simpl. split; [reflexivity|].
    apply string_token_length in E1. lia. }
  destruct (Ascii.eqb c "t").
  { destruct (strip_prefix "rue" r0) as [r1|] eqn:E1; [|discriminate].
    simpl in H. injection H as <- <-. simpl. split; [reflexivity|].
    apply strip_prefix_length in E1. lia. }
  destruct (Ascii.eqb c "f").
  { destruct (strip_prefix "alse" r0) as [r1|] eqn:E1; [|discriminate].
    simpl in H. injection H as <- <-. simpl. split; [reflexivity|].
    apply strip_prefix_length in E1. lia. }
  destruct (Ascii.eqb c "n").
  { destruct (strip_prefix "ull" r0) as [r1|] eqn:E1; [|discriminate].
    simpl in H. injection H as <- <-. simpl. split; [reflexivity|].
    apply strip_prefix_length in E1. lia. }
  destruct (Ascii.eqb c "-" || is_digit c); [|discriminate].
  destruct (span is_num_char (String c r0)) as [tok r1] eqn:E1.
  destruct (is_number tok) eqn:En; [|discriminate].
  injection H as <- <-. split; [reflexivity|].
  apply (number_token_length _ _ _ E1) in En. simpl in En. lia.
Qed.

(** A text that some fuel reads as one value followed by whitespace is
    valid for [parse]. *)
Lemma parse_fuel_enough (n : nat) (s : bytes) (t : tree) (r : string) :
  parse_value n s = Some (t, r) -> skip_space r = "" -> parse s = Some t.
Proof.
  intros H Hr. unfold parse.
  destruct (parse_value_stable _ _ _ _ H (S (String.length s))) as [-> _]; [lia|].
  simpl. rewrite Hr. reflexivity.
Qed.

(** ** Decoded values are well formed *)

Lemma parse_items_all (Q : tree -> Prop) (pv : parser tree) :
  (forall s t r, pv s = Some (t, r) -> Q t) ->
  forall k s l r, parse_items pv k s = Some (l, r) -> Forall Q l.
Proof.
  intros Hpv. induction k as [|k IH]; intros s l r; [discriminate|].
  cbn [parse_items]. destruct (pv s) as [[v r0]|] eqn:Ev; [|discriminate]. simpl.
  destruct (skip_space r0) as [|c r1]; [discriminate|].
  destruct (Ascii.eqb c ",").
  - destruct (parse_items pv k r1) as [[l' r2]|] eqn:El; [|discriminate].
    simpl. intros [= <- <-]. constructor; [eapply Hpv, Ev | eapply IH, El].
  - destruct (Ascii.eqb c "]"); [|discriminate].
    intros [= <- <-]. constructor; [eapply Hpv, Ev | constructor].
Qed.

Lemma parse_members_all (Q : tree -> Prop) (pv : parser tree) :
  (forall s t r, pv s = Some (t, r) -> Q t) ->
  forall k s ms r, parse_members pv k s = Some (ms, r) ->
    Forall (fun m => utf8 m.1.1 /\ Q m.2) ms.
Proof.
  intros Hpv. induction k as [|k IH]; intros s ms r; [discriminate|].
  cbn [parse_members]. destruct (skip_space s) as [|q r0]; [discriminate|].
  destruct (Ascii.eqb q dquote); [|discriminate].
  destruct (string_token r0) as [[key r1]|]; [|discriminate]. simpl.
  destruct (skip_space r1) as [|c r2]; [discriminate|].
  destruct (Ascii.eqb c ":"); [|discriminate].
  destruct (pv (skip_space r2)) as [[v r3]|] eqn:Ev; [|discriminate]. simpl.
  destruct (skip_space r3) as [|d r4]; [discriminate|].
  destruct (Ascii.eqb d ",").
  - destruct (parse_members pv k r4) as [[ms' r5]|] eqn:Em; [|discriminate].
    simpl. intros [= <- <-]. constructor; [|eapply IH, Em].
    split; [apply unquote_utf8 | eapply Hpv, Ev].
  - destruct (Ascii.eqb d "}"); [|discriminate].
    intros [= <- <-]. constructor; [|constructor].
    split; [apply unquote_utf8 | eapply Hpv, Ev].
Qed.

Lemma fmap_fixed_list {A} (g : A -> A) (l : list A) :
  Forall (fun x => g x = x) l -> g <$> l = l.
Proof. induction 1 as [|x l Hx _ IH]; [reflexivity|]. cbn. rewrite Hx, IH. reflexivity. Qed.

Lemma fmap_fixed_map {A} (g : A -> A) (m : gmap string A) :
  map_Forall (fun _ x => g x = x) m -> g <$> m = m.
Proof.
  intros H. apply map_eq. intros k. rewrite lookup_fmap.
  destruct (m !! k) as [x|] eqn:E; [|reflexivity]. simpl. rewrite (H k x E).
  reflexivity.
Qed.

Lemma decoded_atom (v : any) : wf v -> floatify v = v -> decoded v.
Proof. split; assumption. Qed.

Lemma parse_value_good (n : nat) (s : string) (t : tree) (r : string) :
  parse_value n s = Some (t, r) -> tree_good t.
Proof.
  revert s t r. induction n as [|n IH]; intros s t r; [discriminate|].
  assert (IH' : forall s t r, parse_value n s = Some (t, r) -> decoded (to_any t)).
  { intros s' t' r' H. apply (IH _ _ _ H). }
  cbn [parse_value]. destruct (skip_space s) as [|c r0]; [discriminate|].
  destruct (Ascii.eqb c "{").
  { destruct (starts_with "}" (skip_space r0)).
    - intros [= <- <-]. split; [|constructor]. split; [|reflexivity].
      constructor. apply map_Forall_empty.
    - destruct (parse_members (parse_value n) n r0) as [[ms r1]|] eqn:Em; [|discriminate].
      simpl. intros [= <- <-].
      pose proof (parse_members_all _ _ IH' _ _ _ _ Em) as Hall.
      rewrite Forall_forall in Hall.
      assert (Hin : forall k x,
                (list_to_map (reverse ((fun m : string * string * tree =>
                                          (m.1.1, to_any m.2)) <$> ms))
                   : gmap string any) !! k = Some x ->
                utf8 k /\ decoded x).
      { intros k x Hx.
        apply elem_of_list_to_map_2, elem_of_reverse, list_elem_of_fmap in Hx
          as (m & E & Hm).
        injection E as -> ->. apply (Hall m), Hm. }
      split.
      + cbn [to_any]. split.
        * constructor. intros k x Hx. destruct (Hin k x Hx) as [Hu [Hw _]]. auto.
        * cbn [floatify]. f_equal. apply fmap_fixed_map.
          intros k x Hx. destruct (Hin k x Hx) as [_ [_ Hf]]. exact Hf.
      + apply Forall_forall. intros m Hm. apply (Hall m), Hm. }
  destruct (Ascii.eqb c "[").
  { destruct (starts_with "]" (skip_space r0)).
    - intros [= <- <-]. split; [|exact I]. split; [|reflexivity].
      constructor. constructor.
    - destruct (parse_items (parse_value n) n r0) as [[l r1]|] eqn:El; [|discriminate].
      simpl. intros [= <- <-].
      pose proof (parse_items_all _ _ IH' _ _ _ _ El) as Hall.
      split; [|exact I]. cbn [to_any]. split.
      + constructor. apply Forall_fmap. eapply Forall_impl; [exact Hall|].
        intros x [Hw _]. exact Hw.
      + cbn [floatify]. f_equal. apply fmap_fixed_list, Forall_fmap.
        eapply Forall_impl; [exact Hall|]. intros x [_ Hf]. exact Hf. }
  destruct (Ascii.eqb c dquote).
  { destruct (string_token r0) as [[raw r1]|]; [|discriminate].
    simpl. intros [= <- <-]. split; [|exact I].
    apply decoded_atom; [|reflexivity]. constructor. apply unquote_utf8. }
  destruct (Ascii.eqb c "t").
  { destruct (strip_prefix "rue" r0); [|discriminate]. simpl. intros [= <- <-].
    split; [|exact I]. apply decoded_atom; [constructor | reflexivity]. }
  destruct (Ascii.eqb c "f").
  { destruct (strip_prefix "alse" r0); [|discriminate]. simpl. intros [= <- <-].
    split; [|exact I]. apply decoded_atom; [constructor | reflexivity]. }
  destruct (Ascii.eqb c "n").
  { destruct (strip_prefix "ull" r0); [|discriminate]. simpl. intros [= <- <-].
    split; [|exact I]. apply decoded_atom; [constructor | reflexivity]. }
  destruct (Ascii.eqb c "-" || is_digit c); [|discriminate].
  destruct (span is_num_char (String c r0)) as [tok r1].
  destruct (is_number tok) eqn:En; [|discriminate].
  intros [= <- <-]. split; [|exact I].
  apply decoded_atom; [constructor; exact En | reflexivity].
Qed.

Lemma parse_good (s : bytes) (t : tree) : parse s = Some t -> tree_good t.
Proof.
  unfold parse.
  destruct (parse_value (S (String.length s)) s) as [[t' r]|] eqn:Ep; [|discriminate].
  simpl. destruct (skip_space r); [|discriminate]. intros [= <-].
  apply (parse_value_good _ _ _ _ Ep).
Qed.

(** * Properties of the plugin *)

(** ** Envelopes and payloads *)

Lemma unmarshal_map_decoded (d : bytes) (payload : gmap string any) :
  unmarshal_map d = Some payload -> decoded (AMap payload).
Proof.
  unfold unmarshal_map. destruct (parse d) as [t|] eqn:Ep; [|discriminate].
  apply parse_good in Ep as [Hd _].
  destruct t as [| | | | |ms]; try discriminate.
  - intros [= <-]. split; [|reflexivity]. constructor. apply map_Forall_empty.
  - cbn [to_any] in *. intros [= <-]. exact Hd.
Qed.

Lemma unmarshal_map_wf (d : bytes) (payload : gmap string any) :
  unmarshal_map d = Some payload -> wf (AMap payload).
Proof. intros H. apply (unmarshal_map_decoded _ _ H). Qed.

Lemma parse_int64_range (lit : string) (n : Z) : parse_int64 lit = Some n -> int64 n.
Proof.
  unfold parse_int64, int64.
  destruct (NilZero.int_of_string lit) as [d|]; [|discriminate]. simpl.
  destruct (- 2 ^ 63 <=? Z.of_int d) eqn:E1; [|discriminate].
  destruct (Z.of_int d <? 2 ^ 63) eqn:E2; [|discriminate].
  intros [= <-]. apply Z.leb_le in E1. apply Z.ltb_lt in E2. auto.
Qed.

Lemma store_envelope_ok key raw x e e' :
  decoded (to_any x) -> envelope_ok e ->
  store_responseEnvelope key raw x e = Some e' -> envelope_ok e'.
Proof.
  intros [Hx _] (Hc & Hr & Hm). unfold store_responseEnvelope.
  destruct (field_of _ key) as [fld|]; [|intros [= <-]; (split; [|split]; assumption)].
  destruct (String.eqb fld "code").
  { destruct x; try discriminate; cbn [int_field mbind option_bind].
    - intros [= <-]. (split; [|split]; assumption).
    - destruct (parse_int64 lit) as [n|] eqn:E; [|discriminate].
      intros [= <-]. split; [apply (parse_int64_range _ _ E)|split; assumption]. }
  destruct (String.eqb fld "reason").
  { destruct x; try discriminate; cbn [string_field mbind option_bind];
      intros [= <-]; (split; [|split]; try assumption).
    cbn [to_any] in Hx. inversion Hx. assumption. }
  destruct (String.eqb fld "msg").
  { destruct x; try discriminate; cbn [string_field mbind option_bind];
      intros [= <-]; (split; [|split]; try assumption).
    cbn [to_any] in Hx. inversion Hx. assumption. }
  intros [= <-]. (split; [|split]; assumption).
Qed.

(** A decoded envelope has its code in the range of [int] and well-formed
    strings. *)
Lemma unmarshal_envelope_ok (b : bytes) (e : responseEnvelope) :
  unmarshal_responseEnvelope b = Some e -> envelope_ok e.
Proof.
  unfold unmarshal_responseEnvelope, unmarshal_struct.
  destruct (parse b) as [t|] eqn:Ep; [|discriminate].
  apply parse_good in Ep as [_ Hms].
  assert (H0 : envelope_ok zero_envelope).
  { split; [unfold int64; cbn; lia|]. split; constructor. }
  destruct t as [| | | | |ms]; cbn [decode_struct fst snd]; try discriminate.
  { intros [= <-]. exact H0. }
  revert H0. generalize zero_envelope. generalize true.
  induction Hms as [|m ms Hm _ IH]; intros ok e0 H0; cbn [foldl fst snd].
  - destruct ok; [|discriminate]. intros [= <-]. exact H0.
  - destruct (store_responseEnvelope m.1.1 m.1.2 m.2 e0) as [e1|] eqn:E.
    + apply IH. apply (store_envelope_ok _ _ _ _ _ Hm H0 E).
    + apply IH. exact H0.
Qed.

Lemma parse_int64_itoa (c : Z) : int64 c -> parse_int64 (itoa c) = Some c.
Proof.
  intros [H1 H2]. unfold parse_int64, itoa. rewrite NilZero.isi.
  - cbn [mbind option_bind]. rewrite DecimalZ.of_to.
    rewrite (proj2 (Z.leb_le _ _) H1), (proj2 (Z.ltb_lt _ _) H2). reflexivity.
  - destruct c; cbn; try discriminate.
    intros [= E]. apply (Unsigned.to_uint_nonnil _ E).
  - destruct c; cbn; try discriminate.
    intros [= E]. apply (Unsigned.to_uint_nonnil _ E).
Qed.

Lemma store_code (raw : bytes) (c : Z) (e : responseEnvelope) :
  int64 c ->
  store_responseEnvelope "code" raw (TNum (itoa c)) e
  = Some {| Code := c; Reason := Reason e; Message := Message e; Data := Data e |}.
Proof.
  intros H.
  transitivity (n ← parse_int64 (itoa c);
                Some {| Code := n; Reason := Reason e; Message := Message e;
                        Data := Data e |}); [reflexivity|].
  rewrite (parse_int64_itoa c H). reflexivity.
Qed.

(** The text of an encoded envelope whose data is an encoded value: an
    object with the four members, in the order of the fields. *)
Lemma parse_envelope_text (c : Z) (r m : string) (v : any) :
  utf8 r -> utf8 m -> wf v ->
  exists out ms,
    marshal_responseEnvelope
      {| Code := c; Reason := r; Message := m; Data := marshal_any v |} = Some out
    /\ parse out = Some (TObj ms)
    /\ (fun mm => (mm.1, to_any mm.2)) <$> ms
       = [("code", itoa c, AFloat64 (itoa c)); ("reason", quote r, AString r);
          ("msg", quote m, AString m); ("data", marshal_any v, floatify v)].
Proof.
  intros Hr Hm Hv.
  set (kvs := [("code", itoa c); ("reason", quote r); ("msg", quote m);
               ("data", marshal_any v)]).
  set (out := "{" +:+ join "," (member_text <$> kvs) +:+ "}").
  exists out.
  assert (Hout : marshal_responseEnvelope
                   {| Code := c; Reason := r; Message := m; Data := marshal_any v |}
                 = Some out).
  { unfold marshal_responseEnvelope. cbn [Data Code Reason Message].
    rewrite (marshal_raw_marshal v Hv). cbn [mbind option_bind]. f_equal.
    unfold out, kvs, join, member_text. cbn [fmap list_fmap String.concat fst snd].
    rewrite !sapp_assoc. reflexivity. }
  set (val := fun kv : string * string =>
                if String.eqb kv.1 "code" then AFloat64 (itoa c)
                else if String.eqb kv.1 "reason" then AString r
                else if String.eqb kv.1 "msg" then AString m
                else floatify v).
  set (n := String.length out).
  assert (Hn : n = (String.length (itoa c) + String.length (quote r)
                    + String.length (quote m) + String.length (marshal_any v) + 34)%nat).
  { unfold n, out, kvs, join, member_text.
    cbn [fmap list_fmap String.concat fst snd]. rewrite !length_sapp.
    cbn [String.length].
    pose proof (eq_refl : String.length (quote "code") = 6%nat).
    pose proof (eq_refl : String.length (quote "reason") = 8%nat).
    pose proof (eq_refl : String.length (quote "msg") = 5%nat).
    pose proof (eq_refl : String.length (quote "data") = 6%nat). lia. }
  assert (Hkey : forall k, all_chars is_ascii k = true -> utf8 k).
  { intros k Hk. apply utf8_of_prefix, utf8_prefix_all_ascii, Hk. }
  assert (Hkvs : Forall (fun kv => utf8 kv.1 /\ value_text (parse_value n) kv.2 (val kv))
                   kvs).
  { unfold kvs. repeat apply Forall_cons_2; try apply Forall_nil_2;
      (split; [apply Hkey; reflexivity|]).
    - change (value_text (parse_value n) (marshal_any (AInt c)) (floatify (AInt c))).
      apply (reads_value_text _ n); [apply parse_marshal | constructor |].
      cbn [marshal_any]. lia.
    - change (value_text (parse_value n) (marshal_any (AString r))
                (floatify (AString r))).
      apply (reads_value_text _ n); [apply parse_marshal | constructor; exact Hr |].
      cbn [marshal_any]. lia.
    - change (value_text (parse_value n) (marshal_any (AString m))
                (floatify (AString m))).
      apply (reads_value_text _ n); [apply parse_marshal | constructor; exact Hm |].
      cbn [marshal_any]. lia.
    - change (value_text (parse_value n) (marshal_any v) (floatify v)).
      apply (reads_value_text _ n); [apply parse_marshal | exact Hv | lia]. }
  destruct (parse_members_raw (parse_value n) val kvs Hkvs ltac:(discriminate) n "")
    as (ms & Hms & Hraw); [simpl; lia|].
  exists ms. split; [exact Hout|]. split; [|exact Hraw].
  assert (Ep : parse_value (S n) out = Some (TObj ms, "")).
  { unfold out. rewrite sapp_cons, sapp_nil_l, parse_value_object.
    assert (Es : starts_with "}" (skip_space (join "," (member_text <$> kvs) +:+ "}"))
                 = None) by reflexivity.
    rewrite Es, Hms. reflexivity. }
  unfold parse. fold n. rewrite Ep. reflexivity.
Qed.

(** Decoding an encoded envelope whose data is an encoded value gives the
    envelope back. *)
Lemma unmarshal_marshal_envelope (c : Z) (r m : string) (v : any) :
  int64 c -> utf8 r -> utf8 m -> wf v ->
  exists out,
    marshal_responseEnvelope
      {| Code := c; Reason := r; Message := m; Data := marshal_any v |} = Some out
    /\ unmarshal_responseEnvelope out
       = Some {| Code := c; Reason := r; Message := m; Data := marshal_any v |}.
Proof.
  intros Hc Hr Hm Hv.
  destruct (parse_envelope_text c r m v Hr Hm Hv) as (out & ms & Hout & Hparse & Hraw).
  exists out. split; [exact Hout|].
  unfold unmarshal_responseEnvelope, unmarshal_struct. rewrite Hparse.
  destruct ms as [|[[k1 w1] t1] [|[[k2 w2] t2] [|[[k3 w3] t3] [|[[k4 w4] t4] [|? ?]]]]];
    try discriminate Hraw.
  cbn [fmap list_fmap fst snd] in Hraw.
  injection Hraw as -> -> Ht1 -> -> Ht2 -> -> Ht3 -> -> _.
  destruct t1; try discriminate Ht1. injection Ht1 as ->.
  destruct t2; try discriminate Ht2. injection Ht2 as ->.
  destruct t3; try discriminate Ht3. injection Ht3 as ->.
  cbn [decode_struct foldl fst snd].
  rewrite (store_code _ c _ Hc). reflexivity.
Qed.

Lemma unmarshal_map_data d payload :
  unmarshal_map d = Some payload -> d <> "" /\ (d = "null" -> payload = ∅).
Proof.
  intros H. split.
  - intros ->. discriminate H.
  - intros ->. vm_compute in H. injection H as <-. reflexivity.
Qed.

Lemma unmarshal_empty_body : unmarshal_responseEnvelope "" = None.
Proof. reflexivity. Qed.

Lemma marshal_forbidden : marshal_responseEnvelope forbidden = Some forbidden_body.
Proof. vm_compute. reflexivity. Qed.

Lemma empty_map_owners :
  extractAnswerOwnerID ∅ = "" /\ extractQuestionOwnerID ∅ = "".
Proof. split; reflexivity. Qed.

(** ** The middleware once it engages *)

Lemma recorder_call_writer r c : ResponseWriter (recorder_call r c) = ResponseWriter r.
Proof.
  destruct c; simpl; try reflexivity.
  unfold recorder_WriteHeaderNow. destruct (status r =? 0); reflexivity.
Qed.

Lemma Next_recorded_writer next r :
  ResponseWriter (Next_recorded next r) = ResponseWriter r.
Proof.
  unfold Next_recorded. revert r.
  induction next as [|c next IH]; intros r; simpl; [reflexivity|].
  rewrite IH. apply recorder_call_writer.
Qed.

Lemma captured_writer next ctx : ResponseWriter (captured next ctx) = Writer ctx.
Proof. unfold captured. rewrite Next_recorded_writer. reflexivity. Qed.

Lemma set_Writer_same ctx : set_Writer ctx (Writer ctx) = ctx.
Proof. destruct ctx; reflexivity. Qed.

Lemma eqb_refl_false (s t : string) : s <> t -> String.eqb s t = false.
Proof. apply String.eqb_neq. Qed.

(** What the middleware writes to the real writer when it engages. *)
Lemma middleware_engaged a next ctx userID :
  engaged a ctx userID ->
  answerVisibilityMiddleware a next ctx =
    let r := captured next ctx in
    let '(filtered, newStatus, changed) :=
      filterAnswerResponse (Path ctx) userID (body r) in
    Some (if changed
          then writeResponse ctx (if newStatus =? 0 then statusCode r else newStatus) filtered
          else writeResponse ctx (statusCode r) (body r)).
Proof.
  intros (Ha & Hp & Hu & Hne).
  unfold answerVisibilityMiddleware. rewrite Ha, Hu. simpl.
  replace (negb (String.eqb (Path ctx) pathAnswerInfo)
           && negb (String.eqb (Path ctx) pathAnswerList)) with false
    by (destruct Hp as [-> | ->]; reflexivity).
  rewrite (eqb_refl_false _ _ Hne).
  fold (captured next ctx). rewrite captured_writer, set_Writer_same.
  destruct (filterAnswerResponse _ _ _) as [[filtered newStatus] changed].
  destruct changed; simpl; [|reflexivity].
  destruct (newStatus =? 0); reflexivity.
Qed.

(** ** The checks of [filterAnswerResponse] before it dispatches *)

Lemma length_zero_iff (s : string) : (String.length s =? 0)%nat = true <-> s = "".
Proof. destruct s; simpl; split; congruence. Qed.

Lemma filterAnswerResponse_decoded path userID body e :
  unmarshal_responseEnvelope body = Some e ->
  Data e <> "" -> Data e <> "null" ->
  filterAnswerResponse path userID body =
    if String.eqb path pathAnswerInfo then filterAnswerInfo e userID
    else if String.eqb path pathAnswerList then filterAnswerList e userID
    else unchanged.
Proof.
  intros He Hd Hn. unfold filterAnswerResponse.
  destruct body as [|c body]; [discriminate He|].
  simpl String.length. simpl Nat.eqb. rewrite He.
  rewrite (eqb_refl_false _ _ Hn).
  destruct (Data e) as [|d ds]; [congruence|]. reflexivity.
Qed.

Lemma filterAnswerResponse_changed path userID body out st :
  filterAnswerResponse path userID body = (out, st, true) ->
  exists e, unmarshal_responseEnvelope body = Some e
    /\ Data e <> "" /\ Data e <> "null"
    /\ ((path = pathAnswerInfo /\ filterAnswerInfo e userID = (out, st, true))
        \/ (path = pathAnswerList /\ filterAnswerList e userID = (out, st, true))).
Proof.
  unfold filterAnswerResponse.
  destruct (String.length body =? 0)%nat; [discriminate|].
  destruct (unmarshal_responseEnvelope body) as [e|]; [|discriminate].
  destruct (String.length (Data e) =? 0)%nat eqn:El; [discriminate|].
  destruct (String.eqb (Data e) "null") eqn:En; [discriminate|]. simpl.
  intros H. exists e. split; [reflexivity|].
  split; [intros E; apply length_zero_iff in E; congruence|].
  split; [apply String.eqb_neq; exact En|].
  destruct (String.eqb path pathAnswerInfo) eqn:E1.
  - left. apply String.eqb_eq in E1. auto.
  - destruct (String.eqb path pathAnswerList) eqn:E2; [|discriminate].
    right. apply String.eqb_eq in E2. auto.
Qed.

Lemma not_filterable_unchanged path userID b :
  not_filterable path b -> filterAnswerResponse path userID b = unchanged.
Proof.
  intros [H | (e & He & H)]; unfold filterAnswerResponse.
  - rewrite H. destruct (String.length b =? 0)%nat; reflexivity.
  - rewrite He. destruct (String.length b =? 0)%nat; [reflexivity|].
    destruct H as [H | [H | [-> H]]].
    + rewrite H. reflexivity.
    + rewrite H. reflexivity.
    + destruct (_ || _); [reflexivity|]. simpl.
      unfold filterAnswerInfo. rewrite H. reflexivity.
Qed.

Lemma middleware_unchanged a next ctx userID :
  engaged a ctx userID ->
  filterAnswerResponse (Path ctx) userID (body (captured next ctx)) = unchanged ->
  answerVisibilityMiddleware a next ctx =
    Some (writeResponse ctx (statusCode (captured next ctx)) (body (captured next ctx))).
Proof.
  intros He H. rewrite (middleware_engaged _ _ _ _ He). simpl. rewrite H.
  reflexivity.
Qed.

Lemma filterAnswerInfo_cases e userID :
  filterAnswerInfo e userID = unchanged
  \/ filterAnswerInfo e userID = (forbidden_body, StatusForbidden, true).
Proof.
  unfold filterAnswerInfo. rewrite marshal_forbidden.
  destruct (unmarshal_map (Data e)); [|auto].
  destruct (_ && _); [auto|]. destruct (_ || _); auto.
Qed.

(** ** The answer detail endpoint *)

(** C1. Answer detail: when the data is an object, some owner is
    extracted from it and neither extracted owner equals the caller, the
    response is changed to status 403 with the fixed forbidden envelope as
    its body, and that is what the middleware writes. *)
Theorem blocking_invariant (userID : string) (b : bytes)
    (e : responseEnvelope) (payload : gmap string any) :
  unmarshal_responseEnvelope b = Some e ->
  unmarshal_map (Data e) = Some payload ->
  extractAnswerOwnerID payload <> "" \/ extractQuestionOwnerID payload <> "" ->
  extractAnswerOwnerID payload <> userID ->
  extractQuestionOwnerID payload <> userID ->
  filterAnswerResponse pathAnswerInfo userID b = (forbidden_body, 403, true)
  /\ forall a next ctx,
       engaged a ctx userID -> Path ctx = pathAnswerInfo ->
       body (captured next ctx) = b ->
       answerVisibilityMiddleware a next ctx =
         Some (writeResponse ctx 403 forbidden_body).
Proof.
  intros He Hp Hsome Ha Hq.
  destruct (unmarshal_map_data _ _ Hp) as [Hd Hn].
  assert (Hnull : Data e <> "null").
  { intros E. specialize (Hn E). subst payload.
    destruct empty_map_owners as [E1 E2]. rewrite E1, E2 in Hsome.
    destruct Hsome; congruence. }
  assert (H : filterAnswerResponse pathAnswerInfo userID b
              = (forbidden_body, 403, true)).
  { rewrite (filterAnswerResponse_decoded _ _ _ _ He Hd Hnull). simpl.
    unfold filterAnswerInfo. rewrite Hp, marshal_forbidden.
    replace (String.eqb (extractAnswerOwnerID payload) ""
             && String.eqb (extractQuestionOwnerID payload) "") with false.
    2:{ symmetry. apply andb_false_iff.
        destruct Hsome as [H | H]; [left | right]; apply String.eqb_neq, H. }
    rewrite (eqb_refl_false _ _ Ha), (eqb_refl_false _ _ Hq). reflexivity. }
  split; [exact H|].
  intros a next ctx Hen Hpath Hb. subst b.
  rewrite (middleware_engaged _ _ _ _ Hen). simpl. rewrite Hpath, H. reflexivity.
Qed.

Lemma engaged_request (path userID : string) :
  path = pathAnswerInfo \/ path = pathAnswerList -> userID <> "" ->
  engaged registered (request path userID) userID.
Proof.
  intros Hp Hu. split; [reflexivity|]. split; [exact Hp|]. split; [reflexivity|exact Hu].
Qed.

Lemma blocking_invariant_witness :
  filterAnswerResponse pathAnswerInfo "u2" detail_u1 = (forbidden_body, 403, true)
  /\ answerVisibilityMiddleware registered (handler detail_u1) (request pathAnswerInfo "u2")
     = Some (writeResponse (request pathAnswerInfo "u2") 403 forbidden_body).
Proof.
  destruct (blocking_invariant "u2" detail_u1 detail_u1_envelope (entry_of "u1"))
    as [H1 H2].
  - vm_compute. reflexivity.
  - vm_compute. reflexivity.
  - left. vm_compute. discriminate.
  - vm_compute. discriminate.
  - vm_compute. discriminate.
  - split; [exact H1|]. apply H2.
    + apply engaged_request; [left; reflexivity | discriminate].
    + reflexivity.
    + reflexivity.
Defined.

(** ** The answer page endpoint *)

Lemma list_step_shown userID filtered item :
  list_step userID filtered item
  = (filtered ++ if decide (shown userID item) then [item] else [])%list.
Proof.
  unfold list_step.
  destruct (decide (shown userID item)) as [(entry & -> & Hne & Ho) | Hn].
  - simpl.
    replace (String.eqb (extractAnswerOwnerID entry) ""
             && String.eqb (extractQuestionOwnerID entry) "") with false.
    2:{ symmetry. apply not_true_is_false. intros E.
        apply andb_true_iff in E as [E1 E2].
        apply String.eqb_eq in E1, E2. tauto. }
    replace (String.eqb (extractAnswerOwnerID entry) userID
             || String.eqb (extractQuestionOwnerID entry) userID) with true;
      [reflexivity|].
    symmetry. apply orb_true_iff.
    destruct Ho as [Ho | Ho]; [left | right]; apply String.eqb_eq, Ho.
  - rewrite app_nil_r.
    destruct item as [| | | | | |entry]; try reflexivity. simpl.
    destruct (String.eqb (extractAnswerOwnerID entry) ""
              && String.eqb (extractQuestionOwnerID entry) "") eqn:E1; [reflexivity|].
    destruct (String.eqb (extractAnswerOwnerID entry) userID
              || String.eqb (extractQuestionOwnerID entry) userID) eqn:E2; [|reflexivity].
    exfalso. apply Hn. exists entry. split; [reflexivity|]. split.
    + intros [Ha Hq]. rewrite Ha, Hq in E1. discriminate E1.
    + apply orb_true_iff in E2 as [E2 | E2]; apply String.eqb_eq in E2; auto.
Qed.

(** The loop of [filterAnswerList] is a stable filter. *)
Lemma filtered_is_filter userID (l acc : list any) :
  foldl (list_step userID) acc l = (acc ++ filter (shown userID) l)%list.
Proof.
  revert acc. induction l as [|item l IH]; intros acc; simpl.
  - rewrite app_nil_r. reflexivity.
  - rewrite IH, list_step_shown, filter_cons.
    destruct (decide (shown userID item)); simpl.
    + rewrite <- app_assoc. reflexivity.
    + rewrite app_nil_r. reflexivity.
Qed.

Lemma filterAnswerList_decoded e userID payload l :
  unmarshal_map (Data e) = Some payload ->
  payload !! "list" = Some (ASlice l) ->
  filterAnswerList e userID =
    match marshal_responseEnvelope
            {| Code := Code e; Reason := Reason e; Message := Message e;
               Data := marshal_any (AMap (narrowed userID payload l)) |} with
    | Some out => (out, 0, true)
    | None => unchanged
    end.
Proof.
  intros Hp Hl. unfold filterAnswerList. rewrite Hp, Hl. simpl.
  rewrite filtered_is_filter. reflexivity.
Qed.


Lemma fmap_fixed_list_inv {A} (g : A -> A) (l : list A) :
  g <$> l = l -> Forall (fun x => g x = x) l.
Proof.
  induction l as [|x l IH]; [constructor|]. cbn. intros [= Hx Hl].
  constructor; auto.
Qed.





(** ** Pass-through *)

(** C3. On both endpoints and for every caller, a body that is not a valid
    envelope, or whose data is empty or null, or (answer detail) whose data
    is not an object, is reported unchanged, and the middleware writes the
    recorded status and the recorded bytes to the real writer. *)
Theorem pass_through_invariant (path userID : string) (b : bytes) :
  path = pathAnswerInfo \/ path = pathAnswerList ->
  not_filterable path b ->
  filterAnswerResponse path userID b = unchanged
  /\ forall a next ctx,
       engaged a ctx userID -> Path ctx = path -> body (captured next ctx) = b ->
       answerVisibilityMiddleware a next ctx =
         Some (writeResponse ctx (statusCode (captured next ctx)) b).
Proof.
  intros _ H. split; [apply not_filterable_unchanged, H|].
  intros a next ctx He <- <-.
  apply (middleware_unchanged _ _ _ userID); [exact He|].
  apply not_filterable_unchanged, H.
Qed.

Lemma pass_through_invariant_witness :
  filterAnswerResponse pathAnswerInfo "u1" "<html>" = unchanged
  /\ answerVisibilityMiddleware registered (handler "<html>") (request pathAnswerInfo "u1")
     = Some (writeResponse (request pathAnswerInfo "u1") 200 "<html>").
Proof.
  destruct (pass_through_invariant pathAnswerInfo "u1" "<html>") as [H1 H2].
  - left. reflexivity.
  - left. vm_compute. reflexivity.
  - split; [exact H1|]. apply H2.
    + apply engaged_request; [left; reflexivity | discriminate].
    + reflexivity.
    + reflexivity.
Defined.

(** C4. Answer detail: when the data is an object and the caller equals
    the extracted answer owner or question owner, the response is reported
    unchanged and the middleware writes the recorded status and body. *)
Theorem self_ownership_invariant (userID : string) (b : bytes)
    (e : responseEnvelope) (payload : gmap string any) :
  unmarshal_responseEnvelope b = Some e ->
  unmarshal_map (Data e) = Some payload ->
  extractAnswerOwnerID payload = userID \/ extractQuestionOwnerID payload = userID ->
  filterAnswerResponse pathAnswerInfo userID b = unchanged
  /\ forall a next ctx,
       engaged a ctx userID -> Path ctx = pathAnswerInfo ->
       body (captured next ctx) = b ->
       answerVisibilityMiddleware a next ctx =
         Some (writeResponse ctx (statusCode (captured next ctx)) b).
Proof.
  intros He Hp Ho.
  assert (H : filterAnswerResponse pathAnswerInfo userID b = unchanged).
  { unfold filterAnswerResponse. rewrite He.
    destruct (String.length b =? 0)%nat; [reflexivity|].
    destruct (_ || _); [reflexivity|]. simpl.
    unfold filterAnswerInfo. rewrite Hp.
    destruct (_ && _); [reflexivity|].
    replace (String.eqb (extractAnswerOwnerID payload) userID
             || String.eqb (extractQuestionOwnerID payload) userID) with true;
      [reflexivity|].
    symmetry. apply orb_true_iff.
    destruct Ho as [Ho | Ho]; [left | right]; apply String.eqb_eq, Ho. }
  split; [exact H|].
  intros a next ctx Hen Hpath Hb. subst b.
  apply (middleware_unchanged _ _ _ userID); [exact Hen|]. rewrite Hpath. exact H.
Qed.

Lemma self_ownership_invariant_witness :
  filterAnswerResponse pathAnswerInfo "u1" detail_u1 = unchanged
  /\ answerVisibilityMiddleware registered (handler detail_u1) (request pathAnswerInfo "u1")
     = Some (writeResponse (request pathAnswerInfo "u1") 200 detail_u1).
Proof.
  destruct (self_ownership_invariant "u1" detail_u1 detail_u1_envelope (entry_of "u1"))
    as [H1 H2].
  - vm_compute. reflexivity.
  - vm_compute. reflexivity.
  - left. vm_compute. reflexivity.
  - split; [exact H1|]. apply H2.
    + apply engaged_request; [left; reflexivity | discriminate].
    + reflexivity.
    + reflexivity.
Defined.

(** ** Bypass *)

(** C5. When the feature is disabled (or no configuration is set), or the
    path is neither of the two endpoints, or the context carries no caller
    identity, the rest of the chain runs against the real writer: the
    calls of the handler reach it as they are and nothing else is
    written. *)
Theorem bypass (a : AnswerPrivate) (next : list call) (ctx : Context) :
  (AnswerPrivate_Config a = None
   \/ AnswerPrivate_Config a = Some {| Enabled := false |})
  \/ (Path ctx <> pathAnswerInfo /\ Path ctx <> pathAnswerList)
  \/ userIDFromContext ctx = Some "" ->
  answerVisibilityMiddleware a next ctx = Some (Next next ctx)
  /\ Writer (Next next ctx) = (Writer ctx ++ next)%list.
Proof.
  intros H. split; [|reflexivity].
  unfold answerVisibilityMiddleware.
  destruct (AnswerPrivate_Config a) as [[[|]]|] eqn:Ea; try reflexivity.
  destruct H as [[H | H] | [[H1 H2] | H]]; try discriminate H.
  - rewrite (eqb_refl_false _ _ H1), (eqb_refl_false _ _ H2). reflexivity.
  - destruct (negb _ && negb _); [reflexivity|]. rewrite H. reflexivity.
Qed.

Lemma bypass_witness :
  answerVisibilityMiddleware {| AnswerPrivate_Config := Some {| Enabled := false |} |}
    (handler detail_u1) (request pathAnswerInfo "u2")
  = Some (Next (handler detail_u1) (request pathAnswerInfo "u2")).
Proof.
  apply (bypass {| AnswerPrivate_Config := Some {| Enabled := false |} |}
           (handler detail_u1) (request pathAnswerInfo "u2")).
  left. right. reflexivity.
Defined.

(** ** The extractors *)

Lemma extractUserIDFromInfo_spec (X : gmap string any) :
  owner_inside X (extractUserIDFromInfo X).
Proof.
  unfold extractUserIDFromInfo.
  destruct (X !! "user_info") as [[| | | | | |u]|] eqn:E; simpl;
    try (apply owner_no_user_info; intros u'; congruence).
  destruct (u !! "id") as [[| | | |id| |]|] eqn:Ei; simpl;
    try (apply (owner_no_id X u); [exact E | intros id'; congruence]).
  apply (owner_found X u id); assumption.
Qed.

Lemma owner_inside_unique (X : gmap string any) (id id' : string) :
  owner_inside X id -> owner_inside X id' -> id = id'.
Proof.
  intros H H'.
  destruct H as [u i Hu Hi | Hno | u Hu Hno];
    destruct H' as [u' i' Hu' Hi' | Hno' | u' Hu' Hno']; try reflexivity.
  - rewrite Hu in Hu'. injection Hu' as <-. congruence.
  - exfalso. apply (Hno' u). exact Hu.
  - rewrite Hu in Hu'. injection Hu' as <-. exfalso. apply (Hno' i). exact Hi.
  - exfalso. apply (Hno u'). exact Hu'.
  - rewrite Hu in Hu'. injection Hu' as <-. exfalso. apply (Hno i'). exact Hi'.
Qed.

(** C6. The answer owner of a node is the owner inside the object under
    [info] when there is one, and the owner inside the node itself
    otherwise; the question owner is the owner inside the object under
    [question] when there is one, else the owner inside the object under
    [question_info] when there is one, else empty. *)
Theorem extractors_spec (node : gmap string any) :
  (forall info, node !! "info" = Some (AMap info) ->
     owner_inside info (extractAnswerOwnerID node))
  /\ ((forall info, node !! "info" <> Some (AMap info)) ->
      owner_inside node (extractAnswerOwnerID node))
  /\ (forall question, node !! "question" = Some (AMap question) ->
        owner_inside question (extractQuestionOwnerID node))
  /\ ((forall question, node !! "question" <> Some (AMap question)) ->
      forall questionInfo, node !! "question_info" = Some (AMap questionInfo) ->
        owner_inside questionInfo (extractQuestionOwnerID node))
  /\ ((forall question, node !! "question" <> Some (AMap question)) ->
      (forall questionInfo, node !! "question_info" <> Some (AMap questionInfo)) ->
      extractQuestionOwnerID node = "").
Proof.
  unfold extractAnswerOwnerID, extractQuestionOwnerID.
  repeat split.
  - intros info ->. simpl. apply extractUserIDFromInfo_spec.
  - intros H. destruct (node !! "info") as [[| | | | | |m]|] eqn:E; simpl;
      try apply extractUserIDFromInfo_spec.
    exfalso. apply (H m). reflexivity.
  - intros q ->. simpl. apply extractUserIDFromInfo_spec.
  - intros H qi Hqi.
    destruct (node !! "question") as [[| | | | | |m]|] eqn:E; simpl;
      try (rewrite Hqi; simpl; apply extractUserIDFromInfo_spec).
    exfalso. apply (H m). reflexivity.
  - intros H H'.
    destruct (node !! "question") as [[| | | | | |m]|] eqn:E; simpl;
      try (destruct (node !! "question_info") as [[| | | | | |m']|] eqn:E'; simpl;
           try reflexivity; exfalso; apply (H' m'); reflexivity).
    exfalso. apply (H m). reflexivity.
Qed.

Lemma extractors_spec_witness :
  owner_inside {[ "user_info" := AMap {[ "id" := AString "u1" ]} ]}
    (extractAnswerOwnerID (entry_of "u1")).
Proof.
  apply (proj1 (extractors_spec (entry_of "u1"))). vm_compute. reflexivity.
Defined.

(** ** The frame of the list filter *)



(** ** Idempotence *)

(** C8. The forbidden envelope is a fixed point of the answer detail
    filter: for every caller it is reported unchanged, and it is the only
    body that the filter produces when it reports a change, so filtering
    that output again leaves it as it is. *)
Theorem forbidden_fixed_point :
  (forall userID, filterAnswerResponse pathAnswerInfo userID forbidden_body = unchanged)
  /\ forall userID userID' b out st,
       filterAnswerResponse pathAnswerInfo userID b = (out, st, true) ->
       out = forbidden_body /\ st = 403
       /\ filterAnswerResponse pathAnswerInfo userID' out = unchanged.
Proof.
  assert (H0 : forall userID,
             filterAnswerResponse pathAnswerInfo userID forbidden_body = unchanged).
  { intros userID. apply not_filterable_unchanged. right.
    eexists. split; [vm_compute; reflexivity|]. right. left. reflexivity. }
  split; [exact H0|].
  intros userID userID' b out st H.
  apply filterAnswerResponse_changed in H as (e & _ & _ & _ & [[_ H] | [E _]]);
    [|discriminate E].
  destruct (filterAnswerInfo_cases e userID) as [E | E]; rewrite E in H.
  - discriminate H.
  - injection H as <- <-. auto.
Qed.

Lemma forbidden_fixed_point_witness :
  filterAnswerResponse pathAnswerInfo "u1" forbidden_body = unchanged.
Proof.
  destruct forbidden_fixed_point as [_ H].
  destruct (H "u2" "u1" detail_u1 forbidden_body 403) as (_ & _ & H').
  - vm_compute. reflexivity.
  - exact H'.
Defined.

(** ** Empty bodies *)

(** C9. An empty captured body is reported unchanged on every path and for
    every caller; the middleware forwards the empty body with the recorded
    status. *)
Theorem empty_body_unchanged (path userID : string) :
  filterAnswerResponse path userID "" = unchanged
  /\ forall a next ctx,
       engaged a ctx userID -> body (captured next ctx) = "" ->
       answerVisibilityMiddleware a next ctx =
         Some (writeResponse ctx (statusCode (captured next ctx)) "").
Proof.
  split; [reflexivity|].
  intros a next ctx He Hb. rewrite (middleware_unchanged _ _ _ _ He); rewrite Hb; reflexivity.
Qed.

Lemma empty_body_unchanged_witness :
  answerVisibilityMiddleware registered [WriteHeader 204] (request pathAnswerInfo "u1")
  = Some (writeResponse (request pathAnswerInfo "u1") 204 "").
Proof.
  apply (proj2 (empty_body_unchanged pathAnswerInfo "u1")).
  - apply engaged_request; [left; reflexivity | discriminate].
  - reflexivity.
Defined.

(** ** Configuration *)

Lemma decode_Config_omitted ms c :
  Forall (fun m : string * string * tree => field_of ["enabled"] m.1.1 = None) ms ->
  forall ok,
    foldl (fun acc m =>
             match store_Config m.1.1 m.1.2 m.2 acc.1 with
             | Some v' => (v', acc.2)
             | None => (acc.1, false)
             end) (c, ok) ms = (c, ok).
Proof.
  induction 1 as [|m ms Hm _ IH]; intros ok; simpl; [reflexivity|].
  unfold store_Config at 2. rewrite Hm. simpl. apply IH.
Qed.

(** C10. [ConfigReceiver] returns a nil error for every input, and leaves
    the plugin enabled when the input is not valid JSON or has no member
    for the [enabled] field. *)
Theorem ConfigReceiver_total (a : AnswerPrivate) (config : bytes) :
  (ConfigReceiver a config).2 = None
  /\ (parse config = None \/ omits_enabled config ->
      AnswerPrivate_Config (ConfigReceiver a config).1 = Some {| Enabled := true |}).
Proof.
  split; [reflexivity|].
  unfold ConfigReceiver, unmarshal_Config, unmarshal_struct. simpl.
  intros [H | (t & Ht & Hms)].
  - rewrite H. reflexivity.
  - rewrite Ht. destruct t as [| | | | |ms]; try reflexivity.
    unfold decode_struct.
    rewrite (decode_Config_omitted ms _ (Hms ms eq_refl)). reflexivity.
Qed.

Lemma ConfigReceiver_total_witness :
  AnswerPrivate_Config (ConfigReceiver registered (js "{'enabled':fal")).1
  = Some {| Enabled := true |}
  /\ AnswerPrivate_Config (ConfigReceiver registered (js "{'verbose':false}")).1
     = Some {| Enabled := true |}.
Proof.
  split.
  - apply (proj2 (ConfigReceiver_total registered (js "{'enabled':fal"))).
    left. vm_compute. reflexivity.
  - apply (proj2 (ConfigReceiver_total registered (js "{'verbose':false}"))).
    right. eexists. split; [vm_compute; reflexivity|].
    intros ms [= <-]. repeat constructor.
Defined.

(** ** The scenarios of the specification *)

(** Scenario A: the author of an answer reads its detail; the response is
    the handler's, with status 200. *)
Example scenario_A :
  Writer <$> answerVisibilityMiddleware registered (handler detail_u1)
               (request pathAnswerInfo "u1")
  = Some [WriteHeader 200; Write detail_u1].
Proof. vm_compute. reflexivity. Qed.

(** Scenario B: another user reads it; the response is 403 with the
    forbidden envelope. *)
Example scenario_B :
  Writer <$> answerVisibilityMiddleware registered (handler detail_u1)
               (request pathAnswerInfo "u2")
  = Some [WriteHeader 403; Write forbidden_body].
Proof. vm_compute. reflexivity. Qed.

(** Scenario C: u1 reads a page with an answer of u1 and one of u2, an
    entry without owner and a number; the page is narrowed to the answer
    of u1 and the status is kept. Decoding the new body gives that list,
    the count 1 and the other field as it was. *)
Example scenario_C :
  Writer <$> answerVisibilityMiddleware registered (handler page_mixed)
               (request pathAnswerList "u1")
  = Some [WriteHeader 200; Write page_mixed_u1]
  /\ (unmarshal_responseEnvelope page_mixed_u1 ≫= fun e => unmarshal_map (Data e))
     = Some {[ "list" := ASlice [AMap (entry_of "u1")];
               "count" := AFloat64 "1"; "page" := AFloat64 "1" ]}.
Proof. split; vm_compute; reflexivity. Qed.

(** Scenario D: an entry without [user_info.id] under any recognized shape
    is dropped whoever the caller is. *)
Example scenario_D (userID : string) :
  foldl (list_step userID) [] [AMap {[ "title" := AString "t" ]}; AMap (entry_of userID)]
  = if String.eqb userID "" then [] else [AMap (entry_of userID)].
Proof.
  simpl. unfold list_step. simpl.
  change (extractAnswerOwnerID {[ "title" := AString "t" ]}) with "".
  change (extractQuestionOwnerID {[ "title" := AString "t" ]}) with "".
  change (extractAnswerOwnerID (entry_of userID)) with userID.
  change (extractQuestionOwnerID (entry_of userID)) with "".
  simpl. rewrite String.eqb_refl, andb_true_r. simpl.
  destruct (String.eqb userID ""); reflexivity.
Qed.

(** Scenario E: with the feature disabled, a user who does not own the
    answer gets the handler's response. *)
Example scenario_E :
  Writer <$> answerVisibilityMiddleware
               {| AnswerPrivate_Config := Some {| Enabled := false |} |}
               (handler detail_u1) (request pathAnswerInfo "u2")
  = Some (handler detail_u1).
Proof. vm_compute. reflexivity. Qed.

(** * Further properties of the plugin *)

(** ** The recorder *)

Lemma Next_recorded_body (next : list call) (r : responseRecorder) :
  body (Next_recorded next r) = body r +:+ written next.
Proof.
  unfold Next_recorded. revert r.
  induction next as [|c next IH]; intros r; cbn [foldl].
  - cbn. rewrite sapp_nil_r. reflexivity.
  - rewrite IH. destruct c; cbn [recorder_call written foldr].
    + reflexivity.
    + unfold recorder_WriteHeaderNow. destruct (status r =? 0); reflexivity.
    + cbn [recorder_Write body]. apply sapp_assoc.
Qed.

Lemma Next_recorded_tracks (next : list call) (r : responseRecorder) (acc : option Z) :
  tracks acc (status r) ->
  tracks (foldl (fun acc c => match c with WriteHeader s => Some s | _ => acc end) acc next)
         (status (Next_recorded next r)).
Proof.
  unfold Next_recorded. revert r acc.
  induction next as [|c next IH]; intros r acc H; cbn [foldl]; [exact H|].
  apply IH. destruct c; cbn [recorder_call].
  - left. reflexivity.
  - unfold recorder_WriteHeaderNow, tracks in *.
    destruct (Z.eqb_spec (status r) 0) as [E | E]; cbn [status]; [|exact H].
    destruct acc as [s|]; [|auto]. right. split; [lia | reflexivity].
  - exact H.
Qed.

Lemma statusCode_tracks (r : responseRecorder) (acc : option Z) :
  tracks acc (status r) ->
  statusCode r = match acc with
                 | Some s => if s =? 0 then StatusOK else s
                 | None => StatusOK
                 end.
Proof.
  unfold tracks, statusCode. intros H.
  destruct acc as [s|].
  - destruct H as [-> | [-> ->]]; [|reflexivity].
    destruct (s =? 0); reflexivity.
  - destruct H as [-> | ->]; reflexivity.
Qed.

Lemma Next_recorded_status (next w : list call) :
  statusCode (Next_recorded next (newResponseRecorder w)) = replied next.
Proof.
  apply (statusCode_tracks _ (last_header next)).
  apply (Next_recorded_tracks next (newResponseRecorder w) None). left. reflexivity.
Qed.

Lemma replied_nonzero (next : list call) : replied next <> 0.
Proof.
  unfold replied. destruct (last_header next) as [s|]; [|discriminate].
  destruct (Z.eqb_spec s 0); [discriminate | assumption].
Qed.


(** X2. The status that a fresh recorder reports after any calls is the
    argument of the last [WriteHeader] call, or 200 when there was none or
    it was 0 (whether [WriteHeaderNow] was called or not); it is never 0. *)
Theorem recorder_status (next w : list call) :
  statusCode (Next_recorded next (newResponseRecorder w))
  = match last_header next with
    | Some s => if s =? 0 then 200 else s
    | None => 200
    end
  /\ statusCode (Next_recorded next (newResponseRecorder w)) <> 0.
Proof.
  split; [apply Next_recorded_status|].
  rewrite Next_recorded_status. apply replied_nonzero.
Qed.

(** ** The middleware and the recorded response *)

Lemma captured_status (next : list call) (ctx : Context) :
  statusCode (captured next ctx) = replied next.
Proof. apply Next_recorded_status. Qed.

Lemma captured_body (next : list call) (ctx : Context) :
  body (captured next ctx) = written next.
Proof. unfold captured. rewrite Next_recorded_body. reflexivity. Qed.

Lemma replied_single (s : Z) (w : bytes) :
  s <> 0 -> replied [WriteHeader s; Write w] = s /\ written [WriteHeader s; Write w] = w.
Proof.
  intros Hs. split; [|cbn; apply sapp_nil_r].
  unfold replied. cbn. destruct (Z.eqb_spec s 0); [contradiction | reflexivity].
Qed.


(** ** Pages and their bodies *)

Lemma decoded_lookup (m : gmap string any) (k : string) (v : any) :
  decoded (AMap m) -> m !! k = Some v -> decoded v.
Proof.
  intros [Hwf Hfix] Hk. split.
  - inversion Hwf as [ | | | | | |m' Hm E]. apply (Hm k v Hk).
  - cbn [floatify] in Hfix. injection Hfix as Hfix.
    pose proof (f_equal (fun m : gmap string any => m !! k) Hfix) as E.
    cbn beta in E. rewrite lookup_fmap, Hk in E. cbn in E. injection E as E. exact E.
Qed.

Lemma decoded_slice (l : list any) : decoded (ASlice l) -> Forall decoded l.
Proof.
  intros [Hwf Hfix]. inversion Hwf as [ | | | | |l' Hall E| ]. subst l'.
  cbn [floatify] in Hfix. injection Hfix as Hfix.
  apply fmap_fixed_list_inv in Hfix.
  rewrite Forall_forall in *. intros x Hx. split; [apply Hall, Hx | apply Hfix, Hx].
Qed.

Lemma decoded_filter (P : any -> Prop) `{!forall x, Decision (P x)} (l : list any) :
  Forall decoded l -> Forall decoded (filter P l).
Proof.
  rewrite !Forall_forall. intros Hl x Hx. apply list_elem_of_filter in Hx as [_ Hx].
  apply Hl, Hx.
Qed.

Lemma ascii_key (k : string) : all_chars is_ascii k = true -> utf8 k.
Proof. intros Hk. apply utf8_of_prefix, utf8_prefix_all_ascii, Hk. Qed.

Lemma with_list_wf (payload : gmap string any) (kept : list any) :
  decoded (AMap payload) -> Forall decoded kept -> wf (AMap (with_list payload kept)).
Proof.
  intros [Hwf _] Hk. inversion Hwf as [ | | | | | |m Hm E]. subst m.
  constructor. unfold with_list.
  apply map_Forall_insert_2; [split; [apply ascii_key; reflexivity | constructor]|].
  apply map_Forall_insert_2; [|exact Hm].
  split; [apply ascii_key; reflexivity|]. constructor.
  eapply Forall_impl; [exact Hk|]. intros x [Hx _]. exact Hx.
Qed.

(** Read back, the data of a page body is the payload with its list and
    count. *)
Lemma with_list_reread (payload : gmap string any) (kept : list any) :
  decoded (AMap payload) -> Forall decoded kept ->
  unmarshal_map (marshal_any (AMap (with_list payload kept)))
  = Some (<["count" := AFloat64 (itoa (Z.of_nat (length kept)))]>
            (<["list" := ASlice kept]> payload)).
Proof.
  intros Hd Hk. rewrite unmarshal_marshal_map by (apply with_list_wf; assumption).
  destruct Hd as [_ Hfix]. cbn [floatify] in Hfix. injection Hfix as Hfix.
  f_equal. unfold with_list. rewrite !fmap_insert, Hfix. cbn [floatify].
  rewrite (fmap_fixed_list floatify kept); [reflexivity|].
  eapply Forall_impl; [exact Hk|]. intros x [_ Hx]. exact Hx.
Qed.

Lemma page_body_reread (e : responseEnvelope) (payload : gmap string any)
    (kept : list any) :
  envelope_ok e -> decoded (AMap payload) -> Forall decoded kept ->
  exists out,
    page_body e payload kept = Some out
    /\ unmarshal_responseEnvelope out
       = Some {| Code := Code e; Reason := Reason e; Message := Message e;
                 Data := marshal_any (AMap (with_list payload kept)) |}.
Proof.
  intros (Hc & Hr & Hm) Hd Hk.
  apply (unmarshal_marshal_envelope _ _ _ _ Hc Hr Hm). apply with_list_wf; assumption.
Qed.

Lemma with_list_again (payload : gmap string any) (kept kept' : list any) (v : any) :
  with_list (<["count" := v]> (<["list" := ASlice kept]> payload)) kept'
  = with_list payload kept'.
Proof.
  unfold with_list. apply map_eq. intros k.
  destruct (decide (k = "count")) as [-> | Hc]; [rewrite !lookup_insert_eq; reflexivity|].
  destruct (decide (k = "list")) as [-> | Hl].
  - rewrite !(lookup_insert_ne _ "count" "list") by discriminate.
    rewrite !lookup_insert_eq. reflexivity.
  - repeat rewrite lookup_insert_ne by congruence. reflexivity.
Qed.

Lemma filterAnswerList_page (e : responseEnvelope) (userID : string)
    (payload : gmap string any) (l : list any) :
  unmarshal_map (Data e) = Some payload -> payload !! "list" = Some (ASlice l) ->
  filterAnswerList e userID
  = match page_body e payload (filter (shown userID) l) with
    | Some out => (out, 0, true)
    | None => unchanged
    end.
Proof. apply filterAnswerList_decoded. Qed.

Lemma filterAnswerList_cases (e : responseEnvelope) (userID : string) :
  filterAnswerList e userID = unchanged
  \/ exists out, filterAnswerList e userID = (out, 0, true).
Proof.
  unfold filterAnswerList. destruct (unmarshal_map (Data e)); [|auto].
  destruct (as_slice _); [|auto]. cbv zeta. cbn [Marshal].
  destruct (marshal_responseEnvelope _); eauto.
Qed.

(** What a change on the answer page comes from. *)
Lemma filter_list_changed (userID : string) (b out : bytes) (st : Z) :
  filterAnswerResponse pathAnswerList userID b = (out, st, true) ->
  st = 0
  /\ exists e payload l,
       unmarshal_responseEnvelope b = Some e
       /\ unmarshal_map (Data e) = Some payload
       /\ payload !! "list" = Some (ASlice l)
       /\ page_body e payload (filter (shown userID) l) = Some out.
Proof.
  intros H.
  apply filterAnswerResponse_changed in H as (e & He & _ & _ & [[E _] | [_ Hl]]);
    [discriminate E|].
  pose proof Hl as Hl'. unfold filterAnswerList in Hl'.
  destruct (unmarshal_map (Data e)) as [payload|] eqn:Hp; [|discriminate Hl'].
  destruct (payload !! "list") as [[| | | | |l|]|] eqn:Hlist; try discriminate Hl'.
  clear Hl'. rewrite (filterAnswerList_page _ _ _ _ Hp Hlist) in Hl.
  destruct (page_body _ _ _) as [out'|] eqn:Hm; [|discriminate Hl].
  injection Hl as <- <-. split; [reflexivity|].
  exists e, payload, l. auto.
Qed.

(** Filtering the body of a page. *)
Lemma filter_page_body (userID : string) (e : responseEnvelope)
    (payload : gmap string any) (kept : list any) (out : bytes) :
  envelope_ok e -> decoded (AMap payload) -> Forall decoded kept ->
  page_body e payload kept = Some out ->
  exists out',
    page_body e payload (filter (shown userID) kept) = Some out'
    /\ filterAnswerResponse pathAnswerList userID out = (out', 0, true).
Proof.
  intros He Hd Hk Hout.
  destruct (page_body_reread e payload kept He Hd Hk) as (out1 & Hout1 & Hre).
  rewrite Hout in Hout1. injection Hout1 as <-.
  destruct (page_body_reread e payload (filter (shown userID) kept) He Hd
              (decoded_filter _ _ Hk)) as (out' & Hout' & _).
  exists out'. split; [exact Hout'|].
  rewrite (filterAnswerResponse_decoded _ _ _ _ Hre);
    [|cbn [Data marshal_any]; discriminate..].
  change (String.eqb pathAnswerList pathAnswerInfo) with false.
  change (String.eqb pathAnswerList pathAnswerList) with true. cbv iota.
  set (e1 := {| Code := Code e; Reason := Reason e; Message := Message e;
                Data := marshal_any (AMap (with_list payload kept)) |}).
  rewrite (filterAnswerList_page e1 userID _ kept
             (with_list_reread _ _ Hd Hk : unmarshal_map (Data e1) = _)).
  - unfold page_body in *. cbn [Code Reason Message e1]. rewrite with_list_again, Hout'.
    reflexivity.
  - rewrite lookup_insert_ne by discriminate. apply lookup_insert_eq.
Qed.

Lemma filter_list_decoded (userID : string) (b out : bytes) (st : Z) :
  filterAnswerResponse pathAnswerList userID b = (out, st, true) ->
  st = 0
  /\ exists e payload l,
       unmarshal_responseEnvelope b = Some e
       /\ unmarshal_map (Data e) = Some payload
       /\ payload !! "list" = Some (ASlice l)
       /\ envelope_ok e /\ decoded (AMap payload) /\ Forall decoded l
       /\ page_body e payload (filter (shown userID) l) = Some out.
Proof.
  intros H. apply filter_list_changed in H as (-> & e & payload & l & He & Hp & Hl & Ho).
  split; [reflexivity|]. exists e, payload, l.
  pose proof (unmarshal_map_decoded _ _ Hp) as Hd.
  split; [exact He|]. split; [exact Hp|]. split; [exact Hl|].
  split; [apply (unmarshal_envelope_ok _ _ He)|].
  split; [exact Hd|]. split; [|exact Ho].
  apply decoded_slice, (decoded_lookup _ _ _ Hd Hl).
Qed.

Lemma filter_list_again (userID : string) (b out : bytes) (st : Z) :
  filterAnswerResponse pathAnswerList userID b = (out, st, true) ->
  filterAnswerResponse pathAnswerList userID out = (out, 0, true).
Proof.
  intros H.
  apply filter_list_decoded in H
    as (_ & e & payload & l & _ & _ & _ & He & Hd & Hl & Ho).
  destruct (filter_page_body userID e payload _ out He Hd (decoded_filter _ _ Hl) Ho)
    as (out' & Ho' & ->).
  rewrite list_filter_filter_l in Ho' by auto.
  rewrite Ho in Ho'. injection Ho' as <-. reflexivity.
Qed.

(** X4. Filtering a narrowed page again for the same caller gives the same
    bytes: the output of the list filter is a fixed point of it. *)
Theorem list_filter_idempotent (userID : string) (b out : bytes) (st : Z) :
  filterAnswerResponse pathAnswerList userID b = (out, st, true) ->
  filterAnswerResponse pathAnswerList userID out = (out, st, true).
Proof.
  intros H. pose proof (filter_list_again _ _ _ _ H) as H'.
  apply filter_list_changed in H as [-> _]. exact H'.
Qed.

Lemma list_filter_idempotent_witness :
  filterAnswerResponse pathAnswerList "u1" page_mixed_u1 = (page_mixed_u1, 0, true).
Proof.
  apply (list_filter_idempotent "u1" page_mixed page_mixed_u1 0).
  vm_compute. reflexivity.
Defined.

(** X5. Narrowing a page for one caller and then for another gives the
    same bytes in either order: the page of the entries shown to both. *)
Theorem list_filter_commutes (userID userID' : string) (b out1 out2 : bytes)
    (st1 st2 : Z) :
  filterAnswerResponse pathAnswerList userID b = (out1, st1, true) ->
  filterAnswerResponse pathAnswerList userID' b = (out2, st2, true) ->
  exists out e payload l,
    filterAnswerResponse pathAnswerList userID' out1 = (out, 0, true)
    /\ filterAnswerResponse pathAnswerList userID out2 = (out, 0, true)
    /\ unmarshal_responseEnvelope b = Some e
    /\ unmarshal_map (Data e) = Some payload
    /\ payload !! "list" = Some (ASlice l)
    /\ page_body e payload
         (filter (fun item => shown userID item /\ shown userID' item) l) = Some out.
Proof.
  intros H1 H2.
  apply filter_list_decoded in H1
    as (_ & e & payload & l & He & Hp & Hlist & Hok & Hd & Hl & Ho1).
  apply filter_list_decoded in H2
    as (_ & e' & payload' & l' & He' & Hp' & Hlist' & _ & _ & _ & Ho2).
  rewrite He in He'. injection He' as <-.
  rewrite Hp in Hp'. injection Hp' as <-.
  rewrite Hlist in Hlist'. injection Hlist' as <-.
  destruct (filter_page_body userID' e payload _ out1 Hok Hd (decoded_filter _ _ Hl) Ho1)
    as (out & Ho & H12).
  destruct (filter_page_body userID e payload _ out2 Hok Hd (decoded_filter _ _ Hl) Ho2)
    as (out' & Ho' & H21).
  rewrite list_filter_filter in Ho, Ho'.
  rewrite (list_filter_iff _ (fun item => shown userID item /\ shown userID' item)) in Ho
    by (intros x; tauto).
  rewrite Ho in Ho'. injection Ho' as <-.
  exists out, e, payload, l. auto 10.
Qed.

Lemma list_filter_commutes_witness :
  filterAnswerResponse pathAnswerList "u2" page_mixed_u1
  = filterAnswerResponse pathAnswerList "u1"
      (filterAnswerResponse pathAnswerList "u2" page_mixed).1.1.
Proof.
  destruct (list_filter_commutes "u1" "u2" page_mixed page_mixed_u1
              (filterAnswerResponse pathAnswerList "u2" page_mixed).1.1 0 0)
    as (out & _ & _ & _ & H1 & H2 & _).
  - vm_compute. reflexivity.
  - vm_compute. reflexivity.
  - rewrite H1, H2. reflexivity.
Defined.
(** ** What the filters return *)

Lemma unmarshal_forbidden_body :
  unmarshal_responseEnvelope forbidden_body = Some forbidden.
Proof. vm_compute. reflexivity. Qed.

Lemma filter_not_changed (path userID : string) (b out : bytes) (st : Z) :
  filterAnswerResponse path userID b = (out, st, false) -> out = "" /\ st = 0.
Proof.
  assert (H0 : unchanged = (out, st, false) -> out = "" /\ st = 0).
  { intros [= <- <-]. auto. }
  unfold filterAnswerResponse.
  destruct (String.length b =? 0)%nat; [exact H0|].
  destruct (unmarshal_responseEnvelope b) as [e|]; [|exact H0].
  destruct (_ || _); [exact H0|].
  destruct (String.eqb path pathAnswerInfo).
  { destruct (filterAnswerInfo_cases e userID) as [-> | ->]; [exact H0 | discriminate]. }
  destruct (String.eqb path pathAnswerList); [|exact H0].
  destruct (filterAnswerList_cases e userID) as [-> | [out' ->]]; [exact H0 | discriminate].
Qed.

Lemma filter_changed (path userID : string) (b out : bytes) (st : Z) :
  filterAnswerResponse path userID b = (out, st, true) ->
  ((path = pathAnswerInfo /\ st = StatusForbidden /\ out = forbidden_body)
   \/ (path = pathAnswerList /\ st = 0))
  /\ exists e', unmarshal_responseEnvelope out = Some e'.
Proof.
  intros H. pose proof H as H'.
  apply filterAnswerResponse_changed in H' as (e & _ & _ & _ & [[-> Hi] | [-> Hl]]).
  - destruct (filterAnswerInfo_cases e userID) as [E | E]; rewrite E in Hi;
      [discriminate Hi|]. injection Hi as <- <-.
    split; [left; auto|]. exists forbidden. apply unmarshal_forbidden_body.
  - apply filter_list_decoded in H
      as (-> & e1 & payload & l & _ & _ & _ & He & Hd & Hall & Ho).
    split; [right; auto|].
    destruct (page_body_reread e1 payload _ He Hd (decoded_filter (shown userID) _ Hall))
      as (out' & Ho' & Hre).
    rewrite Ho in Ho'. injection Ho' as <-. eauto.
Qed.

(** X6. Whatever the path, the caller and the body, a filter that reports
    no change returns a nil body and no status; one that reports a change
    was called for one of the two endpoints, returns status 403 with the
    forbidden envelope (answer detail) or no status (answer page), and
    its body is a JSON text that decodes as an envelope. *)
Theorem filter_outcomes (path userID : string) (b out : bytes) (st : Z)
    (changed : bool) :
  filterAnswerResponse path userID b = (out, st, changed) ->
  if changed
  then ((path = pathAnswerInfo /\ st = 403 /\ out = forbidden_body)
        \/ (path = pathAnswerList /\ st = 0))
       /\ exists e', unmarshal_responseEnvelope out = Some e'
  else out = "" /\ st = 0.
Proof.
  destruct changed; [apply filter_changed | apply filter_not_changed].
Qed.

Lemma filter_outcomes_witness :
  ((pathAnswerList = pathAnswerInfo /\ 0 = 403 /\ page_mixed_u1 = forbidden_body)
   \/ (pathAnswerList = pathAnswerList /\ 0 = 0))
  /\ exists e', unmarshal_responseEnvelope page_mixed_u1 = Some e'.
Proof.
  apply (filter_outcomes pathAnswerList "u1" page_mixed page_mixed_u1 0 true).
  vm_compute. reflexivity.
Defined.

(** ** One response per request *)

Lemma middleware_response (a : AnswerPrivate) (next : list call) (ctx : Context)
    (userID : string) :
  engaged a ctx userID ->
  exists st b,
    answerVisibilityMiddleware a next ctx = Some (writeResponse ctx st b)
    /\ st <> 0
    /\ ((st = replied next /\ b = written next
         /\ filterAnswerResponse (Path ctx) userID (written next) = unchanged)
        \/ (st = StatusForbidden /\ b = forbidden_body /\ Path ctx = pathAnswerInfo)
        \/ (st = replied next /\ Path ctx = pathAnswerList
            /\ filterAnswerResponse pathAnswerList userID (written next) = (b, 0, true))).
Proof.
  intros He. rewrite (middleware_engaged _ _ _ _ He). cbv zeta.
  rewrite captured_status, captured_body.
  destruct (filterAnswerResponse (Path ctx) userID (written next))
    as [[out st] changed] eqn:Ef.
  destruct changed.
  - destruct (filter_changed _ _ _ _ _ Ef) as [[(Hp & -> & ->) | (Hp & ->)] _].
    + exists StatusForbidden, forbidden_body. split; [reflexivity|].
      split; [discriminate|]. right. left. auto.
    + exists (replied next), out. split; [reflexivity|].
      split; [apply replied_nonzero|]. right. right. rewrite <- Hp. auto.
  - destruct (filter_not_changed _ _ _ _ _ Ef) as [-> ->].
    exists (replied next), (written next). split; [reflexivity|].
    split; [apply replied_nonzero|]. left. auto.
Qed.



(** X8. Running the middleware on its own response changes nothing: what
    it wrote for a request is what it writes when the rest of the chain
    answers with that status and that body. Installing it twice is like
    installing it once. *)
Theorem middleware_idempotent (a : AnswerPrivate) (next : list call) (ctx : Context)
    (userID : string) :
  engaged a ctx userID ->
  exists st b,
    answerVisibilityMiddleware a next ctx = Some (writeResponse ctx st b)
    /\ answerVisibilityMiddleware a [WriteHeader st; Write b] ctx
       = Some (writeResponse ctx st b).
Proof.
  intros He. destruct (middleware_response a next ctx userID He) as (st & b & H & Hs & Hc).
  exists st, b. split; [exact H|].
  rewrite (middleware_engaged _ _ _ _ He). cbv zeta.
  destruct (replied_single st b Hs) as [E1 E2].
  rewrite captured_status, captured_body, E1, E2.
  destruct Hc as [(_ & -> & Hf) | [(_ & -> & Hp) | (_ & Hp & Hf)]].
  - rewrite Hf. reflexivity.
  - rewrite Hp.
    replace (filterAnswerResponse pathAnswerInfo userID forbidden_body) with unchanged;
      [reflexivity|].
    symmetry. apply not_filterable_unchanged. right. exists forbidden.
    split; [apply unmarshal_forbidden_body|]. right. left. reflexivity.
  - rewrite Hp, (filter_list_again _ _ _ _ Hf). reflexivity.
Qed.

Lemma middleware_idempotent_witness :
  exists st b,
    answerVisibilityMiddleware registered (handler page_mixed) (request pathAnswerList "u1")
    = Some (writeResponse (request pathAnswerList "u1") st b)
    /\ answerVisibilityMiddleware registered [WriteHeader st; Write b]
         (request pathAnswerList "u1")
       = Some (writeResponse (request pathAnswerList "u1") st b).
Proof.
  apply (middleware_idempotent registered (handler page_mixed)
           (request pathAnswerList "u1") "u1").
  apply engaged_request; [right; reflexivity | discriminate].
Defined.

(** ** When the filters leave a response alone *)

(** X9. Answer detail: the filter changes a response only when its data
    decodes to an object from which some owner is extracted and neither
    extracted owner is the caller. In particular an object from which no
    owner can be extracted is passed through, where the answer page drops
    such an entry. *)
Theorem detail_blocked_only_for_strangers (userID : string) (b : bytes) :
  (forall out st,
     filterAnswerResponse pathAnswerInfo userID b = (out, st, true) ->
     exists e payload,
       unmarshal_responseEnvelope b = Some e
       /\ unmarshal_map (Data e) = Some payload
       /\ (extractAnswerOwnerID payload <> "" \/ extractQuestionOwnerID payload <> "")
       /\ extractAnswerOwnerID payload <> userID
       /\ extractQuestionOwnerID payload <> userID)
  /\ (forall e payload,
        unmarshal_responseEnvelope b = Some e ->
        unmarshal_map (Data e) = Some payload ->
        extractAnswerOwnerID payload = "" -> extractQuestionOwnerID payload = "" ->
        filterAnswerResponse pathAnswerInfo userID b = unchanged).
Proof.
  split.
  - intros out st H.
    apply filterAnswerResponse_changed in H as (e & He & _ & _ & [[_ Hi] | [E _]]);
      [|discriminate E].
    unfold filterAnswerInfo in Hi.
    destruct (unmarshal_map (Data e)) as [payload|] eqn:Hp; [|discriminate Hi].
    exists e, payload. split; [exact He|]. split; [exact Hp|]. cbv zeta in Hi.
    destruct (String.eqb (extractAnswerOwnerID payload) "") eqn:Ea;
      destruct (String.eqb (extractQuestionOwnerID payload) "") eqn:Eq;
      cbn [andb] in Hi; try discriminate Hi.
    all: destruct (String.eqb (extractAnswerOwnerID payload) userID) eqn:Eau;
      destruct (String.eqb (extractQuestionOwnerID payload) userID) eqn:Equ;
      cbn [orb] in Hi; try discriminate Hi.
    all: apply String.eqb_neq in Eau, Equ.
    all: split; [|split; assumption].
    + right. apply String.eqb_neq, Eq.
    + left. apply String.eqb_neq, Ea.
    + left. apply String.eqb_neq, Ea.
  - intros e payload He Hp Ha Hq. unfold filterAnswerResponse. rewrite He.
    destruct (String.length b =? 0)%nat; [reflexivity|].
    destruct (_ || _); [reflexivity|]. cbn.
    unfold filterAnswerInfo. rewrite Hp. cbv zeta. rewrite Ha, Hq. reflexivity.
Qed.

Lemma detail_blocked_only_for_strangers_witness :
  filterAnswerResponse pathAnswerInfo "u1" (js "{'code':200,'data':{'title':'t'}}")
  = unchanged.
Proof.
  apply (proj2 (detail_blocked_only_for_strangers "u1"
                  (js "{'code':200,'data':{'title':'t'}}"))
           {| Code := 200; Reason := ""; Message := ""; Data := js "{'title':'t'}" |}
           {[ "title" := AString "t" ]}).
  - vm_compute. reflexivity.
  - vm_compute. reflexivity.
  - reflexivity.
  - reflexivity.
Defined.

(** X10. Answer page: a response whose data does not decode as an object,
    or decodes to an object whose [list] is missing, null or not an array,
    is reported unchanged, and the middleware forwards what the recorder
    kept. *)
Theorem page_without_list (userID : string) (b : bytes) (e : responseEnvelope) :
  unmarshal_responseEnvelope b = Some e ->
  (unmarshal_map (Data e) = None
   \/ exists payload, unmarshal_map (Data e) = Some payload
        /\ forall l, payload !! "list" <> Some (ASlice l)) ->
  filterAnswerResponse pathAnswerList userID b = unchanged
  /\ forall a next ctx,
       engaged a ctx userID -> Path ctx = pathAnswerList ->
       body (captured next ctx) = b ->
       answerVisibilityMiddleware a next ctx =
         Some (writeResponse ctx (statusCode (captured next ctx)) b).
Proof.
  intros He Hd.
  assert (H : filterAnswerResponse pathAnswerList userID b = unchanged).
  { unfold filterAnswerResponse. rewrite He.
    destruct (String.length b =? 0)%nat; [reflexivity|].
    destruct (_ || _); [reflexivity|]. cbn.
    unfold filterAnswerList.
    destruct Hd as [-> | (payload & -> & Hl)]; [reflexivity|].
    destruct (payload !! "list") as [[| | | | |l|]|] eqn:E; try reflexivity.
    contradiction (Hl l eq_refl). }
  split; [exact H|].
  intros a next ctx Hen Hpath Hb. subst b.
  apply (middleware_unchanged _ _ _ userID); [exact Hen|]. rewrite Hpath. exact H.
Qed.

Lemma page_without_list_witness :
  filterAnswerResponse pathAnswerList "u1" (js "{'code':200,'data':{'list':null,'count':3}}")
  = unchanged.
Proof.
  apply (page_without_list "u1" (js "{'code':200,'data':{'list':null,'count':3}}")
           {| Code := 200; Reason := ""; Message := "";
              Data := js "{'list':null,'count':3}" |}).
  - vm_compute. reflexivity.
  - right. exists {[ "list" := ANil; "count" := AFloat64 "3" ]}.
    split; [vm_compute; reflexivity|]. intros l. vm_compute. discriminate.
Defined.
(** ** The caller identity *)







(** ** Receiving a configuration *)






Lemma store_Config_false (key : string) (raw : bytes) (x : tree) (c c' : Config) :
  store_Config key raw x c = Some c' -> Enabled c' = false ->
  Enabled c = false \/ (field_of ["enabled"] key <> None /\ x = TBool false).
Proof.
  unfold store_Config. destruct (field_of ["enabled"] key) as [f|] eqn:Ef.
  - destruct x as [|b| | | |]; cbn; try discriminate.
    + intros [= <-]. auto.
    + intros [= <-]. cbn. intros ->. right. split; [discriminate | reflexivity].
  - intros [= <-]. auto.
Qed.

Lemma decode_Config_false (ms : list (string * string * tree)) :
  forall acc,
    Enabled (foldl (fun acc m =>
                      match store_Config m.1.1 m.1.2 m.2 acc.1 with
                      | Some v' => (v', acc.2)
                      | None => (acc.1, false)
                      end) acc ms).1 = false ->
    Enabled acc.1 = false
    \/ Exists (fun mm => field_of ["enabled"] mm.1.1 <> None /\ mm.2 = TBool false) ms.
Proof.
  induction ms as [|mm ms IH]; intros acc H; cbn [foldl] in H; [auto|].
  apply IH in H as [H | H]; [|right; apply Exists_cons_tl, H].
  destruct (store_Config mm.1.1 mm.1.2 mm.2 acc.1) as [c'|] eqn:E; cbn [fst] in H;
    [|auto].
  destruct (store_Config_false _ _ _ _ _ E H) as [H' | H']; [auto|].
  right. apply Exists_cons_hd, H'.
Qed.

(** X14. The plugin is received as disabled only when the text is valid
    JSON whose top-level object has a member that selects the [enabled]
    field and whose value is the literal false: no other input, and no
    decoding error, disables it. *)
Theorem disabled_only_by_false (a : AnswerPrivate) (config : bytes) :
  AnswerPrivate_Config (ConfigReceiver a config).1 = Some {| Enabled := false |} ->
  exists ms key raw,
    parse config = Some (TObj ms)
    /\ (key, raw, TBool false) ∈ ms
    /\ field_of ["enabled"] key <> None.
Proof.
  unfold ConfigReceiver, unmarshal_Config, unmarshal_struct. cbv zeta. cbn [fst snd].
  destruct (parse config) as [t|]; [|discriminate].
  destruct t as [| | | | |ms]; try discriminate.
  cbn [decode_struct AnswerPrivate_Config]. intros [= H].
  assert (H' : Enabled (foldl (fun acc m =>
                      match store_Config m.1.1 m.1.2 m.2 acc.1 with
                      | Some v' => (v', acc.2)
                      | None => (acc.1, false)
                      end) ({| Enabled := true |}, true) ms).1 = false)
    by (rewrite H; reflexivity).
  apply decode_Config_false in H' as [H' | H']; [discriminate H'|].
  apply Exists_exists in H' as ([[key raw] x] & Hin & Hf & Hx). cbn [fst snd] in *.
  subst x. exists ms, key, raw. auto.
Qed.

Lemma disabled_only_by_false_witness :
  exists ms key raw,
    parse (js "{'Enabled':false}") = Some (TObj ms)
    /\ (key, raw, TBool false) ∈ ms
    /\ field_of ["enabled"] key <> None.
Proof.
  apply (disabled_only_by_false registered (js "{'Enabled':false}")).
  vm_compute. reflexivity.
Defined.

(** ** The keys that decide visibility *)

(** X15. The owners extracted from an entry, and so whether the entry is
    shown to a caller, depend only on what stands under [info],
    [user_info], [question] and [question_info]: setting or removing any
    other key changes neither. *)
Theorem owners_frame (entry : gmap string any) (k : string) (v : any) :
  k ∉ owner_keys ->
  (extractAnswerOwnerID (<[k := v]> entry) = extractAnswerOwnerID entry
   /\ extractQuestionOwnerID (<[k := v]> entry) = extractQuestionOwnerID entry
   /\ extractAnswerOwnerID (delete k entry) = extractAnswerOwnerID entry
   /\ extractQuestionOwnerID (delete k entry) = extractQuestionOwnerID entry)
  /\ forall userID,
       (shown userID (AMap (<[k := v]> entry)) <-> shown userID (AMap entry))
       /\ (shown userID (AMap (delete k entry)) <-> shown userID (AMap entry)).
Proof.
  intros Hk.
  assert (H1 : k <> "info") by (intros ->; apply Hk; unfold owner_keys; set_solver).
  assert (H2 : k <> "user_info") by (intros ->; apply Hk; unfold owner_keys; set_solver).
  assert (H3 : k <> "question") by (intros ->; apply Hk; unfold owner_keys; set_solver).
  assert (H4 : k <> "question_info")
    by (intros ->; apply Hk; unfold owner_keys; set_solver).
  assert (H : (extractAnswerOwnerID (<[k := v]> entry) = extractAnswerOwnerID entry
   /\ extractQuestionOwnerID (<[k := v]> entry) = extractQuestionOwnerID entry
   /\ extractAnswerOwnerID (delete k entry) = extractAnswerOwnerID entry
   /\ extractQuestionOwnerID (delete k entry) = extractQuestionOwnerID entry)).
  { unfold extractAnswerOwnerID, extractQuestionOwnerID, extractUserIDFromInfo.
    rewrite !lookup_insert_ne, !lookup_delete_ne by congruence. auto. }
  split; [exact H|]. destruct H as (Ea & Eq & Da & Dq).
  intros userID. unfold shown. split; split.
  - intros (entry' & [= <-] & Hs). exists entry. rewrite Ea, Eq in Hs. auto.
  - intros (entry' & [= <-] & Hs). eexists. split; [reflexivity|]. rewrite Ea, Eq. exact Hs.
  - intros (entry' & [= <-] & Hs). exists entry. rewrite Da, Dq in Hs. auto.
  - intros (entry' & [= <-] & Hs). eexists. split; [reflexivity|]. rewrite Da, Dq. exact Hs.
Qed.

Lemma owners_frame_witness :
  shown "u1" (AMap (<["title" := AString "t"]> (entry_of "u1")))
  <-> shown "u1" (AMap (entry_of "u1")).
Proof.
  apply (owners_frame (entry_of "u1") "title" (AString "t")).
  unfold owner_keys. intros H. repeat (apply elem_of_cons in H as [H | H]; [discriminate H|]).
  inversion H.
Defined.
(** ** Responses that pass *)

(** X16. For a handler that answers with one [WriteHeader] of a non-zero
    status followed by one [Write], a response that the filter leaves
    unchanged reaches the real writer exactly as it would without the
    middleware. *)
Theorem middleware_transparent (a : AnswerPrivate) (ctx : Context) (userID : string)
    (s : Z) (b : bytes) :
  engaged a ctx userID -> s <> 0 ->
  filterAnswerResponse (Path ctx) userID b = unchanged ->
  answerVisibilityMiddleware a [WriteHeader s; Write b] ctx
  = Some (Next [WriteHeader s; Write b] ctx).
Proof.
  intros He Hs Hf. destruct (replied_single s b Hs) as [E1 E2].
  rewrite (middleware_unchanged _ _ _ userID He);
    rewrite captured_body, E2; [|exact Hf].
  rewrite captured_status, E1. reflexivity.
Qed.

Lemma middleware_transparent_witness :
  answerVisibilityMiddleware registered (handler detail_u1) (request pathAnswerInfo "u1")
  = Some (Next (handler detail_u1) (request pathAnswerInfo "u1")).
Proof.
  apply (middleware_transparent registered (request pathAnswerInfo "u1") "u1" 200 detail_u1).
  - apply engaged_request; [left; reflexivity | discriminate].
  - discriminate.
  - vm_compute. reflexivity.
Defined.

Lemma filterAnswerInfo_decoded (e : responseEnvelope) (userID : string)
    (payload : gmap string any) :
  unmarshal_map (Data e) = Some payload ->
  filterAnswerInfo e userID
  = if String.eqb (extractAnswerOwnerID payload) ""
       && String.eqb (extractQuestionOwnerID payload) ""
    then unchanged
    else if String.eqb (extractAnswerOwnerID payload) userID
            || String.eqb (extractQuestionOwnerID payload) userID
    then unchanged
    else (forbidden_body, StatusForbidden, true).
Proof.
  intros Hp. unfold filterAnswerInfo. rewrite Hp, marshal_forbidden. reflexivity.
Qed.

(** X17. The two endpoints agree on entries with an owner and differ on
    entries without: the detail of an object passes for a caller exactly
    when the page would show that object to the caller, or when no owner
    can be extracted from it, in which case the page never shows it. *)
Theorem listed_entries_open (userID : string) (b : bytes) (e : responseEnvelope)
    (entry : gmap string any) :
  unmarshal_responseEnvelope b = Some e ->
  unmarshal_map (Data e) = Some entry ->
  (filterAnswerResponse pathAnswerInfo userID b = unchanged
   <-> shown userID (AMap entry)
       \/ (extractAnswerOwnerID entry = "" /\ extractQuestionOwnerID entry = ""))
  /\ (extractAnswerOwnerID entry = "" -> extractQuestionOwnerID entry = "" ->
      ~ shown userID (AMap entry)).
Proof.
  intros He Hp. split; [|intros Ha Hq (entry' & [= <-] & Hne & _); tauto].
  destruct (unmarshal_map_data _ _ Hp) as [Hd Hn].
  destruct (decide (Data e = "null")) as [E | E].
  { specialize (Hn E). subst entry. destruct empty_map_owners as [E1 E2].
    split; [auto|]. intros _. unfold filterAnswerResponse. rewrite He, E.
    destruct (String.length b =? 0)%nat; reflexivity. }
  rewrite (filterAnswerResponse_decoded _ _ _ _ He Hd E).
  change (String.eqb pathAnswerInfo pathAnswerInfo) with true. cbv iota.
  rewrite (filterAnswerInfo_decoded _ _ _ Hp).
  destruct (String.eqb_spec (extractAnswerOwnerID entry) "") as [Ea | Ea];
    destruct (String.eqb_spec (extractQuestionOwnerID entry) "") as [Eq | Eq];
    cbn [andb]; try (split; [auto | reflexivity]).
  all: destruct (String.eqb_spec (extractAnswerOwnerID entry) userID) as [Eau | Eau];
    destruct (String.eqb_spec (extractQuestionOwnerID entry) userID) as [Equ | Equ];
    cbn [orb].
  all: try (split; [|reflexivity]; intros _; left; exists entry;
            split; [reflexivity|]; split; [tauto | auto]).
  all: split; [discriminate|].
  all: intros [(entry' & [= <-] & _ & [H | H]) | [H1 H2]]; congruence.
Qed.

Lemma listed_entries_open_witness :
  filterAnswerResponse pathAnswerInfo "u1" detail_u1 = unchanged
  <-> shown "u1" (AMap (entry_of "u1"))
      \/ (extractAnswerOwnerID (entry_of "u1") = ""
          /\ extractQuestionOwnerID (entry_of "u1") = "").
Proof.
  apply (listed_entries_open "u1" detail_u1 detail_u1_envelope (entry_of "u1")).
  - vm_compute. reflexivity.
  - vm_compute. reflexivity.
Defined.

(** ** The envelope of a narrowed page *)

(** X18. The body that the list filter writes is an object with exactly
    the members [code], [reason], [msg] and [data], in that order: every
    other top-level member of the handler's envelope is dropped. *)
Theorem page_envelope_members (userID : string) (b out : bytes) (st : Z) :
  filterAnswerResponse pathAnswerList userID b = (out, st, true) ->
  exists ms,
    parse out = Some (TObj ms)
    /\ (fun mm => mm.1.1) <$> ms = ["code"; "reason"; "msg"; "data"].
Proof.
  intros H.
  apply filter_list_decoded in H
    as (_ & e & payload & l & _ & _ & _ & (_ & Hr & Hm) & Hd & Hl & Ho).
  destruct (parse_envelope_text (Code e) (Reason e) (Message e)
              (AMap (with_list payload (filter (shown userID) l))) Hr Hm)
    as (out' & ms & Hout & Hparse & Hraw).
  { apply with_list_wf; [exact Hd | apply decoded_filter, Hl]. }
  unfold page_body in Ho. rewrite Ho in Hout. injection Hout as <-.
  exists ms. split; [exact Hparse|].
  apply (f_equal (fmap (fun x : string * string * any => x.1.1))) in Hraw.
  rewrite <- list_fmap_compose in Hraw. exact Hraw.
Qed.

Lemma page_envelope_members_witness :
  exists ms,
    parse (filterAnswerResponse pathAnswerList "u1"
             (js "{'code':200,'data':{'list':[]},'total':9}")).1.1 = Some (TObj ms)
    /\ (fun mm => mm.1.1) <$> ms = ["code"; "reason"; "msg"; "data"].
Proof.
  apply (page_envelope_members "u1" (js "{'code':200,'data':{'list':[]},'total':9}") _ 0).
  vm_compute. reflexivity.
Defined.

(** ** Bodies that decode alike *)




(** ** Envelopes that do not decode *)

Lemma decode_flag_false {T : Type} (store : string -> bytes -> tree -> T -> option T)
    (ms : list (string * string * tree)) :
  forall acc : T * bool,
    acc.2 = false ->
    (foldl (fun acc m =>
              match store m.1.1 m.1.2 m.2 acc.1 with
              | Some v' => (v', acc.2)
              | None => (acc.1, false)
              end) acc ms).2 = false.
Proof.
  induction ms as [|mm ms IH]; intros acc H; cbn [foldl]; [exact H|].
  apply IH. destruct (store _ _ _ _); [exact H | reflexivity].
Qed.

Lemma decode_error {T : Type} (store : string -> bytes -> tree -> T -> option T)
    (ms : list (string * string * tree)) :
  Exists (fun mm => forall v, store mm.1.1 mm.1.2 mm.2 v = None) ms ->
  forall acc : T * bool,
    (foldl (fun acc m =>
              match store m.1.1 m.1.2 m.2 acc.1 with
              | Some v' => (v', acc.2)
              | None => (acc.1, false)
              end) acc ms).2 = false.
Proof.
  induction 1 as [mm ms Hmm | mm ms _ IH]; intros acc; cbn [foldl].
  - rewrite Hmm. apply decode_flag_false. reflexivity.
  - apply IH.
Qed.

Lemma mistyped_store (mm : string * string * tree) :
  mistyped mm -> forall e, store_responseEnvelope mm.1.1 mm.1.2 mm.2 e = None.
Proof.
  unfold mistyped, store_responseEnvelope. intros H e.
  destruct (field_of _ mm.1.1) as [f|]; [|contradiction].
  destruct H as [[-> H] | [[-> | ->] H]]; cbn [String.eqb Ascii.eqb Bool.eqb];
    destruct (mm.2); cbn in *; try discriminate H; try reflexivity.
  rewrite H. reflexivity.
Qed.

(** X20. A body that is valid JSON but whose top-level value is not an
    object, or is an object with a mistyped [code], [reason] or [msg]
    member, is reported unchanged on every path and for every caller,
    whatever its data holds: one mistyped envelope field lets the whole
    response through. *)
Theorem mistyped_envelope_passes (path userID : string) (b : bytes) (t : tree) :
  parse b = Some t ->
  (forall ms, t = TObj ms -> Exists mistyped ms) ->
  filterAnswerResponse path userID b = unchanged
  /\ forall a next ctx,
       engaged a ctx userID -> Path ctx = path -> body (captured next ctx) = b ->
       answerVisibilityMiddleware a next ctx =
         Some (writeResponse ctx (statusCode (captured next ctx)) b).
Proof.
  intros Hp Ht.
  assert (H : filterAnswerResponse path userID b = unchanged).
  { unfold filterAnswerResponse.
    destruct (String.length b =? 0)%nat; [reflexivity|].
    unfold unmarshal_responseEnvelope, unmarshal_struct. rewrite Hp. cbv zeta.
    destruct t as [| | | | |ms]; try reflexivity.
    cbn [decode_struct]. rewrite decode_error; [reflexivity|].
    eapply Exists_impl; [apply (Ht ms eq_refl)|]. intros mm. apply mistyped_store. }
  split; [exact H|].
  intros a next ctx Hen Hpath Hb. subst b path.
  apply (middleware_unchanged _ _ _ userID); assumption.
Qed.

Lemma mistyped_envelope_passes_witness :
  filterAnswerResponse pathAnswerInfo "u2"
    (js "{'code':'200','data':{'info':{'user_info':{'id':'u1'}}}}")
  = unchanged.
Proof.
  apply (mistyped_envelope_passes pathAnswerInfo "u2"
           (js "{'code':'200','data':{'info':{'user_info':{'id':'u1'}}}}")
           (TObj [("code", js "'200'", TStr "200");
                  ("data", js "{'info':{'user_info':{'id':'u1'}}}",
                   TObj [("info", js "{'user_info':{'id':'u1'}}",
                          TObj [("user_info", js "{'id':'u1'}",
                                 TObj [("id", js "'u1'", TStr "u1")])])])])).
  - vm_compute. reflexivity.
  - intros ms [= <-]. apply Exists_cons_hd. vm_compute. left. split; reflexivity.
Defined.
